(** * compare_epub: a shallow embedding of [compare_epub.py]

    The development follows the source top-down: the Python string and
    [posixpath] primitives the program calls, the archive model behind
    [zipfile.ZipFile], the ElementTree queries used by the two parsers,
    the markup heuristics of [find_html_issues], and finally
    [compare_epub] itself as a function into an exception monad.

    Conventions.
    - A Python [str] is a [string] whose characters are code points
      below 256; [bytes] values are [string]s of octets.
    - [os.path] is [posixpath] (the script is a POSIX executable).
    - An archive is the list of its members in central-directory order.
      A member carries its content and, when it is listed but cannot be
      read (encrypted, damaged, stored by an unsupported method), the
      exception that reading it raises.
    - Iterating over a Python set has no specified order; the model
      visits the elements in the order of [elements].
    - The XML parser and the UTF-8 codec are section variables: their
      results are code points and trees this file does not compute.
      SHA-1 is computed. *)

From Stdlib Require Import ZArith NArith Ascii String List DecimalString.
From stdpp Require Import gmap strings list sorting.

Open Scope string_scope.
Open Scope list_scope.

#[local] Set Warnings "-register-all".

(** ** Python string primitives *)

Module Py.

Definition code (c : ascii) : N := N_of_ascii c.

Definition in_range (lo hi : N) (c : ascii) : bool :=
  (lo <=? code c)%N && (code c <=? hi)%N.

(** [str.isspace] on one code point: TAB..CR, FS..US and space, NEL, NBSP. *)
Definition isspace (c : ascii) : bool :=
  in_range 9 13 c || in_range 28 32 c || (code c =? 133)%N || (code c =? 160)%N.

Definition is_ascii_upper (c : ascii) : bool := in_range 65 90 c.
Definition is_ascii_lower (c : ascii) : bool := in_range 97 122 c.
Definition is_ascii_alpha (c : ascii) : bool := is_ascii_upper c || is_ascii_lower c.
Definition is_digit (c : ascii) : bool := in_range 48 57 c.

Definition is_hex_digit (c : ascii) : bool :=
  is_digit c || in_range 65 70 c || in_range 97 102 c.

(** [\w] of the [re] module in its default (Unicode) mode: [str.isalnum]
    or the underscore. *)
Definition is_word (c : ascii) : bool :=
  is_ascii_alpha c || is_digit c || (code c =? 95)%N
  || (code c =? 170)%N || (code c =? 178)%N || (code c =? 179)%N
  || (code c =? 181)%N || (code c =? 185)%N || (code c =? 186)%N
  || in_range 188 190 c || in_range 192 214 c || in_range 216 246 c
  || in_range 248 255 c.

(** [str.lower] on one code point. *)
Definition lower_char (c : ascii) : ascii :=
  if is_ascii_upper c || in_range 192 214 c || in_range 216 222 c
  then ascii_of_N (code c + 32) else c.

Fixpoint map_chars (f : ascii -> ascii) (s : string) : string :=
  match s with
  | EmptyString => EmptyString
  | String c s' => String (f c) (map_chars f s')
  end.

Definition lower (s : string) : string := map_chars lower_char s.

(** [s.replace(a, b)] for single characters [a] and [b]. *)
Definition replace_char (a b : ascii) (s : string) : string :=
  map_chars (fun c => if Ascii.eqb c a then b else c) s.

Definition startswith (s p : string) : bool := String.prefix p s.

Fixpoint endswith (s suf : string) : bool :=
  String.eqb s suf ||
  match s with
  | EmptyString => false
  | String _ s' => endswith s' suf
  end.

(** [sub in s] *)
Fixpoint contains (sub s : string) : bool :=
  String.prefix sub s ||
  match s with
  | EmptyString => false
  | String _ s' => contains sub s'
  end.

Fixpoint lstrip (s : string) : string :=
  match s with
  | EmptyString => EmptyString
  | String c s' => if isspace c then lstrip s' else s
  end.

Fixpoint rstrip (s : string) : string :=
  match s with
  | EmptyString => EmptyString
  | String c s' =>
      match rstrip s' with
      | EmptyString => if isspace c then EmptyString else String c EmptyString
      | r => String c r
      end
  end.

Definition strip (s : string) : string := rstrip (lstrip s).

(** [s.strip(chars)] for a single character. *)
Fixpoint lstrip_char (a : ascii) (s : string) : string :=
  match s with
  | EmptyString => EmptyString
  | String c s' => if Ascii.eqb c a then lstrip_char a s' else s
  end.

Fixpoint rstrip_char (a : ascii) (s : string) : string :=
  match s with
  | EmptyString => EmptyString
  | String c s' =>
      match rstrip_char a s' with
      | EmptyString => if Ascii.eqb c a then EmptyString else String c EmptyString
      | r => String c r
      end
  end.

Definition strip_char (a : ascii) (s : string) : string :=
  rstrip_char a (lstrip_char a s).

(** [s[n:]] *)
Fixpoint drop_chars (n : nat) (s : string) : string :=
  match n, s with
  | O, _ => s
  | S n', String _ s' => drop_chars n' s'
  | S _, EmptyString => EmptyString
  end.

(** [s.split(sep)] for a single-character separator: never empty. *)
Fixpoint split (sep : ascii) (s : string) : list string :=
  match s with
  | EmptyString => [EmptyString]
  | String c s' =>
      if Ascii.eqb c sep then EmptyString :: split sep s'
      else match split sep s' with
           | h :: t => String c h :: t
           | [] => [String c EmptyString]
           end
  end.

(** [s.split(sep, 1)[0]] and [s.split(sep)[0]]: the text before the
    first separator, the whole of [s] when there is none. *)
Fixpoint before_first (sep : ascii) (s : string) : string :=
  match s with
  | EmptyString => EmptyString
  | String c s' =>
      if Ascii.eqb c sep then EmptyString else String c (before_first sep s')
  end.

(** [s[s.rfind(sep) + 1:]] and [s[:s.rfind(sep) + 1]] *)
Fixpoint after_last (sep : ascii) (s : string) : string :=
  match s with
  | EmptyString => EmptyString
  | String c s' =>
      if contains (String sep EmptyString) s' then after_last sep s'
      else if Ascii.eqb c sep then s' else s
  end.

Fixpoint upto_last (sep : ascii) (s : string) : string :=
  match s with
  | EmptyString => EmptyString
  | String c s' =>
      if contains (String sep EmptyString) s' then String c (upto_last sep s')
      else if Ascii.eqb c sep then String c EmptyString else EmptyString
  end.

(** [sep.join(l)] *)
Fixpoint join (sep : string) (l : list string) : string :=
  match l with
  | [] => EmptyString
  | [x] => x
  | x :: rest => x +:+ sep +:+ join sep rest
  end.

Fixpoint all_chars (p : ascii -> bool) (s : string) : bool :=
  match s with
  | EmptyString => true
  | String c s' => p c && all_chars p s'
  end.

(** [str(n)] for integers. *)
Definition str_of_nat (n : nat) : string := NilZero.string_of_uint (Nat.to_uint n).
Definition str_of_Z (z : Z) : string := NilZero.string_of_int (Z.to_int z).
Definition str_of_bool (b : bool) : string := if b then "True" else "False".

Definition hex_digit (n : N) : ascii :=
  if (n <? 10)%N then ascii_of_N (48 + n) else ascii_of_N (87 + n).

(** [str.isprintable] on one code point. *)
Definition isprintable (c : ascii) : bool :=
  negb (in_range 0 31 c || in_range 127 160 c || (code c =? 173)%N).

Definition repr_char (quote c : ascii) : string :=
  if Ascii.eqb c quote || Ascii.eqb c "\" then String "\" (String c EmptyString)
  else if (code c =? 9)%N then "\t"
  else if (code c =? 10)%N then "\n"
  else if (code c =? 13)%N then "\r"
  else if isprintable c then String c EmptyString
  else String "\" (String "x" (String (hex_digit (code c / 16))
                                (String (hex_digit (code c mod 16)) EmptyString))).

Fixpoint concat_map (f : ascii -> string) (s : string) : string :=
  match s with
  | EmptyString => EmptyString
  | String c s' => f c +:+ concat_map f s'
  end.

(** [repr(s)]: single quotes unless the text has a single quote and no
    double quote. *)
Definition repr (s : string) : string :=
  let quote : ascii :=
    if contains "'" s && negb (contains (String (ascii_of_N 34) EmptyString) s)
    then ascii_of_N 34 else "'"%char in
  String quote (concat_map (repr_char quote) s) +:+ String quote EmptyString.

End Py.

(** ** [posixpath] *)

Module PosixPath.

(** The loop body of [normpath]: one component against the stack of
    components kept so far. *)
Definition normpath_step (initial_slashes : nat) (new_comps : list string)
    (comp : string) : list string :=
  if String.eqb comp "" || String.eqb comp "." then new_comps
  else if negb (String.eqb comp "..")
          || (Nat.eqb initial_slashes 0 && bool_decide (new_comps = []))
          || match last new_comps with
             | Some top => String.eqb top ".."
             | None => false
             end
  then new_comps ++ [comp]
  else removelast new_comps.

Definition normpath (path : string) : string :=
  if String.eqb path "" then "."
  else
    let initial_slashes :=
      if Py.startswith path "/" then
        if Py.startswith path "//" && negb (Py.startswith path "///")
        then 2%nat else 1%nat
      else 0%nat in
    let comps := Py.split "/" path in
    let new_comps := fold_left (normpath_step initial_slashes) comps [] in
    let path := Py.join "/" new_comps in
    let path := Py.join "" (replicate initial_slashes "/") +:+ path in
    if String.eqb path "" then "." else path.

Definition dirname (p : string) : string :=
  let head := Py.upto_last "/" p in
  if negb (String.eqb head "") && negb (Py.all_chars (Ascii.eqb "/") head)
  then Py.rstrip_char "/" head else head.

Definition basename (p : string) : string := Py.after_last "/" p.

(** [os.path.join(a, b)] with exactly two arguments. *)
Definition join (a b : string) : string :=
  if Py.startswith b "/" then b
  else if String.eqb a "" || Py.endswith a "/" then a +:+ b
  else a +:+ "/" +:+ b.

End PosixPath.

(** ** Path normalisation and the archive reader *)

Definition normalize_str (path : string) : string :=
  let norm := Py.strip (Py.replace_char "\" "/" (PosixPath.normpath path)) in
  if Py.startswith norm "./" then Py.drop_chars 2 norm else norm.

(** [normalize_path]; the argument is optional because the source accepts
    [None]. *)
Definition normalize_path (path : option string) : string :=
  match path with
  | None => ""
  | Some p => normalize_str p
  end.

(** ** Exceptions *)

Inductive exn :=
| KeyError (key : string)
| SyntaxError (msg : string)
| UnboundLocalError (name : string)
| TypeError (msg : string)
| OSError (path : string)
| RuntimeError (msg : string)
| BadZipFile (msg : string)
| NotImplementedError (msg : string).

Inductive result (A : Type) :=
| Returns (a : A)
| Raises (e : exn).
Arguments Returns {A} a.
Arguments Raises {A} e.

(** The exception monad, with stdpp's [x ← m; k] notation. *)
#[global] Instance result_ret : MRet result := fun A a => Returns a.
#[global] Instance result_bind : MBind result := fun A B k m =>
  match m with
  | Returns a => k a
  | Raises e => Raises e
  end.

(** ** Archives *)

(** One member of an opened archive: its name as [ZipInfo.filename] holds
    it, its compression method, its uncompressed content, and what
    [ZipFile.open] or the [read] after it raises for this member, if
    anything: [RuntimeError] for an encrypted member (no password is ever
    given), [NotImplementedError] for a compression method the library
    does not support, [BadZipFile] for a bad header or a failed CRC-32
    check. The central directory lists such a member like any other. *)
Record ZipInfo := mkMember {
  filename : string;
  compress_type : Z;
  payload : string;
  read_error : option exn;
}.

(** A member that reads. *)
Definition mkZipInfo (filename : string) (compress_type : Z) (payload : string)
    : ZipInfo :=
  mkMember filename compress_type payload None.

(** An opened [zipfile.ZipFile]: the members in central-directory order. *)
Definition ZipFile := list ZipInfo.

Definition ZIP_STORED : Z := 0.

Definition namelist (z : ZipFile) : list string := map filename z.

(** [ZipFile.getinfo]: the name index keeps the last member of a name. *)
Fixpoint getinfo (z : ZipFile) (name : string) : option ZipInfo :=
  match z with
  | [] => None
  | e :: rest =>
      match getinfo rest name with
      | Some e' => Some e'
      | None => if String.eqb (filename e) name then Some e else None
      end
  end.

Definition zip_namelist_files (z : ZipFile) : list string :=
  map (fun n => normalize_path (Some n))
      (filter (fun n => negb (Py.endswith n "/")) (namelist z)).

(** [ZipFile.read], that is [ZipFile.open] and the [read] of what it
    returns: [KeyError] for a name the archive has no member of, the
    member's own exception when it cannot be read, its content
    otherwise. *)
Definition zip_read (z : ZipFile) (name : string) : result string :=
  match getinfo z name with
  | Some e =>
      match read_error e with
      | Some x => Raises x
      | None => Returns (payload e)
      end
  | None => Raises (KeyError name)
  end.

(** ** ElementTree *)

(** An [xml.etree.ElementTree.Element]: tag (namespaced tags are spelled
    [{uri}local]), attributes and child elements. The default parser keeps
    neither comments nor processing instructions, so every tag is text. *)
Inductive Element :=
| Elem (tag : string) (attrib : list (string * string)) (children : list Element).

Definition tag (e : Element) : string := let 'Elem t _ _ := e in t.
Definition attrib (e : Element) : list (string * string) := let 'Elem _ a _ := e in a.
Definition children (e : Element) : list Element := let 'Elem _ _ c := e in c.

Module ElementPath.

(** [Element.get(key)] *)
Fixpoint get (a : list (string * string)) (key : string) : option string :=
  match a with
  | [] => None
  | (k, v) :: rest => if String.eqb k key then Some v else get rest key
  end.

(** [Element.iter()]: the element and its descendants in document order. *)
Fixpoint iter (e : Element) : list Element :=
  match e with
  | Elem _ _ cs => e :: flat_map iter cs
  end.

(** What [iter] yields apart from the element itself. *)
Definition descendants (e : Element) : list Element := flat_map iter (children e).

Definition is_wildcard_tag (t : string) : bool :=
  Py.startswith t "{*}" || Py.endswith t "}*".

(** [_prepare_tag]: the element tags a wildcard pattern selects. *)
Definition wildcard_selects (t el_tag : string) : bool :=
  if String.eqb t "{*}*" then true
  else if String.eqb t "{}*" then negb (Py.startswith el_tag "{")
  else if Py.startswith t "{*}" then
    String.eqb el_tag (Py.drop_chars 3 t) || Py.endswith el_tag (Py.drop_chars 2 t)
  else Py.startswith el_tag (String.substring 0 (String.length t - 1) t).

(** The test both [prepare_child] and [prepare_descendant] apply. *)
Definition selects (t el_tag : string) : bool :=
  if is_wildcard_tag t then wildcard_selects t el_tag
  else String.eqb el_tag (if Py.startswith t "{}" then Py.drop_chars 2 t else t).

Definition select_descendant (t : string) (result : list Element) : list Element :=
  flat_map (fun elem => filter (fun e => selects t (tag e)) (descendants elem)) result.

Definition select_child (t : string) (result : list Element) : list Element :=
  flat_map (fun elem => filter (fun e => selects t (tag e)) (children elem)) result.

(** A prefixed name of a path against the prefix map: [None] stands for
    an empty or absent map. *)
Definition qualify (ns : option string) (local : string) : result string :=
  match ns with
  | Some uri => Returns ("{" +:+ uri +:+ "}" +:+ local)
  | None => Raises (SyntaxError "prefix 'opf' not found in prefix map")
  end.

(** [doc.findall('.//opf:OUTER/opf:INNER', ns)] *)
Definition findall_qualified (ns : option string) (outer inner : string)
    (doc : Element) : result (list Element) :=
  o ← qualify ns outer;
  i ← qualify ns inner;
  Returns (select_child i (select_descendant o [doc])).

(** [doc.findall('.//OUTER/INNER')] *)
Definition findall_bare (outer inner : string) (doc : Element) : list Element :=
  select_child inner (select_descendant outer [doc]).

(** [doc.findall('.//{*}NAME')] *)
Definition findall_any_ns (name : string) (doc : Element) : list Element :=
  select_descendant ("{*}" +:+ name) [doc].

End ElementPath.

(** [a or b] on optional text: [a] when it is present and non-empty. *)
Definition or_str (a b : option string) : option string :=
  match a with
  | Some (String _ _) => a
  | _ => b
  end.

(** [x or ''] *)
Definition or_empty (a : option string) : string := default "" a.

(** [if x:] on optional text. *)
Definition truthy (a : option string) : bool :=
  match a with
  | Some (String _ _) => true
  | _ => false
  end.

(** What [parse_opf] returns. *)
Record OPF := mkOPF {
  manifest_paths : list string;
  spine_paths : list string;
  manifest_map : gmap string string;
}.

(** The three accumulators of the manifest loop. *)
Record manifest_acc := mkAcc {
  acc_paths : list string;
  acc_map : gmap string string;
  acc_ids : gmap string string;
}.

Section Parsers.

(** [ET.fromstring]: [None] when it raises [ParseError]. *)
Variable ET_fromstring : string -> option Element.

Definition get_rootfile_from_container (xml_text : string) : option string :=
  match ET_fromstring xml_text with
  | None => None
  | Some doc =>
      match ElementPath.findall_any_ns "rootfile" doc with
      | [] => None
      | r :: _ =>
          let full := or_str (ElementPath.get (attrib r) "full-path")
                             (ElementPath.get (attrib r) "fullPath") in
          if truthy full then Some (normalize_path full) else None
      end
  end.

Definition join_href (base_dir href : string) : string :=
  normalize_path (Some (PosixPath.join base_dir href)).

(** The body of the manifest loop. *)
Definition manifest_step (base_dir : string) (acc : manifest_acc)
    (item : Element) : manifest_acc :=
  let href := or_empty (ElementPath.get (attrib item) "href") in
  let media_type := or_empty (ElementPath.get (attrib item) "media-type") in
  let id_attr := or_empty (ElementPath.get (attrib item) "id") in
  if String.eqb href "" then acc
  else
    let full := join_href base_dir href in
    {| acc_paths := acc_paths acc ++ [full];
       acc_map := if String.eqb media_type "" then acc_map acc
                  else <[full := media_type]> (acc_map acc);
       acc_ids := if String.eqb id_attr "" then acc_ids acc
                  else <[id_attr := full]> (acc_ids acc) |}.

(** The body of the spine loop. *)
Definition spine_step (id_to_href : gmap string string)
    (spine : list string) (it : Element) : list string :=
  let idref := or_empty (ElementPath.get (attrib it) "idref") in
  let full := id_to_href !! idref in
  if truthy full then spine ++ [or_empty full] else spine.

(** [doc.findall('.//opf:A/opf:B', ns) or doc.findall('.//A/B')] *)
Definition findall_or_bare (ns : option string) (outer inner : string)
    (doc : Element) : result (list Element) :=
  found ← ElementPath.findall_qualified ns outer inner doc;
  Returns (match found with
        | [] => ElementPath.findall_bare outer inner doc
        | _ => found
        end).

(** [parse_opf] once the text has been parsed. *)
Definition parse_opf_doc (doc : Element) (base_dir : string) : result OPF :=
  let ns_uri :=
    if Py.contains "}" (tag doc)
    then Py.strip_char "{" (Py.before_first "}" (tag doc)) else "" in
  let ns := if String.eqb ns_uri "" then None else Some ns_uri in
  items ← findall_or_bare ns "manifest" "item" doc;
  let acc := fold_left (manifest_step base_dir) items (mkAcc [] ∅ ∅) in
  refs ← findall_or_bare ns "spine" "itemref" doc;
  Returns {| manifest_paths := acc_paths acc;
          spine_paths := fold_left (spine_step (acc_ids acc)) refs [];
          manifest_map := acc_map acc |}.

Definition parse_opf (opf_text opf_path : string) : result OPF :=
  let base_dir := normalize_path (Some (PosixPath.dirname opf_path)) in
  match ET_fromstring opf_text with
  | None => Returns {| manifest_paths := []; spine_paths := []; manifest_map := ∅ |}
  | Some doc => parse_opf_doc doc base_dir
  end.

End Parsers.

(** ** The regular expressions of [find_html_issues]

    Each pattern is written out as the matcher it denotes. Every starred
    or plussed class below excludes the character that must follow it, so
    the greedy match is the only one and no backtracking is modelled. *)

Module Re.

Fixpoint take_while (p : ascii -> bool) (s : string) : string :=
  match s with
  | EmptyString => EmptyString
  | String c s' => if p c then String c (take_while p s') else EmptyString
  end.

Fixpoint drop_while (p : ascii -> bool) (s : string) : string :=
  match s with
  | EmptyString => EmptyString
  | String c s' => if p c then drop_while p s' else s
  end.

(** [re.search]: some suffix of the text matches at its start. *)
Fixpoint search (here : string -> bool) (s : string) : bool :=
  here s ||
  match s with
  | EmptyString => false
  | String _ s' => search here s'
  end.

(** [P+;] at the start of [s]. *)
Definition run_then_semicolon (p : ascii -> bool) (s : string) : bool :=
  match s with
  | EmptyString => false
  | String c s' => p c && Py.startswith (drop_while p s') ";"
  end.

(** [#\d+;|#x[0-9A-Fa-f]+;|[A-Za-z][A-Za-z0-9]+;] at the start of [s]. *)
Definition char_reference (s : string) : bool :=
  match s with
  | EmptyString => false
  | String c s' =>
      if Ascii.eqb c "#" then
        run_then_semicolon Py.is_digit s'
        || match s' with
           | String x s'' => Ascii.eqb x "x" && run_then_semicolon Py.is_hex_digit s''
           | EmptyString => false
           end
      else
        Py.is_ascii_alpha c
        && run_then_semicolon (fun d => Py.is_ascii_alpha d || Py.is_digit d) s'
  end.

(** [re.findall(r'&(?!#\d+;|#x[0-9A-Fa-f]+;|[A-Za-z][A-Za-z0-9]+;)', text)] *)
Fixpoint bad_amp (text : string) : list string :=
  match text with
  | EmptyString => []
  | String c rest =>
      if Ascii.eqb c "&" && negb (char_reference rest)
      then "&" :: bad_amp rest else bad_amp rest
  end.

(** [<NAME\b[^>]*(?<!/)>] under [re.IGNORECASE], at the start of [s];
    [name] is given in lower case. *)
Definition unclosed_tag_here (name : string) (s : string) : bool :=
  String.prefix ("<" +:+ name) (Py.lower s) &&
  match Py.drop_chars (S (String.length name)) s with
  | EmptyString => false
  | String c _ as rest =>
      negb (Py.is_word c) && Py.contains ">" rest
      && negb (Py.endswith (Py.before_first ">" rest) "/")
  end.

Definition unclosed_tag (name text : string) : bool :=
  search (unclosed_tag_here name) text.

Definition is_quote (c : ascii) : bool :=
  (Py.code c =? 34)%N || (Py.code c =? 39)%N.

(** The part of the attribute pattern after [src=] or [href=]: a quote,
    one or more characters that are not quotes, a quote. Gives group 1
    and the number of characters matched. *)
Definition quoted_value (s : string) : option (string * nat) :=
  match s with
  | EmptyString => None
  | String q rest =>
      if is_quote q then
        let v := take_while (fun c => negb (is_quote c)) rest in
        match v, drop_while (fun c => negb (is_quote c)) rest with
        | String _ _, String _ _ => Some (v, 2 + String.length v)%nat
        | _, _ => None
        end
      else None
  end.

(** [(?:src|href)=Q([^Q]+)Q] under [re.IGNORECASE], at the start of
    [s], where [Q] stands for the class of the two quote characters. *)
Definition attr_here (s : string) : option (string * nat) :=
  let l := Py.lower s in
  if String.prefix "src=" l then
    '(v, n) ← quoted_value (Py.drop_chars 4 s); Some (v, 4 + n)%nat
  else if String.prefix "href=" l then
    '(v, n) ← quoted_value (Py.drop_chars 5 s); Some (v, 5 + n)%nat
  else None.

(** [re.finditer] of the attribute pattern, as the list of its group 1:
    matches do not overlap, so [skip] characters of a match just found
    are passed over before the next attempt. *)
Fixpoint attr_values_from (skip : nat) (s : string) : list string :=
  match s with
  | EmptyString => []
  | String _ s' =>
      match skip with
      | S k => attr_values_from k s'
      | O =>
          match attr_here s with
          | Some (v, n) => v :: attr_values_from (n - 1) s'
          | None => attr_values_from 0 s'
          end
      end
  end.

Definition attr_values (text : string) : list string := attr_values_from 0 text.

Definition scheme_char (c : ascii) : bool :=
  Py.is_ascii_alpha c || Py.is_digit c
  || Ascii.eqb c "+" || Ascii.eqb c "." || Ascii.eqb c "-".

(** [re.match(r'^[a-zA-Z][a-zA-Z0-9+.-]*:', href)] *)
Definition has_scheme (href : string) : bool :=
  match href with
  | EmptyString => false
  | String c s' => Py.is_ascii_alpha c && Py.startswith (drop_while scheme_char s') ":"
  end.

End Re.

(** ** The markup validator *)

Definition dq : string := String (ascii_of_N 34) EmptyString.

Definition msg_xmlns : string := "missing xmlns on <html>".
Definition msg_amp : string := "unescaped & found".
Definition msg_unclosed (name : string) : string :=
  "xhtml <" +:+ name +:+ "> not self-closed".
Definition msg_missing_resource (full : string) : string :=
  "missing referenced resource: " +:+ full.
Definition msg_toc : string :=
  "toc.xhtml: missing <nav epub:type=" +:+ dq +:+ "toc" +:+ dq
  +:+ "> or role=" +:+ dq +:+ "doc-toc" +:+ dq.

Definition epub_type_toc : string := "epub:type=" +:+ dq +:+ "toc" +:+ dq.
Definition role_doc_toc : string := "role=" +:+ dq +:+ "doc-toc" +:+ dq.

(** The [continue] test of the resource loop, on the stripped value. *)
Definition skipped_ref (href : string) : bool :=
  String.eqb href "" || Py.startswith href "#" || Re.has_scheme href.

Definition resolve_ref (base_dir href : string) : string :=
  normalize_path (Some (PosixPath.join base_dir href)).

(** The body of the resource loop for one match [m] of the pattern. *)
Definition check_ref (base_dir : string) (zip_names : gset string)
    (m : string) : list string :=
  let href := Py.strip m in
  if skipped_ref href then []
  else
    let full := resolve_ref base_dir href in
    if bool_decide (full ∈ zip_names) then [] else [msg_missing_resource full].

Definition xmlns_issues (lower : string) (is_xhtml : bool) : list string :=
  if is_xhtml && Py.contains "<html" lower
     && negb (Py.contains "xmlns=" (Py.before_first ">" lower))
  then [msg_xmlns] else [].

Definition amp_issues (text : string) : list string :=
  match Re.bad_amp text with
  | [] => []
  | _ :: _ => [msg_amp]
  end.

Definition void_issues (text : string) (is_xhtml : bool) : list string :=
  if is_xhtml then
    (if Re.unclosed_tag "img" text then [msg_unclosed "img"] else [])
    ++ (if Re.unclosed_tag "br" text then [msg_unclosed "br"] else [])
    ++ (if Re.unclosed_tag "hr" text then [msg_unclosed "hr"] else [])
  else [].

Definition ref_issues (path text : string) (zip_names : gset string) : list string :=
  let base_dir := normalize_path (Some (PosixPath.dirname path)) in
  flat_map (check_ref base_dir zip_names) (Re.attr_values text).

Definition toc_issues (path lower : string) : list string :=
  if Py.startswith (Py.lower (PosixPath.basename path)) "toc" then
    if negb (Py.contains "nav" lower)
       || (negb (Py.contains epub_type_toc lower)
           && negb (Py.contains role_doc_toc lower))
    then [msg_toc] else []
  else [].

Definition find_html_issues (path text : string) (is_xhtml : bool)
    (zip_names : gset string) : list string :=
  let lower := Py.lower text in
  xmlns_issues lower is_xhtml
  ++ amp_issues text
  ++ void_issues text is_xhtml
  ++ ref_issues path text zip_names
  ++ toc_issues path lower.

(** ** [hashlib.sha1] *)

Module SHA1.

Definition w32 (x : N) : N := (x mod 4294967296)%N.

Definition rotl (n x : N) : N :=
  w32 (N.lor (N.shiftl x n) (N.shiftr x (32 - n))).

Definition f (t : nat) (b c d : N) : N :=
  if (t <? 20)%nat then N.lor (N.land b c) (N.land (N.lxor b 4294967295) d)
  else if (t <? 40)%nat then N.lxor b (N.lxor c d)
  else if (t <? 60)%nat then N.lor (N.lor (N.land b c) (N.land b d)) (N.land c d)
  else N.lxor b (N.lxor c d).

Definition k (t : nat) : N :=
  if (t <? 20)%nat then 1518500249%N
  else if (t <? 40)%nat then 1859775393%N
  else if (t <? 60)%nat then 2400959708%N
  else 3395469782%N.

(** Big-endian octets of [x], [n] of them. *)
Fixpoint be_bytes (n : nat) (x : N) : list N :=
  match n with
  | O => []
  | S n' => be_bytes n' (x / 256) ++ [(x mod 256)%N]
  end.

Definition be_word (bs : list N) : N :=
  fold_left (fun acc b => (acc * 256 + b)%N) bs 0%N.

(** The message with its padding: a one bit, zeros, the bit length. *)
Definition pad (msg : list N) : list N :=
  let len := length msg in
  let zeros := ((64 - (len + 9) mod 64) mod 64)%nat in
  msg ++ [128%N] ++ replicate zeros 0%N ++ be_bytes 8 (N.of_nat (8 * len)).

Fixpoint chunks (fuel size : nat) (l : list N) : list (list N) :=
  match fuel with
  | O => []
  | S fuel' =>
      match l with
      | [] => []
      | _ => take size l :: chunks fuel' size (drop size l)
      end
  end.

Definition word_at (w : list N) (i : nat) : N := nth i w 0%N.

(** The message schedule: sixteen words of the block, extended to eighty. *)
Definition schedule (block : list N) : list N :=
  fold_left
    (fun (w : list N) (t : nat) =>
       (w ++ [rotl 1 (N.lxor (N.lxor (word_at w (t - 3)) (word_at w (t - 8)))
                             (N.lxor (word_at w (t - 14)) (word_at w (t - 16))))])%list)
    (seq 16 64)
    (map be_word (chunks 16 4 block)).

Definition state : Type := N * N * N * N * N.

Definition round (w : list N) (s : state) (t : nat) : state :=
  let '(a, b, c, d, e) := s in
  (w32 (rotl 5 a + f t b c d + e + k t + word_at w t), a, rotl 30 b, c, d).

Definition compress (h : state) (block : list N) : state :=
  let '(a, b, c, d, e) := fold_left (round (schedule block)) (seq 0 80) h in
  let '(h0, h1, h2, h3, h4) := h in
  (w32 (h0 + a), w32 (h1 + b), w32 (h2 + c), w32 (h3 + d), w32 (h4 + e)).

Definition init : state :=
  (1732584193, 4023233417, 2562383102, 271733878, 3285377520)%N.

Fixpoint octets (s : string) : list N :=
  match s with
  | EmptyString => []
  | String c s' => N_of_ascii c :: octets s'
  end.

Fixpoint hex (l : list N) : string :=
  match l with
  | [] => EmptyString
  | b :: rest => String (Py.hex_digit (b / 16)) (String (Py.hex_digit (b mod 16)) (hex rest))
  end.

(** [hashlib.sha1(data).hexdigest()] *)
Definition hexdigest (data : string) : string :=
  let padded := pad (octets data) in
  let '(h0, h1, h2, h3, h4) :=
    fold_left compress (chunks (length padded) 64 padded) init in
  hex (flat_map (be_bytes 4) [h0; h1; h2; h3; h4]).

End SHA1.

(** ** The stages of [compare_epub] *)

(** Python orders [str] by code point. *)
Definition str_le (a b : string) : Prop := String.leb a b.

#[global] Instance str_le_dec : RelDecision str_le.
Proof. intros a b. unfold str_le. apply _. Defined.

(** [sorted(s)] for a set [s]. *)
Definition sorted (s : gset string) : list string := merge_sort str_le (elements s).

(** [', '.join(l[:cap]) + (' ...' if len(l) > cap else '')] *)
Definition show_capped (cap : nat) (l : list string) : string :=
  Py.join ", " (take cap l) +:+ (if (cap <? length l)%nat then " ..." else "").

(** A header line and the capped list below it, for a non-empty list. *)
Definition listing (header : string) (cap : nat) (l : list string) : list string :=
  match l with
  | [] => []
  | _ :: _ => [header; show_capped cap l]
  end.

(** [missing] and [extra] of two path sets. *)
Definition file_set_diff (set_o set_t : gset string) : list string * list string :=
  (sorted (set_o ∖ set_t), sorted (set_t ∖ set_o)).

Definition file_set_lines (missing extra : list string) : list string :=
  listing "Missing in translated:" 50 missing
  ++ listing "Extra in translated:" 50 extra.

(** [data.decode('ascii', errors='ignore')] *)
Fixpoint decode_ascii_ignore (data : string) : string :=
  match data with
  | EmptyString => EmptyString
  | String c rest =>
      if (Py.code c <? 128)%N then String c (decode_ascii_ignore rest)
      else decode_ascii_ignore rest
  end.

(** [read_text_from_zip], the codec given as its decoding function. *)
Definition read_text_from_zip (z : ZipFile) (name : string)
    (decode : string -> string) : result string :=
  data ← zip_read z name;
  Returns (decode data).

Definition zip_getinfo (z : ZipFile) (name : string) : result ZipInfo :=
  match getinfo z name with
  | Some e => Returns e
  | None => Raises (KeyError name)
  end.

Definition mimetype_expected : string := "application/epub+zip".

Definition is_first (names : list string) : bool :=
  match names with
  | n :: _ => String.eqb n "mimetype"
  | [] => false
  end.

Definition line_missing_mimetype (label : string) : string :=
  "[" +:+ label +:+ "] missing mimetype file".
Definition line_mimetype_info (label content : string) (first : bool) (compress : Z) : string :=
  "[" +:+ label +:+ "] mimetype content: " +:+ Py.repr content
  +:+ ", first=" +:+ Py.str_of_bool first
  +:+ ", compress_type=" +:+ Py.str_of_Z compress.
Definition line_content_invalid (label : string) : string :=
  "[" +:+ label +:+ "] ERROR: mimetype content invalid".
Definition line_not_first (label : string) : string :=
  "[" +:+ label +:+ "] ERROR: mimetype is not first".
Definition line_not_stored (label : string) : string :=
  "[" +:+ label +:+ "] ERROR: mimetype must be STORED (no compression)".

(** One round of the mimetype loop. *)
Definition mimetype_check (label : string) (zf : ZipFile) (names : list string)
    : result (list string) :=
  if bool_decide ("mimetype" ∈ names) then
    info ← zip_getinfo zf "mimetype";
    text ← read_text_from_zip zf "mimetype" decode_ascii_ignore;
    let content := Py.strip text in
    let first := is_first names in
    let compress := compress_type info in
    Returns ([line_mimetype_info label content first compress]
          ++ (if negb (String.eqb content mimetype_expected)
              then [line_content_invalid label] else [])
          ++ (if negb first then [line_not_first label] else [])
          ++ (if negb (Z.eqb compress ZIP_STORED)
              then [line_not_stored label] else []))
  else Returns [line_missing_mimetype label].

(** [FIRST SPINE DIFF INDEX]: the loop over [range(min_len)] with its
    [break]. *)
Fixpoint spine_scan (spine_o spine_t : list string) (range : list nat) : Z :=
  match range with
  | [] => (-1)%Z
  | i :: rest =>
      if bool_decide (spine_o !! i ≠ spine_t !! i) then Z.of_nat i
      else spine_scan spine_o spine_t rest
  end.

Definition first_spine_diff (spine_o spine_t : list string) : Z :=
  let min_len := (length spine_o `min` length spine_t)%nat in
  spine_scan spine_o spine_t (seq 0 min_len).

(** [opf['manifest_map'].get(p, '')] *)
Definition media_type (o : OPF) (p : string) : string :=
  default "" (manifest_map o !! p).

(** The names the manifest block binds and the summary reads back. *)
Record opf_locals := mkLocals {
  man_missing : list string;
  man_extra : list string;
  diff_idx : Z;
}.

(** The accumulators of the content loop. *)
Record diff_acc := mkDiff {
  changed : list string;
  non_html_changed : list string;
  changed_html_paths : list string;
  changed_blobs_t : gmap string string;
}.

Definition has_markup_extension (p : string) : bool :=
  Py.endswith (Py.lower p) ".html" || Py.endswith (Py.lower p) ".xhtml".

Definition change_line (p b_o b_t : string) : string :=
  p +:+ "  (" +:+ Py.str_of_nat (String.length b_o) +:+ " -> "
  +:+ Py.str_of_nat (String.length b_t) +:+ " bytes)  "
  +:+ String.substring 0 10 (SHA1.hexdigest b_o) +:+ " -> "
  +:+ String.substring 0 10 (SHA1.hexdigest b_t).

(** What the loop body does with the two contents it has read. *)
Definition record_change (acc : diff_acc) (p b_o b_t : string) : diff_acc :=
  if String.eqb b_o b_t then acc
  else
    let changed' := changed acc ++ [change_line p b_o b_t] in
    if negb (has_markup_extension p) && negb (String.eqb p "mimetype") then
      {| changed := changed';
         non_html_changed := non_html_changed acc ++ [p];
         changed_html_paths := changed_html_paths acc;
         changed_blobs_t := changed_blobs_t acc |}
    else
      {| changed := changed';
         non_html_changed := non_html_changed acc;
         changed_html_paths := changed_html_paths acc ++ [p];
         changed_blobs_t := <[p := b_t]> (changed_blobs_t acc) |}.

(** [try: ... except KeyError: continue] around one read: [None] stands
    for the [continue]; any other exception goes on. *)
Definition read_or_continue (z : ZipFile) (p : string) : result (option string) :=
  match zip_read z p with
  | Returns b => Returns (Some b)
  | Raises (KeyError _) => Returns None
  | Raises e => Raises e
  end.

(** The body of the content loop: the original is read first, and the
    translation only if that read returned. *)
Definition content_step (zo zt : ZipFile) (acc : diff_acc) (p : string)
    : result diff_acc :=
  r_o ← read_or_continue zo p;
  match r_o with
  | None => Returns acc
  | Some b_o =>
      r_t ← read_or_continue zt p;
      match r_t with
      | None => Returns acc
      | Some b_t => Returns (record_change acc p b_o b_t)
      end
  end.

(** A [for] loop whose body may raise: the state after the last round, or
    the first exception. *)
Fixpoint for_each {S A} (body : S -> A -> result S) (l : list A) (s : S) : result S :=
  match l with
  | [] => Returns s
  | a :: rest => s' ← body s a; for_each body rest s'
  end.

Definition content_diff (zo zt : ZipFile) (common_all : list string)
    : result diff_acc :=
  for_each (content_step zo zt) common_all (mkDiff [] [] [] ∅).

Definition content_lines (d : diff_acc) : list string :=
  match changed d with
  | [] => ["no content diffs"]
  | _ :: _ => take 50 (changed d)
  end.

(** [str(x)] of an optional text. *)
Definition str_of_opt (a : option string) : string := default "None" a.

(** Reading a local name: [None] is an unbound one. *)
Definition read_local {A} (name : string) (v : option A) : result A :=
  match v with
  | Some a => Returns a
  | None => Raises (UnboundLocalError name)
  end.

Definition nonempty {A} (l : list A) : bool :=
  match l with
  | [] => false
  | _ :: _ => true
  end.

(** [sum(1 for p in (set(...) & set(...)) if ... != ...)] *)
Definition mt_diffs (opf_o opf_t : OPF) : nat :=
  let man_o : gset string := list_to_set (manifest_paths opf_o) in
  let man_t : gset string := list_to_set (manifest_paths opf_t) in
  length (filter (fun p => negb (String.eqb (media_type opf_o p) (media_type opf_t p)))
                 (elements (man_o ∩ man_t))).

Definition line_hint : string :=
  "Structures and non-HTML content identical. If Apple Books fails, likely malformed HTML/XHTML content.".

(** The lines the manifest block of the summary adds. *)
Definition summary_opf_lines (opf_o opf_t : OPF) (l : opf_locals) : list string :=
  (if nonempty (man_missing l) || nonempty (man_extra l)
   then ["OPF manifest differs."] else [])
  ++ (if negb (Nat.eqb (mt_diffs opf_o opf_t) 0)
      then ["Media-type differs for " +:+ Py.str_of_nat (mt_diffs opf_o opf_t)
            +:+ " file(s)."] else [])
  ++ (if negb (Z.eqb (diff_idx l) (-1))
         || negb (Nat.eqb (length (spine_paths opf_o)) (length (spine_paths opf_t)))
      then ["OPF spine order/length differs."] else []).

(** The third conjunct of the closing condition,
    [not opf_o or (...) and (mt_diffs if opf_o and opf_t else 0) == 0],
    evaluated left to right. *)
Definition opf_clean (opf_o opf_t : option OPF) (locals : option opf_locals)
    : result bool :=
  match opf_o with
  | None => Returns true
  | Some o =>
      l ← read_local "man_missing" locals;
      if nonempty (man_missing l) || nonempty (man_extra l)
         || negb (Z.eqb (diff_idx l) (-1))
      then Returns false
      else
        match opf_t with
        | None => Raises (TypeError "'NoneType' object is not subscriptable")
        | Some t =>
            Returns (Nat.eqb (length (spine_paths o)) (length (spine_paths t))
                  && Nat.eqb (mt_diffs o t) 0)
        end
  end.

(** The closing condition with its short-circuits. *)
Definition hint_condition (missing extra : list string)
    (opf_o_rel opf_t_rel : option string) (opf_o opf_t : option OPF)
    (locals : option opf_locals) (non_html_changed : list string) : result bool :=
  if nonempty missing || nonempty extra then Returns false
  else if negb (bool_decide (opf_o_rel = opf_t_rel)) then Returns false
  else
    c ← opf_clean opf_o opf_t locals;
    Returns (c && negb (nonempty non_html_changed)).

(** The summary section. *)
Definition summary (missing extra : list string)
    (opf_o_rel opf_t_rel : option string) (opf_o opf_t : option OPF)
    (locals : option opf_locals) (non_html_changed html_issues : list string)
    : result (list string) :=
  opf_lines ← match opf_o, opf_t with
              | Some o, Some t =>
                  l ← read_local "man_missing" locals;
                  Returns (summary_opf_lines o t l)
              | _, _ => Returns []
              end;
  emit ← hint_condition missing extra opf_o_rel opf_t_rel opf_o opf_t locals
                        non_html_changed;
  Returns (["== SUMMARY =="]
        ++ (if nonempty missing || nonempty extra
            then ["Files set differs (missing/extra)."] else [])
        ++ (if negb (bool_decide (opf_o_rel = opf_t_rel))
            then ["OPF rootfile path differs."] else [])
        ++ opf_lines
        ++ (if nonempty non_html_changed
            then ["Non-HTML changed files (sample): "
                  +:+ Py.join ", " (take 10 non_html_changed)] else [])
        ++ (if nonempty html_issues
            then ["HTML/XHTML issues detected (see above)."] else [])
        ++ (if emit : bool then [line_hint] else [])).

Section Engine.

(** [ET.fromstring]: [None] when it raises. *)
Variable ET_fromstring : string -> option Element.

(** [data.decode('utf-8', errors='replace')] *)
Variable decode_utf8 : string -> string.

(** The nested function [extract_opf]: container text, rootfile path and
    parsed package document. *)
Definition extract_opf (zf : ZipFile)
    : result (option string * option string * option OPF) :=
  if bool_decide ("META-INF/container.xml" ∈ namelist zf) then
    ctext ← read_text_from_zip zf "META-INF/container.xml" decode_utf8;
    let opf_rel := get_rootfile_from_container ET_fromstring ctext in
    if negb (truthy opf_rel) || negb (bool_decide (or_empty opf_rel ∈ namelist zf))
    then Returns (Some ctext, opf_rel, None)
    else
      opf_text ← read_text_from_zip zf (or_empty opf_rel) decode_utf8;
      parsed ← parse_opf ET_fromstring opf_text (or_empty opf_rel);
      Returns (Some ctext, opf_rel, Some parsed)
  else Returns (None, None, None).

(** The [try] of the well-formedness sample: any exception counts. *)
Definition well_formed (zt : ZipFile) (p : string) : bool :=
  match read_text_from_zip zt p decode_utf8 with
  | Returns text_t => bool_decide (is_Some (ET_fromstring text_t))
  | Raises _ => false
  end.

(** The block under [if opf_o and opf_t], with the names it binds. The two
    loops over [man_o] and [man_t] visit a set, in an order the interpreter
    chooses; [elements] stands for that order. *)
Definition manifest_block (zt : ZipFile) (set_o set_t : gset string)
    (opf_o opf_t : OPF) : list string * opf_locals :=
  let man_o : gset string := list_to_set (manifest_paths opf_o) in
  let man_t : gset string := list_to_set (manifest_paths opf_t) in
  let man_missing := sorted (man_o ∖ man_t) in
  let man_extra := sorted (man_t ∖ man_o) in
  let common := sorted (man_o ∩ man_t) in
  let spine_o := spine_paths opf_o in
  let spine_t := spine_paths opf_t in
  let diff_idx := first_spine_diff spine_o spine_t in
  let xhtml_common :=
    filter (fun p => bool_decide (manifest_map opf_o !! p = Some "application/xhtml+xml"))
           common in
  let bad_xhtml := filter (fun p => negb (well_formed zt p)) (take 50 xhtml_common) in
  (listing "Manifest missing in translated:" 50 man_missing
   ++ listing "Manifest extra in translated:" 50 man_extra
   ++ flat_map (fun p =>
                  if String.eqb (media_type opf_o p) (media_type opf_t p) then []
                  else ["MEDIA-TYPE DIFF: " +:+ p +:+ ": " +:+ media_type opf_o p
                        +:+ " vs " +:+ media_type opf_t p])
               common
   ++ ["SPINE length: " +:+ Py.str_of_nat (length spine_o) +:+ " vs "
       +:+ Py.str_of_nat (length spine_t);
       "FIRST SPINE DIFF INDEX: " +:+ Py.str_of_Z diff_idx]
   ++ flat_map (fun p => if bool_decide (p ∈ set_o) then []
                         else ["ORIG manifest references missing file in zip: " +:+ p])
               (elements man_o)
   ++ flat_map (fun p => if bool_decide (p ∈ set_t) then []
                         else ["TRAN manifest references missing file in zip: " +:+ p])
               (elements man_t)
   ++ listing "Translated XHTML not well-formed (sample):" 20 bad_xhtml,
   mkLocals man_missing man_extra diff_idx).

(** The findings of one changed document, prefixed with its path. *)
Definition document_issues (zip_names : gset string) (blobs : gmap string string)
    (p : string) : result (list string) :=
  blob ← match blobs !! p with
         | Some b => Returns b
         | None => Raises (KeyError p)
         end;
  let text_t := decode_utf8 blob in
  let is_xhtml := Py.endswith (Py.lower p) ".xhtml" in
  Returns (map (fun msg => p +:+ ": " +:+ msg)
            (find_html_issues p text_t is_xhtml zip_names)).

Fixpoint html_issues_of (zip_names : gset string) (blobs : gmap string string)
    (paths : list string) : result (list string) :=
  match paths with
  | [] => Returns []
  | p :: rest =>
      here ← document_issues zip_names blobs p;
      more ← html_issues_of zip_names blobs rest;
      Returns (here ++ more)
  end.

(** The body of [compare_epub] under its [with]: the report lines. *)
Definition report_lines (orig_path trans_path : string) (zo zt : ZipFile)
    : result (list string) :=
  let names_o := zip_namelist_files zo in
  let names_t := zip_namelist_files zt in
  let set_o : gset string := list_to_set names_o in
  let set_t : gset string := list_to_set names_t in
  let '(missing, extra) := file_set_diff set_o set_t in
  mime_o ← mimetype_check "orig" zo names_o;
  mime_t ← mimetype_check "tran" zt names_t;
  '(c_o, opf_o_rel, opf_o) ← extract_opf zo;
  '(c_t, opf_t_rel, opf_t) ← extract_opf zt;
  let '(manifest_lines, locals) :=
    match opf_o, opf_t with
    | Some o, Some t =>
        let '(lines, l) := manifest_block zt set_o set_t o t in (lines, Some l)
    | _, _ => ([], None)
    end in
  let common_all := sorted (set_o ∩ set_t) in
  d ← content_diff zo zt common_all;
  html_issues ← html_issues_of set_t (changed_blobs_t d) (take 20 (changed_html_paths d));
  summary_lines ← summary missing extra opf_o_rel opf_t_rel opf_o opf_t locals
                          (non_html_changed d) html_issues;
  Returns (["ORIG: " +:+ orig_path; "TRAN: " +:+ trans_path;
         "== FILE COUNTS ==";
         "orig files: " +:+ Py.str_of_nat (length names_o);
         "tran files: " +:+ Py.str_of_nat (length names_t)]
        ++ file_set_lines missing extra
        ++ mime_o ++ mime_t
        ++ ["== OPF PATHS ==";
            "orig OPF: " +:+ str_of_opt opf_o_rel;
            "tran OPF: " +:+ str_of_opt opf_t_rel]
        ++ (if negb (bool_decide (opf_o_rel = opf_t_rel))
            then ["ERROR: OPF path differs between original and translated"] else [])
        ++ manifest_lines
        ++ ["== COMMON FILE CONTENT DIFF (first 50) =="]
        ++ content_lines d
        ++ (if nonempty html_issues
            then "== XHTML/HTML ISSUES (translated, sample) ==" :: take 50 html_issues
            else [])
        ++ summary_lines).

(** [compare_epub]: [fs] gives the archive behind each location that
    opens as one. For any other location the constructor of [ZipFile]
    raises: [FileNotFoundError], an [OSError], for a missing file, and
    [BadZipFile] for a file that is no archive. [fs] does not tell the two
    apart and the first stands for both. *)
Definition compare_epub (fs : string -> option ZipFile)
    (orig_path trans_path : string) : result string :=
  match fs orig_path, fs trans_path with
  | Some zo, Some zt =>
      lines ← report_lines orig_path trans_path zo zt;
      Returns (Py.join (String (ascii_of_N 10) EmptyString) lines)
  | None, _ => Raises (OSError orig_path)
  | _, None => Raises (OSError trans_path)
  end.

End Engine.

(** ** Auto-detection and the entry point *)

(** ['_ua' in os.path.basename(f)] *)
Definition is_translation (f : string) : bool :=
  Py.contains "_ua" (PosixPath.basename f).

(** The body of the detection loop on the pair [(orig, trans)]. *)
Definition auto_detect_step (acc : option string * option string) (f : string)
    : option string * option string :=
  if is_translation f then (fst acc, Some f)
  else (match fst acc with
        | None => Some f
        | Some o => Some o
        end, snd acc).

(** The candidate list: the [.epub] entries of the directory, joined to
    its name. *)
Definition epub_files (entries : list string) : list string :=
  map (PosixPath.join "temp")
      (filter (fun f => Py.endswith (Py.lower f) ".epub") entries).

(** [_auto_detect_from_temp]; [temp] is the listing of the directory
    [temp], [None] when there is no such directory. *)
Definition _auto_detect_from_temp (temp : option (list string))
    : option string * option string :=
  match temp with
  | None => (None, None)
  | Some entries =>
      match epub_files entries with
      | [] => (None, None)
      | files => fold_left auto_detect_step files (None, None)
      end
  end.

(** How a run of [main] ends. *)
Inductive ending :=
| Completed
| SystemExit (status : Z)
| Uncaught (e : exn).

(** What a run of [main] leaves behind: the arguments of its [print]
    calls, the text saved as [temp/compare_report.txt] if any, and the way
    it ended. *)
Record session := mkSession {
  stdout : list string;
  saved : option string;
  ended : ending;
}.

Definition usage_lines : list string :=
  ["Usage: python compare_epub.py <original.epub> <translated.epub>";
   "Or place files in ./temp as <name>.epub and <name>_ua*.epub and run without args."].

Section Main.

Variable ET_fromstring : string -> option Element.
Variable decode_utf8 : string -> string.

(** The part of [main] after the two paths are chosen; [writable] tells
    whether creating the directory and writing the file succeed. *)
Definition run_compare (fs : string -> option ZipFile) (writable : bool)
    (printed : list string) (orig trans : string) : session :=
  match compare_epub ET_fromstring decode_utf8 fs orig trans with
  | Raises e => mkSession printed None (Uncaught e)
  | Returns report =>
      mkSession (printed ++ [report]) (if writable then Some report else None) Completed
  end.

Definition main (argv : list string) (temp : option (list string))
    (fs : string -> option ZipFile) (writable : bool) : session :=
  if (3 <=? length argv)%nat then
    run_compare fs writable [] (nth 1 argv "") (nth 2 argv "")
  else
    let '(orig, trans) := _auto_detect_from_temp temp in
    if negb (truthy orig) || negb (truthy trans) then
      mkSession usage_lines None (SystemExit 2)
    else
      run_compare fs writable
        ["Auto-detected files in temp:";
         "  ORIG: " +:+ or_empty orig;
         "  TRAN: " +:+ or_empty trans]
        (or_empty orig) (or_empty trans).

End Main.

(** ** Predicates used in the statements *)

(** Both archives hold [p] and the two payloads differ. *)
Definition content_changed (zo zt : ZipFile) (p : string) : Prop :=
  ∃ b_o b_t, zip_read zo p = Returns b_o ∧ zip_read zt p = Returns b_t ∧ b_o ≠ b_t.

(** What the closing condition asks of the two package documents: no
    original one, or both parsed and nothing in the manifest, media types
    or spine apart. *)
Definition structures_clean (opf_o opf_t : option OPF)
    (locals : option opf_locals) : Prop :=
  opf_o = None
  ∨ ∃ o t l, opf_o = Some o ∧ opf_t = Some t ∧ locals = Some l
      ∧ man_missing l = [] ∧ man_extra l = [] ∧ diff_idx l = (-1)%Z
      ∧ length (spine_paths o) = length (spine_paths t)
      ∧ mt_diffs o t = 0.

Definition not_backslash (c : ascii) : bool := negb (Ascii.eqb c "\").

(** The invariant of the manifest loop: every identifier recorded so far
    points at a recorded manifest path. *)
Definition ids_in_paths (acc : manifest_acc) : Prop :=
  ∀ k v, acc_ids acc !! k = Some v → v ∈ acc_paths acc.

(** The index [d] of a first difference moved past [n] common leading
    entries; [-1], for no difference, stays. *)
Definition shift_index (n : nat) (d : Z) : Z :=
  if (d =? -1)%Z then (-1)%Z else (Z.of_nat n + d)%Z.

(** The invariant of the content loop: every report line belongs to one of
    the two buckets, and the blobs kept are those of the markup bucket, as
    the translated archive holds them. *)
Definition diff_invariant (zt : ZipFile) (acc : diff_acc) : Prop :=
  length (changed acc) = length (non_html_changed acc) + length (changed_html_paths acc)
  ∧ ∀ p b, changed_blobs_t acc !! p = Some b ↔
           p ∈ changed_html_paths acc ∧ zip_read zt p = Returns b.

(** [ns_uri] of [parse_opf]: the namespace of the root element, empty when
    its tag has none. *)
Definition root_namespace (doc : Element) : string :=
  if Py.contains "}" (tag doc)
  then Py.strip_char "{" (Py.before_first "}" (tag doc)) else "".

(** The invariant of the manifest loop for the media-type map: its keys
    are recorded manifest paths and its values are not empty. *)
Definition map_in_paths (acc : manifest_acc) : Prop :=
  ∀ p mt, acc_map acc !! p = Some mt → p ∈ acc_paths acc ∧ mt ≠ "".

(** The names of the manifest block are bound exactly when the block ran,
    that is when both package documents were parsed. *)
Definition locals_bound (opf_o opf_t : option OPF) (locals : option opf_locals) : Prop :=
  is_Some locals ↔ is_Some opf_o ∧ is_Some opf_t.

(** An archive all of whose members can be read. *)
Definition readable (z : ZipFile) : Prop :=
  ∀ m, m ∈ z → read_error m = None.

(** An archive whose member names are files already in normal form. *)
Definition plain_names (z : ZipFile) : Prop :=
  ∀ n, n ∈ namelist z → Py.endswith n "/" = false ∧ normalize_path (Some n) = n.

(** If the container of [z] names a member that parses, the root element
    of that member has a namespace. *)
Definition package_root_ok (ET_fromstring : string → option Element)
    (decode_utf8 : string → string) (z : ZipFile) : Prop :=
  ∀ ctext rel e doc,
    zip_read z "META-INF/container.xml" = Returns ctext →
    get_rootfile_from_container ET_fromstring (decode_utf8 ctext) = Some rel →
    getinfo z rel = Some e →
    ET_fromstring (decode_utf8 (payload e)) = Some doc →
    root_namespace doc ≠ "".

(** How often a line occurs in a list of findings. *)
Abbreviation count := (count_occ String.string_dec).

(** ** The reference check in the words of the specification

    What the specification calls an attribute value, the values of a
    text, a value that is looked up and a plain path, written without the
    matchers of [Re] and without [PosixPath], for the statements to
    compare the code with. *)

Module Reference.

(** Every character of [s] satisfies [P]. *)
Definition each (P : ascii → Prop) (s : string) : Prop :=
  Forall P (list_ascii_of_string s).

(** A quote of either kind. *)
Definition quote (c : ascii) : Prop := c = "'"%char ∨ c = ascii_of_N 34.

(** An attribute at the start of [s]: the name [src] or [href] in any
    letter case, an equals sign, a quote, the value [v] of one or more
    characters none of which is a quote, a quote, and the [rest] of the
    text. *)
Definition attribute_at (s v rest : string) : Prop :=
  ∃ key q1 q2,
    (Py.lower key = "src" ∨ Py.lower key = "href")
    ∧ quote q1 ∧ quote q2
    ∧ v ≠ "" ∧ each (λ c, ¬ quote c) v
    ∧ s = key +:+ "=" +:+ String q1 (v +:+ String q2 rest).

(** The attribute values of a text from left to right: the leftmost
    attribute, then those of the text after it. *)
Inductive values : string → list string → Prop :=
| values_end : values "" []
| values_here s v rest vs :
    attribute_at s v rest → values rest vs → values s (v :: vs)
| values_next c s vs :
    (∀ v rest, ¬ attribute_at (String c s) v rest) →
    values s vs → values (String c s) vs.

(** A character of a URI scheme after its first. *)
Definition scheme_char (c : ascii) : Prop :=
  Py.is_ascii_alpha c = true ∨ Py.is_digit c = true
  ∨ c = "+"%char ∨ c = "."%char ∨ c = "-"%char.

(** A letter, scheme characters and a colon in front. *)
Definition has_scheme_prefix (v : string) : Prop :=
  ∃ c s rest, v = String c (s +:+ String ":" rest)
              ∧ Py.is_ascii_alpha c = true ∧ each scheme_char s.

(** A value that is looked up: not empty, no fragment, no scheme. *)
Definition checked (v : string) : Prop :=
  v ≠ "" ∧ (∀ r, v ≠ String "#" r) ∧ ¬ has_scheme_prefix v.

(** A character of a plain path segment: no separator of either kind and
    no white space. *)
Definition plain_char (c : ascii) : Prop :=
  c ≠ "/"%char ∧ c ≠ "\"%char ∧ Py.isspace c = false.

(** A plain path segment: not empty, not a dot segment. *)
Definition plain_segment (s : string) : Prop :=
  s ≠ "" ∧ s ≠ "." ∧ s ≠ ".." ∧ each plain_char s.

End Reference.

(** ** Sample documents and archives *)

Module Samples.

Definition container_ns : string := "{urn:oasis:names:tc:opendocument:xmlns:container}".

Definition container_xml : string :=
  "<container xmlns='urn:oasis:names:tc:opendocument:xmlns:container' version='1.0'><rootfiles><rootfile full-path='OEBPS/content.opf' media-type='application/oebps-package+xml'/></rootfiles></container>".

Definition container_doc : Element :=
  Elem (container_ns +:+ "container") [("version", "1.0")]
    [Elem (container_ns +:+ "rootfiles") []
       [Elem (container_ns +:+ "rootfile")
          [("full-path", "OEBPS/content.opf");
           ("media-type", "application/oebps-package+xml")] []]].

(** The children of a package element whose names carry the prefix [ns]. *)
Definition package_body (ns : string) : list Element :=
  [Elem (ns +:+ "manifest") []
     [Elem (ns +:+ "item")
        [("id", "ch1"); ("href", "ch1.xhtml"); ("media-type", "application/xhtml+xml")] [];
      Elem (ns +:+ "item")
        [("id", "css"); ("href", "style.css"); ("media-type", "text/css")] []];
   Elem (ns +:+ "spine") []
     [Elem (ns +:+ "itemref") [("idref", "ch1")] [];
      Elem (ns +:+ "itemref") [("idref", "gone")] []]].

Definition opf_xml : string :=
  "<package xmlns='http://www.idpf.org/2007/opf' version='3.0'><manifest><item id='ch1' href='ch1.xhtml' media-type='application/xhtml+xml'/><item id='css' href='style.css' media-type='text/css'/></manifest><spine><itemref idref='ch1'/><itemref idref='gone'/></spine></package>".

Definition opf_doc : Element :=
  Elem "{http://www.idpf.org/2007/opf}package" [("version", "3.0")]
       (package_body "{http://www.idpf.org/2007/opf}").

(** The same package document without a default namespace. *)
Definition bare_opf_xml : string :=
  "<package version='3.0'><manifest><item id='ch1' href='ch1.xhtml' media-type='application/xhtml+xml'/><item id='css' href='style.css' media-type='text/css'/></manifest><spine><itemref idref='ch1'/><itemref idref='gone'/></spine></package>".

Definition bare_opf_doc : Element :=
  Elem "package" [("version", "3.0")] (package_body "").

Definition chapter_xml : string :=
  "<html xmlns='http://www.w3.org/1999/xhtml'><body/></html>".

Definition chapter_doc : Element :=
  Elem "{http://www.w3.org/1999/xhtml}html" []
       [Elem "{http://www.w3.org/1999/xhtml}body" [] []].

(** A parser that knows the documents above and rejects any other text. *)
Definition fromstring (text : string) : option Element :=
  if String.eqb text container_xml then Some container_doc
  else if String.eqb text opf_xml then Some opf_doc
  else if String.eqb text bare_opf_xml then Some bare_opf_doc
  else if String.eqb text chapter_xml then Some chapter_doc
  else None.

(** The UTF-8 codec on payloads that are plain ASCII. *)
Definition decode (data : string) : string := data.

(** A small book whose package document is stored as [opf_name]. *)
Definition book (opf_name opf_text : string) : ZipFile :=
  [mkZipInfo "mimetype" 0 "application/epub+zip";
   mkZipInfo "META-INF/container.xml" 8 container_xml;
   mkZipInfo opf_name 8 opf_text;
   mkZipInfo "OEBPS/ch1.xhtml" 8 chapter_xml;
   mkZipInfo "OEBPS/style.css" 8 "body {}"].

(** An archive whose mimetype member is neither first nor stored. *)
Definition repacked : ZipFile :=
  [mkZipInfo "ch1.xhtml" 8 chapter_xml;
   mkZipInfo "mimetype" 8 "application/epub+zip"].

(** An archive whose member names start with [./]. *)
Definition dotted : ZipFile :=
  [mkZipInfo "./mimetype" 0 "application/epub+zip";
   mkZipInfo "./ch1.xhtml" 8 chapter_xml].

(** The book above after an edit of its chapter and of its stylesheet. *)
Definition edited : ZipFile :=
  [mkZipInfo "mimetype" 0 "application/epub+zip";
   mkZipInfo "META-INF/container.xml" 8 container_xml;
   mkZipInfo "OEBPS/content.opf" 8 opf_xml;
   mkZipInfo "OEBPS/ch1.xhtml" 8 "<html><body><img src='cover.png'></body></html>";
   mkZipInfo "OEBPS/style.css" 8 "body { margin: 0 }"].

(** The book with a cover image the edited copy does not have, and the
    edited copy with a cover image the book does not have. *)
Definition illustrated : ZipFile :=
  book "OEBPS/content.opf" opf_xml ++ [mkZipInfo "OEBPS/cover.png" 8 "PNG"].

Definition edited_illustrated : ZipFile :=
  edited ++ [mkZipInfo "OEBPS/cover.png" 8 "PNG"].

(** The paths the two have in common, in ascending order. *)
Definition common : list string :=
  ["META-INF/container.xml"; "OEBPS/ch1.xhtml"; "OEBPS/content.opf";
   "OEBPS/style.css"; "mimetype"].

(** A document with references of every kind. *)
Definition links_xml : string :=
  "<a HREF=" +:+ dq +:+ "../index.html" +:+ dq +:+ ">x</a>"
  +:+ "<img SRC=' img/cover.png '/><a href='#top'/><a href='https://x.org/a.png'/>"
  +:+ "<a href='mailto:me@x.org'/><link href='/abs.css'/><img src='img/cover.png'/>"
  +:+ "<img src='here.png'/><img src=''/><a hrEf='a//b/../c.png'/>".

(** The file system with two archives in it. *)
Definition files (zo zt : ZipFile) (path : string) : option ZipFile :=
  if String.eqb path "orig.epub" then Some zo
  else if String.eqb path "tran.epub" then Some zt
  else None.

Definition sample_opf : OPF :=
  {| manifest_paths := ["OEBPS/ch1.xhtml"; "OEBPS/style.css"];
     spine_paths := ["OEBPS/ch1.xhtml"];
     manifest_map := <["OEBPS/ch1.xhtml" := "application/xhtml+xml"]>
                       (<["OEBPS/style.css" := "text/css"]> ∅) |}.

End Samples.

(** * Properties *)

(** ** Set difference and sorting *)

Lemma elem_of_sorted (s : gset string) (p : string) : p ∈ sorted s ↔ p ∈ s.
Proof.
  unfold sorted. rewrite merge_sort_Permutation. apply elem_of_elements.
Qed.

(** C8. The file-set diff is mirrored under a swap of the two archives:
    what is missing for (A, B) is what is extra for (B, A) and the other way
    round, each list holding exactly the paths of one set that the other
    lacks, so the listing printed under either header carries the same
    paths. *)
Theorem C8_file_set_diff_swap (set_a set_b : gset string) :
  fst (file_set_diff set_a set_b) = snd (file_set_diff set_b set_a)
  ∧ snd (file_set_diff set_a set_b) = fst (file_set_diff set_b set_a)
  ∧ (∀ p, p ∈ fst (file_set_diff set_a set_b) ↔ p ∈ set_a ∧ p ∉ set_b)
  ∧ (∀ p, p ∈ snd (file_set_diff set_a set_b) ↔ p ∈ set_b ∧ p ∉ set_a)
  ∧ (∀ header,
       listing header 50 (fst (file_set_diff set_a set_b))
       = listing header 50 (snd (file_set_diff set_b set_a))).
Proof.
  unfold file_set_diff; simpl.
  split_and!; try done; intros p; rewrite elem_of_sorted; set_solver.
Qed.

(** ** The reading-order scan *)

Section SpineScan.

Variables spine_o spine_t : list string.

Lemma spine_scan_none (n s : nat) :
  spine_scan spine_o spine_t (seq s n) = (-1)%Z ↔
  ∀ j, s ≤ j < s + n → spine_o !! j = spine_t !! j.
Proof.
  revert s. induction n as [|n IH]; intros s; simpl.
  - split; [intros _ j ?; lia | done].
  - case_bool_decide as Hd.
    + split; [lia |]. intros H. exfalso. apply Hd, H. lia.
    + rewrite IH. split; intros H j Hj.
      * destruct (decide (j = s)) as [->|]; [done |]. apply H. lia.
      * apply H. lia.
Qed.

Lemma spine_scan_index (n s i : nat) :
  spine_scan spine_o spine_t (seq s n) = Z.of_nat i ↔
  s ≤ i < s + n ∧ spine_o !! i ≠ spine_t !! i
  ∧ ∀ j, s ≤ j < i → spine_o !! j = spine_t !! j.
Proof.
  revert s. induction n as [|n IH]; intros s; simpl.
  - split; [lia | intros [? _]; lia].
  - case_bool_decide as Hd.
    + split.
      * intros H. assert (i = s) as -> by lia.
        split_and!; [lia | lia | done | intros; lia].
      * intros (Hi & Hne & Hlt). f_equal.
        destruct (decide (i = s)) as [->|]; [done |].
        exfalso. apply Hd, Hlt. lia.
    + rewrite IH. split.
      * intros (Hi & Hne & Hlt). split_and!; [lia | lia | done |].
        intros j Hj. destruct (decide (j = s)) as [->|]; [done |]. apply Hlt. lia.
      * intros (Hi & Hne & Hlt).
        assert (i ≠ s) by (intros ->; done).
        split_and!; [lia | lia | done |]. intros j Hj. apply Hlt. lia.
Qed.

End SpineScan.

(** Two lists agree on every position both have exactly when one of them
    is a prefix of the other. *)
Lemma agree_iff_prefix (o t : list string) :
  (∀ j, j < length o `min` length t → o !! j = t !! j) ↔
  o `prefix_of` t ∨ t `prefix_of` o.
Proof.
  revert t. induction o as [|a o IH]; intros [|b t]; simpl.
  - split; [intros _; left; done | intros _ j ?; lia].
  - split; [intros _; left; apply prefix_nil | intros _ j ?; lia].
  - split; [intros _; right; apply prefix_nil | intros _ j ?; lia].
  - split.
    + intros H. assert (a = b) as ->.
      { specialize (H 0 ltac:(lia)). simpl in H. congruence. }
      destruct (proj1 (IH t)) as [Hp|Hp].
      * intros j Hj. apply (H (S j)). lia.
      * left. by apply prefix_cons.
      * right. by apply prefix_cons.
    + intros H j Hj.
      assert (a = b ∧ (o `prefix_of` t ∨ t `prefix_of` o)) as [-> Hp].
      { destruct H as [H|H];
          apply prefix_cons_inv_1 in H as Hab; apply prefix_cons_inv_2 in H; auto. }
      destruct j as [|j]; [done |]. simpl. apply IH; [done | lia].
Qed.

(** C5. The reported divergence index is the smallest position, below the
    length of the shorter reading order, at which the two reading orders
    differ; it is -1 exactly when one reading order is a prefix of the
    other (equal reading orders included); and it is never anything
    else. *)
Theorem C5_first_spine_diff (spine_o spine_t : list string) :
  (∀ i : nat,
      first_spine_diff spine_o spine_t = Z.of_nat i ↔
      i < length spine_o `min` length spine_t
      ∧ spine_o !! i ≠ spine_t !! i
      ∧ ∀ j, j < i → spine_o !! j = spine_t !! j)
  ∧ (first_spine_diff spine_o spine_t = (-1)%Z ↔
     spine_o `prefix_of` spine_t ∨ spine_t `prefix_of` spine_o)
  ∧ (first_spine_diff spine_o spine_t = (-1)%Z
     ∨ ∃ i : nat, first_spine_diff spine_o spine_t = Z.of_nat i).
Proof.
  unfold first_spine_diff. split_and!.
  - intros i. rewrite spine_scan_index. split.
    + intros (Hi & Hne & Hlt). split_and!; [lia | done |].
      intros j Hj. apply Hlt. lia.
    + intros (Hi & Hne & Hlt). split_and!; [lia | lia | done |].
      intros j Hj. apply Hlt. lia.
  - rewrite spine_scan_none, <- agree_iff_prefix.
    split; intros H j Hj; apply H; lia.
  - generalize (seq 0 (length spine_o `min` length spine_t)). intros r.
    induction r as [|i r IH]; simpl; [by left |].
    case_bool_decide; [right; eauto | done].
Qed.

Example first_spine_diff_samples :
  first_spine_diff ["a"; "b"; "c"] ["a"; "x"; "c"] = 1%Z
  ∧ first_spine_diff ["a"; "b"] ["a"; "b"; "c"] = (-1)%Z
  ∧ first_spine_diff [] ["a"] = (-1)%Z.
Proof. split_and!; reflexivity. Qed.

(** ** The package parser *)

Lemma manifest_step_ids base acc item :
  ids_in_paths acc → ids_in_paths (manifest_step base acc item).
Proof.
  intros Hacc. unfold manifest_step.
  destruct (String.eqb (or_empty (ElementPath.get (attrib item) "href")) ""); [done |].
  intros k v; simpl.
  destruct (String.eqb (or_empty (ElementPath.get (attrib item) "id")) "").
  - intros Hk. apply elem_of_app. left. by eapply Hacc.
  - rewrite lookup_insert. case_decide.
    + intros [= <-]. apply elem_of_app. right. by apply list_elem_of_singleton.
    + intros Hk. apply elem_of_app. left. by eapply Hacc.
Qed.

Lemma manifest_fold_ids base items acc :
  ids_in_paths acc → ids_in_paths (fold_left (manifest_step base) items acc).
Proof.
  revert acc. induction items as [|item items IH]; intros acc Hacc; simpl; [done |].
  by apply IH, manifest_step_ids.
Qed.

Lemma spine_fold_subset (ids : gmap string string) (paths : list string) refs spine :
  (∀ k v, ids !! k = Some v → v ∈ paths) →
  (∀ p, p ∈ spine → p ∈ paths) →
  ∀ p, p ∈ fold_left (spine_step ids) refs spine → p ∈ paths.
Proof.
  intros Hids. revert spine.
  induction refs as [|it refs IH]; intros spine Hs; simpl; [done |].
  apply IH. intros p. unfold spine_step.
  destruct (ids !! or_empty (ElementPath.get (attrib it) "idref")) as [v|] eqn:Hv; simpl.
  - destruct v; [by auto |]. rewrite elem_of_app, list_elem_of_singleton.
    intros [?| ->]; [by auto |]. by eapply Hids.
  - by auto.
Qed.

Lemma parse_opf_doc_subset doc base r :
  parse_opf_doc doc base = Returns r →
  ∀ p, p ∈ spine_paths r → p ∈ manifest_paths r.
Proof.
  unfold parse_opf_doc.
  destruct (findall_or_bare _ "manifest" "item" doc) as [items|]; simpl; [|done].
  destruct (findall_or_bare _ "spine" "itemref" doc) as [refs|]; simpl; [|done].
  intros [= <-]; simpl. apply spine_fold_subset.
  - apply (manifest_fold_ids base items (mkAcc [] ∅ ∅)).
    intros k v. simpl. by rewrite lookup_empty.
  - intros p Hp. by apply elem_of_nil in Hp.
Qed.

(** C10. Whatever the package text and path, every path of the reading
    order that [parse_opf] returns is also in the manifest path list it
    returns. *)
Theorem C10_spine_subset_manifest (ET_fromstring : string → option Element)
    (opf_text opf_path : string) (r : OPF) :
  parse_opf ET_fromstring opf_text opf_path = Returns r →
  ∀ p, p ∈ spine_paths r → p ∈ manifest_paths r.
Proof.
  unfold parse_opf. destruct (ET_fromstring opf_text) as [doc|].
  - apply parse_opf_doc_subset.
  - intros [= <-]; simpl. intros p Hp. by apply elem_of_nil in Hp.
Qed.

(** The sample package document: two manifest items, a spine with one
    known and one dangling identifier. *)
Lemma C10_spine_subset_manifest_witness :
  parse_opf Samples.fromstring Samples.opf_xml "OEBPS/content.opf"
  = Returns Samples.sample_opf
  ∧ ∀ p, p ∈ spine_paths Samples.sample_opf → p ∈ manifest_paths Samples.sample_opf.
Proof.
  split; [vm_compute; reflexivity |].
  apply (C10_spine_subset_manifest Samples.fromstring Samples.opf_xml
           "OEBPS/content.opf" Samples.sample_opf).
  vm_compute; reflexivity.
Defined.

(** [parse_opf] does not return for every parsed document: a root element
    outside any namespace leaves the prefix map empty, and the qualified
    query raises before the unqualified one is tried. *)
Lemma parse_opf_doc_bare_root (doc : Element) (base : string) :
  Py.contains "}" (tag doc) = false →
  parse_opf_doc doc base = Raises (SyntaxError "prefix 'opf' not found in prefix map").
Proof. intros H. unfold parse_opf_doc. by rewrite H. Qed.

Lemma parse_opf_doc_qualified_root (doc : Element) (base : string) :
  Py.strip_char "{" (Py.before_first "}" (tag doc)) ≠ "" →
  Py.contains "}" (tag doc) = true →
  ∃ r, parse_opf_doc doc base = Returns r.
Proof.
  intros Hns Hc. unfold parse_opf_doc. rewrite Hc.
  destruct (String.eqb_spec (Py.strip_char "{" (Py.before_first "}" (tag doc))) "");
    [done |].
  simpl. eauto.
Qed.

Example parse_opf_bare_sample :
  parse_opf Samples.fromstring Samples.bare_opf_xml "OEBPS/content.opf"
  = Raises (SyntaxError "prefix 'opf' not found in prefix map").
Proof. reflexivity. Qed.

(** ** The markup validator *)

Lemma count_singleton_ne (x m : string) : x ≠ m → count [x] m = 0.
Proof. intros Hx. simpl. by destruct (string_dec x m). Qed.

Lemma count_singleton_eq (m : string) : count [m] m = 1.
Proof. simpl. by destruct (string_dec m m). Qed.

Lemma msg_missing_resource_inj a b :
  msg_missing_resource a = msg_missing_resource b → a = b.
Proof. cbv [msg_missing_resource String.append]. congruence. Qed.

(** The five kinds of finding never share a text. *)
Lemma msg_missing_resource_not_fixed full :
  msg_missing_resource full ≠ msg_xmlns
  ∧ msg_missing_resource full ≠ msg_amp
  ∧ (∀ n, msg_missing_resource full ≠ msg_unclosed n)
  ∧ msg_missing_resource full ≠ msg_toc.
Proof.
  split_and!;
    cbv [msg_missing_resource msg_xmlns msg_amp msg_unclosed msg_toc dq String.append];
    discriminate.
Qed.

Lemma msg_toc_not_other :
  msg_toc ≠ msg_xmlns ∧ msg_toc ≠ msg_amp
  ∧ (∀ n, msg_toc ≠ msg_unclosed n)
  ∧ (∀ full, msg_toc ≠ msg_missing_resource full).
Proof.
  split_and!;
    cbv [msg_missing_resource msg_xmlns msg_amp msg_unclosed msg_toc dq String.append];
    discriminate.
Qed.

Section CountOther.

(** A finding text [m] and the checks that cannot produce it. *)
Variable m : string.

Lemma count_xmlns_issues lower is_xhtml :
  m ≠ msg_xmlns → count (xmlns_issues lower is_xhtml) m = 0.
Proof.
  intros Hm. unfold xmlns_issues.
  destruct (_ && _); [|done]. by apply count_singleton_ne.
Qed.

Lemma count_amp_issues text : m ≠ msg_amp → count (amp_issues text) m = 0.
Proof.
  intros Hm. unfold amp_issues.
  destruct (Re.bad_amp text); [done|]. by apply count_singleton_ne.
Qed.

Lemma count_void_issues text is_xhtml :
  (∀ n, m ≠ msg_unclosed n) → count (void_issues text is_xhtml) m = 0.
Proof.
  intros Hm. unfold void_issues. destruct is_xhtml; [|done].
  rewrite !count_occ_app.
  assert (∀ n (b : bool), count (if b then [msg_unclosed n] else []) m = 0) as Hone.
  { intros n b. destruct b; [|done]. apply count_singleton_ne.
    intros E. by eapply Hm. }
  by rewrite !Hone.
Qed.

Lemma count_toc_issues path lower : m ≠ msg_toc → count (toc_issues path lower) m = 0.
Proof.
  intros Hm. unfold toc_issues.
  destruct (Py.startswith _ _); [|done]. destruct (_ || _); [|done].
  by apply count_singleton_ne.
Qed.

Lemma count_ref_issues_other path text zip_names :
  (∀ full, m ≠ msg_missing_resource full) →
  count (ref_issues path text zip_names) m = 0.
Proof.
  intros Hm. unfold ref_issues.
  generalize (normalize_path (Some (PosixPath.dirname path))). intros base.
  induction (Re.attr_values text) as [|v vs IH]; simpl; [done |].
  rewrite count_occ_app, IH. unfold check_ref.
  destruct (skipped_ref _); [done |]. case_bool_decide; [done |].
  rewrite count_singleton_ne; [done |]. intros E. by eapply Hm.
Qed.

End CountOther.

(** How many findings one match of the attribute pattern contributes. *)
Lemma count_check_ref base zip_names m full :
  count (check_ref base zip_names m) (msg_missing_resource full) =
  if bool_decide (full ∈ zip_names) then 0
  else if negb (skipped_ref (Py.strip m))
          && String.eqb (resolve_ref base (Py.strip m)) full
       then 1 else 0.
Proof.
  unfold check_ref. destruct (skipped_ref (Py.strip m)); simpl.
  { by case_bool_decide. }
  destruct (String.eqb_spec (resolve_ref base (Py.strip m)) full) as [->|Hne].
  - case_bool_decide; [done|]. apply count_singleton_eq.
  - assert (count (if bool_decide (resolve_ref base (Py.strip m) ∈ zip_names)
                   then [] else [msg_missing_resource (resolve_ref base (Py.strip m))])
                  (msg_missing_resource full) = 0) as ->.
    { case_bool_decide; [done|]. apply count_singleton_ne.
      intros E. by apply msg_missing_resource_inj in E. }
    by case_bool_decide.
Qed.

Lemma count_flat_map_check_ref base zip_names ms full :
  count (flat_map (check_ref base zip_names) ms) (msg_missing_resource full) =
  if bool_decide (full ∈ zip_names) then 0
  else length (filter (λ m, negb (skipped_ref (Py.strip m))
                             && String.eqb (resolve_ref base (Py.strip m)) full) ms).
Proof.
  induction ms as [|m ms IH]; simpl.
  - by case_bool_decide.
  - rewrite count_occ_app, IH, count_check_ref.
    case_bool_decide; [done|].
    rewrite filter_cons. destruct (_ && _); simpl; done.
Qed.

(** *** The matchers and the resolution against the specification *)

Lemma each_nil P : Reference.each P "".
Proof. constructor. Qed.

Lemma each_cons P c s : Reference.each P (String c s) ↔ P c ∧ Reference.each P s.
Proof. unfold Reference.each. simpl. apply Forall_cons. Qed.

Lemma is_quote_spec c : Re.is_quote c = true ↔ Reference.quote c.
Proof.
  unfold Re.is_quote, Reference.quote, Py.code.
  rewrite orb_true_iff, !N.eqb_eq. split.
  - intros [H|H]; [right | left]; rewrite <- (ascii_N_embedding c), H; reflexivity.
  - intros [->| ->]; [right | left]; reflexivity.
Qed.

Lemma is_quote_false c : Re.is_quote c = false ↔ ¬ Reference.quote c.
Proof. rewrite <- is_quote_spec. by destruct (Re.is_quote c). Qed.

Lemma all_chars_each (p : ascii → bool) (P : ascii → Prop) s :
  (∀ c, p c = true ↔ P c) → Py.all_chars p s = true ↔ Reference.each P s.
Proof.
  intros Hp. induction s as [|c s IH]; simpl.
  - split; [intros _; apply each_nil | done].
  - rewrite andb_true_iff, each_cons, IH, Hp. done.
Qed.

Lemma append_cons c a b : String c a +:+ b = String c (a +:+ b).
Proof. reflexivity. Qed.

Lemma append_nil b : "" +:+ b = b.
Proof. reflexivity. Qed.

(** [take_while] and [drop_while] split a text at the first character
    outside the class. *)
Lemma take_drop_while p s : Re.take_while p s +:+ Re.drop_while p s = s.
Proof.
  induction s as [|c s IH]; simpl; [done |].
  destruct (p c); [by rewrite append_cons, IH | done].
Qed.

Lemma drop_while_head p s c r : Re.drop_while p s = String c r → p c = false.
Proof.
  induction s as [|a s IH]; simpl; [done |].
  destruct (p a) eqn:E; [done |]. by intros [= <- _].
Qed.

Lemma take_while_app p v c r :
  Py.all_chars p v = true → p c = false →
  Re.take_while p (v +:+ String c r) = v ∧ Re.drop_while p (v +:+ String c r) = String c r.
Proof.
  intros Hv Hc. induction v as [|a v IH].
  - rewrite append_nil. simpl. by rewrite Hc.
  - simpl in Hv. apply andb_true_iff in Hv as [Ha Hv]. destruct (IH Hv) as [E1 E2].
    rewrite append_cons. simpl. by rewrite Ha, E1, E2.
Qed.

Lemma drop_chars_app a b : Py.drop_chars (String.length a) (a +:+ b) = b.
Proof.
  induction a as [|c a IH]; [by destruct b |]. rewrite append_cons. simpl. exact IH.
Qed.

Lemma length_append a b : String.length (a +:+ b) = String.length a + String.length b.
Proof.
  induction a as [|c a IH]; [done |]. rewrite append_cons. simpl. by rewrite IH.
Qed.

Lemma lower_append a b : Py.lower (a +:+ b) = Py.lower a +:+ Py.lower b.
Proof.
  unfold Py.lower. induction a as [|c a IH]; [done |].
  rewrite append_cons. simpl. by rewrite IH.
Qed.

Lemma lower_length a : String.length (Py.lower a) = String.length a.
Proof. unfold Py.lower. induction a as [|c a IH]; simpl; [done | by rewrite IH]. Qed.

Lemma lower_char_equals c : Py.lower_char c = "="%char → c = "="%char.
Proof.
  destruct c as [[] [] [] [] [] [] [] []]; vm_compute; intros H;
    first [reflexivity | discriminate H].
Qed.

(** The part of the pattern after the name. *)
Lemma quoted_value_spec s v n :
  Re.quoted_value s = Some (v, n) ↔
  ∃ q1 q2 rest, Reference.quote q1 ∧ Reference.quote q2 ∧ v ≠ ""
                ∧ Reference.each (λ c, ¬ Reference.quote c) v
                ∧ s = String q1 (v +:+ String q2 rest)
                ∧ n = 2 + String.length v.
Proof.
  unfold Re.quoted_value. split.
  - destruct s as [|q1 t]; [done |].
    destruct (Re.is_quote q1) eqn:Hq1; [| done].
    pose proof (take_drop_while (λ c, negb (Re.is_quote c)) t) as Hsplit.
    destruct (Re.take_while _ t) as [|a w] eqn:Hv; [done |].
    destruct (Re.drop_while _ t) as [|q2 rest] eqn:Hd; [done |].
    intros [= <- <-]. exists q1, q2, rest.
    split_and!; [by apply is_quote_spec | | done | | by rewrite Hsplit | done].
    + apply drop_while_head in Hd. apply is_quote_spec.
      by destruct (Re.is_quote q2).
    + rewrite <- Hv.
      apply (all_chars_each (λ c, negb (Re.is_quote c))).
      * intros c. rewrite negb_true_iff. apply is_quote_false.
      * clear. induction t as [|c t IH]; simpl; [done |].
        destruct (negb (Re.is_quote c)) eqn:E; simpl; [by rewrite E | done].
  - intros (q1 & q2 & rest & Hq1 & Hq2 & Hne & Hv & -> & ->).
    apply is_quote_spec in Hq1, Hq2. rewrite Hq1.
    apply (all_chars_each (λ c, negb (Re.is_quote c))) in Hv.
    2: { intros c. rewrite negb_true_iff. apply is_quote_false. }
    destruct (take_while_app (λ c, negb (Re.is_quote c)) v q2 rest Hv) as [-> ->];
      [by rewrite Hq2 |].
    by destruct v.
Qed.

(** A text whose lower-cased form starts with a name and an equals sign
    starts with that name in some letter case and an equals sign. *)
Lemma prefix_lower_name (name s : string) :
  String.prefix (name +:+ "=") (Py.lower s) = true ↔
  ∃ key tail, s = key +:+ "=" +:+ tail ∧ Py.lower key = name.
Proof.
  split.
  - revert s. induction name as [|a name IH]; intros s.
    + destruct s as [|d tail]; [done |].
      change (String.prefix ("" +:+ "=") (Py.lower (String d tail)))
        with (if ascii_dec "=" (Py.lower_char d)
              then String.prefix "" (Py.lower tail) else false).
      destruct (ascii_dec "=" (Py.lower_char d)) as [E|]; [| done].
      intros _. symmetry in E. apply lower_char_equals in E as ->.
      by exists "", tail.
    + destruct s as [|c s]; [done |].
      change (String.prefix (String a name +:+ "=") (Py.lower (String c s)))
        with (if ascii_dec a (Py.lower_char c)
              then String.prefix (name +:+ "=") (Py.lower s) else false).
      destruct (ascii_dec a (Py.lower_char c)) as [->|]; [| done].
      intros (key & tail & -> & <-)%IH. by exists (String c key), tail.
  - intros (key & tail & -> & <-). rewrite !lower_append.
    generalize (Py.lower tail). intros t.
    induction (Py.lower key) as [|a k IH].
    + change (String.prefix ("" +:+ "=") ("" +:+ Py.lower "=" +:+ t))
        with (if ascii_dec "=" "=" then String.prefix "" t else false).
      destruct (ascii_dec "=" "="); [| done]. by destruct t.
    + change (String.prefix (String a k +:+ "=") (String a k +:+ Py.lower "=" +:+ t))
        with (if ascii_dec a a
              then String.prefix (k +:+ "=") (k +:+ Py.lower "=" +:+ t) else false).
      destruct (ascii_dec a a); [exact IH | done].
Qed.

Lemma append_assoc (a b c : string) : (a +:+ b) +:+ c = a +:+ b +:+ c.
Proof.
  induction a as [|x a IH]; [done |]. rewrite !append_cons. by rewrite IH.
Qed.

Lemma append_inj_length (a a' b b' : string) :
  String.length a = String.length a' → a +:+ b = a' +:+ b' → a = a' ∧ b = b'.
Proof.
  revert a'. induction a as [|x a IH]; intros [|x' a']; try done.
  rewrite !append_cons. intros [= Hlen] [= -> H].
  destruct (IH a' Hlen H) as [-> ->]. done.
Qed.

(** One alternative of the pattern: the name, the equals sign and the
    quoted value. *)
Lemma named_value_spec (name s v : string) (n : nat) :
  (if String.prefix (name +:+ "=") (Py.lower s)
   then '(v, m) ← Re.quoted_value (Py.drop_chars (S (String.length name)) s);
        Some (v, S (String.length name) + m)
   else None) = Some (v, n)
  ↔ ∃ key q1 q2 rest,
      Py.lower key = name ∧ Reference.quote q1 ∧ Reference.quote q2
      ∧ v ≠ "" ∧ Reference.each (λ c, ¬ Reference.quote c) v
      ∧ s = key +:+ "=" +:+ String q1 (v +:+ String q2 rest)
      ∧ String.length s = n + String.length rest.
Proof.
  destruct (String.prefix (name +:+ "=") (Py.lower s)) eqn:Hp.
  - apply prefix_lower_name in Hp as (key & tail & -> & Hkey).
    assert (String.length key = String.length name) as Hlen
      by (by rewrite <- Hkey, lower_length).
    assert (Py.drop_chars (S (String.length name)) (key +:+ "=" +:+ tail) = tail) as ->.
    { rewrite <- Hlen. clear. induction key as [|c key IH]; [done | exact IH]. }
    split.
    + destruct (Re.quoted_value tail) as [[v' m]|] eqn:Hq; [| done].
      simpl. intros [= -> <-].
      apply quoted_value_spec in Hq as (q1 & q2 & rest & ? & ? & ? & ? & -> & ->).
      exists key, q1, q2, rest. split_and!; try done.
      rewrite !length_append. simpl. rewrite length_append. simpl. lia.
    + intros (key' & q1 & q2 & rest & Hkey' & Hq1 & Hq2 & Hne & Hv & E & Hn).
      assert (String.length key = String.length key') as Hk
        by (by rewrite Hlen, <- Hkey', lower_length).
      apply (append_inj_length key key' _ _ Hk) in E as [<- E].
      assert (tail = String q1 (v +:+ String q2 rest)) as ->
        by (injection E as E; exact E).
      assert (Re.quoted_value (String q1 (v +:+ String q2 rest))
              = Some (v, 2 + String.length v)) as ->.
      { apply quoted_value_spec. exists q1, q2, rest. done. }
      simpl. do 2 f_equal.
      rewrite !length_append in Hn. simpl in Hn. rewrite length_append in Hn.
      simpl in Hn. lia.
  - split; [done |].
    intros (key & q1 & q2 & rest & Hkey & _ & _ & _ & _ & -> & _).
    assert (String.prefix (name +:+ "=")
              (Py.lower (key +:+ "=" +:+ String q1 (v +:+ String q2 rest))) = true) as E.
    { apply prefix_lower_name. eauto. }
    congruence.
Qed.

Lemma attr_here_spec s v n :
  Re.attr_here s = Some (v, n) ↔
  ∃ rest, Reference.attribute_at s v rest
          ∧ String.length s = n + String.length rest.
Proof.
  pose proof (named_value_spec "src" s v n) as Hsrc.
  pose proof (named_value_spec "href" s v n) as Hhref.
  unfold Re.attr_here, Reference.attribute_at.
  change (String.prefix ("src" +:+ "=") (Py.lower s))
    with (String.prefix "src=" (Py.lower s)) in Hsrc.
  change (String.prefix ("href" +:+ "=") (Py.lower s))
    with (String.prefix "href=" (Py.lower s)) in Hhref.
  change (S (String.length "src")) with 4 in Hsrc.
  change (S (String.length "href")) with 5 in Hhref.
  destruct (String.prefix "src=" (Py.lower s)) eqn:Es.
  - rewrite Hsrc. split.
    + intros (key & q1 & q2 & rest & ? & ? & ? & ? & ? & ? & ?).
      exists rest. split; [| done]. exists key, q1, q2. auto 10.
    + intros (rest & (key & q1 & q2 & [Hk|Hk] & ? & ? & ? & ? & E) & ?).
      * exists key, q1, q2, rest. done.
      * exfalso.
        assert (String.prefix ("href" +:+ "=") (Py.lower s) = true) as Eh
          by (apply prefix_lower_name; eauto).
        destruct (Py.lower s) as [|x l]; [done |].
        cbn [String.prefix String.append] in Es, Eh.
        destruct (ascii_dec "s" x) as [<-|]; [| done].
        by destruct (ascii_dec "h" "s").
  - destruct (String.prefix "href=" (Py.lower s)) eqn:Eh.
    + rewrite Hhref. split.
      * intros (key & q1 & q2 & rest & ? & ? & ? & ? & ? & ? & ?).
        exists rest. split; [| done]. exists key, q1, q2. auto 10.
      * intros (rest & (key & q1 & q2 & [Hk|Hk] & ? & ? & ? & ? & E) & ?).
        -- exfalso.
           assert (String.prefix ("src" +:+ "=") (Py.lower s) = true) as E'
             by (apply prefix_lower_name; eauto).
           change ("src" +:+ "=") with "src=" in E'. congruence.
        -- exists key, q1, q2, rest. done.
    + split; [done |].
      intros (rest & (key & q1 & q2 & [Hk|Hk] & ? & ? & ? & ? & E) & ?); exfalso.
      * assert (String.prefix ("src" +:+ "=") (Py.lower s) = true) as E'
          by (apply prefix_lower_name; eauto).
        change ("src" +:+ "=") with "src=" in E'. congruence.
      * assert (String.prefix ("href" +:+ "=") (Py.lower s) = true) as E'
          by (apply prefix_lower_name; eauto).
        change ("href" +:+ "=") with "href=" in E'. congruence.
Qed.

(** The characters of a match are passed over before the next attempt. *)
Lemma attr_values_from_drop (n : nat) (s : string) :
  Re.attr_values_from n s = Re.attr_values (Py.drop_chars n s).
Proof.
  unfold Re.attr_values. revert n. induction s as [|c s IH]; intros [|n]; try done.
  simpl. apply IH.
Qed.

Lemma length_drop_chars (n : nat) (s rest : string) :
  String.length s = n + String.length rest →
  (∃ pre, s = pre +:+ rest) → Py.drop_chars n s = rest.
Proof.
  intros Hlen [pre ->]. rewrite length_append in Hlen.
  assert (n = String.length pre) as -> by lia. apply drop_chars_app.
Qed.

Lemma attribute_at_suffix s v rest :
  Reference.attribute_at s v rest → ∃ pre, s = pre +:+ rest ∧ pre ≠ "".
Proof.
  intros (key & q1 & q2 & _ & _ & _ & _ & _ & ->).
  exists (key +:+ "=" +:+ String q1 (v +:+ String q2 "")). split.
  - rewrite !append_assoc. do 2 f_equal. rewrite append_cons. do 1 f_equal.
    rewrite append_assoc. done.
  - destruct key; done.
Qed.

(** The scan step by step. *)
Lemma attr_values_step (s : string) :
  Re.attr_values s =
  match s with
  | "" => []
  | String _ s' =>
      match Re.attr_here s with
      | Some (v, n) => v :: Re.attr_values (Py.drop_chars n s)
      | None => Re.attr_values s'
      end
  end.
Proof.
  destruct s as [|c s']; [done |].
  unfold Re.attr_values at 1. cbn [Re.attr_values_from].
  destruct (Re.attr_here (String c s')) as [[v n]|] eqn:E; [| done].
  rewrite attr_values_from_drop. do 2 f_equal.
  apply attr_here_spec in E as (rest & Hat & Hlen).
  destruct n as [|n]; [| simpl; by rewrite Nat.sub_0_r].
  exfalso. apply attribute_at_suffix in Hat as (pre & E & Hpre).
  rewrite E, length_append in Hlen. destruct pre; [done |]. simpl in Hlen. lia.
Qed.

Lemma attribute_at_here s v rest :
  Reference.attribute_at s v rest →
  ∃ n, Re.attr_here s = Some (v, n) ∧ Py.drop_chars n s = rest
       ∧ String.length rest < String.length s.
Proof.
  intros Hat. destruct (attribute_at_suffix s v rest Hat) as (pre & E & Hpre).
  exists (String.length pre). split_and!.
  - apply attr_here_spec. exists rest. split; [done |].
    by rewrite E, length_append.
  - rewrite E. apply drop_chars_app.
  - rewrite E, length_append. destruct pre; [done |]. simpl. lia.
Qed.

(** The scan gives the values of the text, in the sense of the
    specification. *)
Lemma values_attr_values (s : string) : Reference.values s (Re.attr_values s).
Proof.
  remember (String.length s) as k eqn:Hk. revert s Hk.
  induction k as [k IH] using lt_wf_ind. intros s ->.
  rewrite attr_values_step. destruct s as [|c s']; [constructor |].
  destruct (Re.attr_here (String c s')) as [[v n]|] eqn:E.
  - apply attr_here_spec in E as (rest & Hat & Hlen).
    destruct (attribute_at_here _ _ _ Hat) as (n' & E' & Hdrop & Hlt).
    assert (Py.drop_chars n (String c s') = rest) as ->.
    { apply length_drop_chars; [done |].
      destruct (attribute_at_suffix _ _ _ Hat) as (pre & ? & _). eauto. }
    eapply Reference.values_here; [exact Hat |].
    by apply (IH (String.length rest)).
  - apply Reference.values_next.
    + intros v rest Hat. apply attribute_at_here in Hat as (n & ? & _). congruence.
    + apply (IH (String.length s')); [simpl; lia | done].
Qed.

(** And they are the only such list. *)
Lemma values_unique (s : string) (vs : list string) :
  Reference.values s vs → vs = Re.attr_values s.
Proof.
  induction 1 as [|s v rest vs Hat _ IH|c s vs Hno _ IH].
  - done.
  - destruct (attribute_at_here _ _ _ Hat) as (n & E & Hdrop & Hlt).
    rewrite (attr_values_step s). destruct s as [|c s']; [simpl in Hlt; lia |].
    rewrite E, Hdrop. by f_equal.
  - rewrite attr_values_step.
    destruct (Re.attr_here (String c s)) as [[v n]|] eqn:E; [| done].
    apply attr_here_spec in E as (rest & Hat & _). by apply Hno in Hat.
Qed.

(** Which values are looked up. *)

Lemma scheme_char_spec c : Re.scheme_char c = true ↔ Reference.scheme_char c.
Proof.
  unfold Re.scheme_char, Reference.scheme_char.
  rewrite !orb_true_iff, !Ascii.eqb_eq. tauto.
Qed.

Lemma has_scheme_spec v : Re.has_scheme v = true ↔ Reference.has_scheme_prefix v.
Proof.
  unfold Re.has_scheme, Reference.has_scheme_prefix. destruct v as [|c s'].
  { split; [done | intros (? & ? & ? & ? & _); done]. }
  rewrite andb_true_iff. unfold Py.startswith. split.
  - intros [Hc Hp].
    pose proof (take_drop_while Re.scheme_char s') as Hsplit.
    destruct (Re.drop_while Re.scheme_char s') as [|x rest] eqn:Hd; [done |].
    cbn [String.prefix] in Hp. destruct (ascii_dec ":" x) as [<-|]; [| done].
    exists c, (Re.take_while Re.scheme_char s'), rest. split_and!; [by rewrite Hsplit | done |].
    apply (all_chars_each Re.scheme_char); [apply scheme_char_spec |].
    clear. induction s' as [|a s IH]; simpl; [done |].
    destruct (Re.scheme_char a) eqn:E; simpl; [by rewrite E | done].
  - intros (c' & s & rest & [= <- ->] & Hc & Hs). split; [done |].
    apply (all_chars_each Re.scheme_char) in Hs; [| apply scheme_char_spec].
    destruct (take_while_app Re.scheme_char s ":" rest Hs) as [_ ->]; [done |].
    cbn [String.prefix]. destruct (ascii_dec ":" ":"); [| done]. by destruct rest.
Qed.

Lemma skipped_ref_spec v : skipped_ref v = false ↔ Reference.checked v.
Proof.
  unfold skipped_ref, Reference.checked.
  rewrite !orb_false_iff. rewrite String.eqb_neq.
  assert (Py.startswith v "#" = false ↔ ∀ r, v ≠ String "#" r) as ->.
  { unfold Py.startswith. destruct v as [|x r]; [done |].
    cbn [String.prefix]. destruct (ascii_dec "#" x) as [<-|Hx].
    - split; [by destruct r | intros H; by destruct (H r)].
    - split; [intros _ r' [= ? _]; congruence | done]. }
  assert (Re.has_scheme v = false ↔ ¬ Reference.has_scheme_prefix v) as ->.
  { rewrite <- has_scheme_spec. by destruct (Re.has_scheme v). }
  tauto.
Qed.


(** Resolution of references made of plain segments. *)

Lemma each_append P a b :
  Reference.each P (a +:+ b) ↔ Reference.each P a ∧ Reference.each P b.
Proof.
  induction a as [|c a IH].
  - rewrite append_nil. split; [intros ?; split; [apply each_nil | done] | by intros [_ ?]].
  - rewrite append_cons, !each_cons, IH. tauto.
Qed.

Lemma each_impl (P Q : ascii → Prop) s :
  (∀ c, P c → Q c) → Reference.each P s → Reference.each Q s.
Proof. intros H Hs. eapply Forall_impl; [exact Hs | exact H]. Qed.

Lemma join_cons2 sep x y rest :
  Py.join sep (x :: y :: rest) = x +:+ sep +:+ Py.join sep (y :: rest).
Proof. reflexivity. Qed.

Lemma each_join P segs :
  P "/"%char → Forall (Reference.each P) segs → Reference.each P (Py.join "/" segs).
Proof.
  intros Hs. induction 1 as [|x segs Hx Hrest IH]; [apply each_nil |].
  destruct segs as [|y rest]; [done |].
  rewrite join_cons2, !each_append. split_and!; [done | | done].
  apply each_cons. split; [done | apply each_nil].
Qed.

Lemma join_app ds rs :
  ds ≠ [] → rs ≠ [] →
  Py.join "/" ds +:+ "/" +:+ Py.join "/" rs = Py.join "/" (ds ++ rs).
Proof.
  intros Hd Hr. induction ds as [|x ds IH]; [done |].
  destruct ds as [|y ds].
  - destruct rs as [|r rs]; [done |]. reflexivity.
  - change ((x :: y :: ds) ++ rs) with (x :: y :: (ds ++ rs)).
    rewrite !join_cons2, append_assoc. f_equal.
    rewrite append_assoc. f_equal. by apply IH.
Qed.

Lemma split_plain s :
  Reference.each (λ c, c ≠ "/"%char) s → Py.split "/" s = [s].
Proof.
  induction s as [|c s IH]; [done |]. rewrite each_cons. intros [Hc Hs].
  simpl. destruct (Ascii.eqb_spec c "/"); [done |]. by rewrite IH.
Qed.

Lemma split_append a b :
  Reference.each (λ c, c ≠ "/"%char) a →
  Py.split "/" (a +:+ "/" +:+ b) = a :: Py.split "/" b.
Proof.
  induction a as [|c a IH].
  - intros _. reflexivity.
  - rewrite each_cons. intros [Hc Ha]. rewrite append_cons. simpl.
    destruct (Ascii.eqb_spec c "/"); [done |]. by rewrite IH.
Qed.

Lemma split_join segs :
  Forall (Reference.each (λ c, c ≠ "/"%char)) segs → segs ≠ [] →
  Py.split "/" (Py.join "/" segs) = segs.
Proof.
  induction 1 as [|x segs Hx Hrest IH]; [done |]. intros _.
  destruct segs as [|y rest]; [by apply split_plain |].
  rewrite join_cons2, split_append by done. f_equal. by apply IH.
Qed.

Lemma plain_segment_no_slash s :
  Reference.plain_segment s → Reference.each (λ c, c ≠ "/"%char) s.
Proof. intros (_ & _ & _ & H). eapply each_impl; [| exact H]. by intros c [? _]. Qed.

Lemma normpath_fold_plain segs acc :
  Forall Reference.plain_segment segs →
  fold_left (PosixPath.normpath_step 0) segs acc = acc ++ segs.
Proof.
  intros H. revert acc. induction H as [|x segs Hx _ IH]; intros acc; simpl.
  - by rewrite app_nil_r.
  - destruct Hx as (H1 & H2 & H3 & _).
    assert (PosixPath.normpath_step 0 acc x = acc ++ [x]) as ->.
    { unfold PosixPath.normpath_step.
      destruct (String.eqb_spec x ""); [done |].
      destruct (String.eqb_spec x "."); [done |].
      destruct (String.eqb_spec x ".."); [done |]. done. }
    by rewrite IH, <- app_assoc.
Qed.

(** The first character of a path of plain segments. *)
Lemma join_plain_head segs :
  Forall Reference.plain_segment segs → segs ≠ [] →
  ∃ c t, Py.join "/" segs = String c t ∧ Reference.plain_char c
         ∧ ¬ (c = "."%char ∧ ∃ t', t = String "/" t').
Proof.
  intros H Hne. destruct H as [|x segs Hx Hrest]; [done |].
  destruct Hx as (H1 & H2 & H3 & Hall).
  destruct x as [|c x']; [done |]. apply each_cons in Hall as [Hc Hx'].
  assert (∀ tail, ¬ (c = "."%char ∧ ∃ t', x' +:+ tail = String "/" t') ∨ x' = "") as Hdot.
  { intros tail. destruct x' as [|d x'']; [by right |]. left.
    apply each_cons in Hx' as [[Hd _] _]. intros [_ [t' E]].
    rewrite append_cons in E. congruence. }
  destruct segs as [|y rest].
  - exists c, x'. split_and!; [done | done |].
    destruct (Hdot "") as [Hn| ->].
    + intros [? [t' E]]. apply Hn. split; [done |]. exists t'.
      rewrite <- E. clear. induction x' as [|a x IH]; [done |].
      by rewrite append_cons, IH.
    + intros [_ [? ?]]. done.
  - rewrite join_cons2, append_cons. exists c, (x' +:+ "/" +:+ Py.join "/" (y :: rest)).
    split_and!; [done | done |].
    destruct (Hdot ("/" +:+ Py.join "/" (y :: rest))) as [Hn| ->]; [done |].
    intros [-> _]. done.
Qed.

Lemma normpath_plain segs :
  Forall Reference.plain_segment segs → segs ≠ [] →
  PosixPath.normpath (Py.join "/" segs) = Py.join "/" segs.
Proof.
  intros H Hne. destruct (join_plain_head segs H Hne) as (c & t & E & (Hc & _) & _).
  assert (String.eqb (Py.join "/" segs) "" = false) as Hnon by (by rewrite E).
  assert (Py.startswith (Py.join "/" segs) "/" = false) as Hstart.
  { rewrite E. unfold Py.startswith. cbn [String.prefix]. by destruct (ascii_dec "/" c). }
  unfold PosixPath.normpath. cbv zeta. rewrite Hnon, Hstart. cbv iota.
  rewrite split_join, normpath_fold_plain; try done.
  2: { eapply Forall_impl; [exact H |]. apply plain_segment_no_slash. }
  cbn [replicate Py.join app]. rewrite append_nil, Hnon. done.
Qed.

Lemma normpath_dot_plain segs :
  Forall Reference.plain_segment segs → segs ≠ [] →
  PosixPath.normpath ("./" +:+ Py.join "/" segs) = Py.join "/" segs.
Proof.
  intros H Hne. destruct (join_plain_head segs H Hne) as (c & t & E & (Hc & _) & _).
  assert (String.eqb (Py.join "/" segs) "" = false) as Hnon by (by rewrite E).
  unfold PosixPath.normpath. cbv zeta.
  change (String.eqb ("./" +:+ Py.join "/" segs) "") with false.
  change (Py.startswith ("./" +:+ Py.join "/" segs) "/") with false.
  cbv iota.
  change ("./" +:+ Py.join "/" segs) with ("." +:+ "/" +:+ Py.join "/" segs).
  rewrite split_append.
  2: { apply each_cons. split; [done | apply each_nil]. }
  rewrite split_join; try done.
  2: { eapply Forall_impl; [exact H |]. apply plain_segment_no_slash. }
  cbn [fold_left].
  assert (PosixPath.normpath_step 0 [] "." = []) as -> by reflexivity.
  rewrite normpath_fold_plain by done.
  cbn [replicate Py.join app]. rewrite append_nil, Hnon. reflexivity.
Qed.

Lemma replace_char_plain s :
  Reference.each (λ c, c ≠ "\"%char) s → Py.replace_char "\" "/" s = s.
Proof.
  unfold Py.replace_char. induction s as [|c s IH]; [done |].
  rewrite each_cons. intros [Hc Hs]. simpl.
  destruct (Ascii.eqb_spec c "\"); [done |]. by rewrite IH.
Qed.

Lemma strip_plain s :
  Reference.each (λ c, Py.isspace c = false) s → Py.strip s = s.
Proof.
  intros H. unfold Py.strip.
  assert (Py.lstrip s = s) as ->.
  { destruct s as [|c s]; [done |]. apply each_cons in H as [Hc _]. simpl. by rewrite Hc. }
  induction s as [|c s IH]; [done |]. apply each_cons in H as [Hc Hs].
  simpl. rewrite (IH Hs). destruct s; [by rewrite Hc | done].
Qed.

Lemma each_join_plain (P : ascii → Prop) segs :
  P "/"%char → (∀ c, Reference.plain_char c → P c) →
  Forall Reference.plain_segment segs → Reference.each P (Py.join "/" segs).
Proof.
  intros Hs Hp H. apply each_join; [done |].
  eapply Forall_impl; [exact H |]. intros x (_ & _ & _ & Hx).
  eapply each_impl; [exact Hp | exact Hx].
Qed.

Lemma normalize_str_tidy (p : string) (segs : list string) :
  Forall Reference.plain_segment segs → segs ≠ [] →
  PosixPath.normpath p = Py.join "/" segs → normalize_str p = Py.join "/" segs.
Proof.
  intros H Hne Hp. unfold normalize_str. rewrite Hp.
  rewrite replace_char_plain.
  2: { apply each_join_plain; [done | by intros c (_ & ? & _) | done]. }
  rewrite strip_plain.
  2: { apply each_join_plain; [done | by intros c (_ & _ & ?) | done]. }
  destruct (join_plain_head segs H Hne) as (c & t & E & _ & Hdot).
  assert (Py.startswith (Py.join "/" segs) "./" = false) as ->; [| done].
  rewrite E. unfold Py.startswith. cbn [String.prefix].
  destruct (ascii_dec "." c) as [<-|]; [| done].
  destruct t as [|d t']; [done |]. cbn [String.prefix].
  destruct (ascii_dec "/" d) as [<-|]; [| done].
  exfalso. apply Hdot. eauto.
Qed.

Lemma endswith_no_slash s :
  Reference.each (λ c, c ≠ "/"%char) s → Py.endswith s "/" = false.
Proof.
  induction s as [|c s IH]; [done |]. rewrite each_cons. intros [Hc Hs].
  cbn [Py.endswith]. rewrite (IH Hs), orb_false_r.
  apply String.eqb_neq. intros [= ? _]. done.
Qed.

Lemma endswith_append a b : b ≠ "" → Py.endswith (a +:+ b) "/" = Py.endswith b "/".
Proof.
  intros Hb. induction a as [|c a IH]; [done |].
  rewrite append_cons. cbn [Py.endswith]. rewrite IH.
  assert (String.eqb (String c (a +:+ b)) "/" = false) as ->; [| done].
  apply String.eqb_neq. intros [= _ E]. destruct a; [by rewrite append_nil in E | done].
Qed.

Lemma join_snoc init l :
  Py.join "/" (init ++ [l])
  = match init with [] => l | _ => Py.join "/" init +:+ "/" +:+ l end.
Proof.
  destruct init as [|x init]; [done |].
  by rewrite <- (join_app (x :: init) [l]).
Qed.

Lemma endswith_join_plain segs :
  Forall Reference.plain_segment segs → segs ≠ [] →
  Py.endswith (Py.join "/" segs) "/" = false.
Proof.
  intros H Hne. destruct (exists_last Hne) as (init & l & ->).
  apply Forall_app in H as [_ Hl]. apply Forall_inv in Hl.
  pose proof (plain_segment_no_slash l Hl) as Hns. destruct Hl as (Hl & _).
  rewrite join_snoc. destruct init as [|x init]; [by apply endswith_no_slash |].
  rewrite <- append_assoc, endswith_append by done. by apply endswith_no_slash.
Qed.

Lemma contains_slash_false s :
  Reference.each (λ c, c ≠ "/"%char) s → Py.contains "/" s = false.
Proof.
  induction s as [|c s IH]; [done |]. rewrite each_cons. intros [Hc Hs].
  cbn [Py.contains String.prefix]. rewrite (IH Hs), orb_false_r.
  destruct (ascii_dec "/" c) as [<-|]; done.
Qed.

Lemma contains_slash_append a b : Py.contains "/" (a +:+ "/" +:+ b) = true.
Proof.
  induction a as [|c a IH].
  - rewrite append_nil. change ("/" +:+ b) with (String "/" b).
    cbn [Py.contains String.prefix]. destruct (ascii_dec "/" "/"); [| done]. by destruct b.
  - rewrite append_cons. cbn [Py.contains]. rewrite IH. apply orb_true_r.
Qed.

Lemma upto_last_plain s :
  Reference.each (λ c, c ≠ "/"%char) s → Py.upto_last "/" s = "".
Proof.
  destruct s as [|c s]; [done |]. rewrite each_cons. intros [Hc Hs].
  cbn [Py.upto_last]. rewrite (contains_slash_false s Hs).
  by destruct (Ascii.eqb_spec c "/").
Qed.

Lemma upto_last_append a name :
  Reference.each (λ c, c ≠ "/"%char) name →
  Py.upto_last "/" (a +:+ "/" +:+ name) = a +:+ "/".
Proof.
  intros Hn. induction a as [|c a IH].
  - rewrite append_nil. change ("/" +:+ name) with (String "/" name).
    cbn [Py.upto_last]. rewrite (contains_slash_false name Hn).
    by destruct (Ascii.eqb_spec "/" "/").
  - change (String c a +:+ "/" +:+ name) with (String c (a +:+ "/" +:+ name)).
    change (String c a +:+ "/") with (String c (a +:+ "/")).
    cbn [Py.upto_last]. by rewrite contains_slash_append, IH.
Qed.

Lemma rstrip_char_snoc s :
  s ≠ "" → Py.endswith s "/" = false → Py.rstrip_char "/" (s +:+ "/") = s.
Proof.
  induction s as [|c s IH]; [done |]. intros _ He.
  rewrite append_cons. cbn [Py.endswith] in He. apply orb_false_iff in He as [Hc He].
  cbn [Py.rstrip_char]. destruct s as [|d s'].
  - rewrite append_nil. cbn [Py.rstrip_char].
    destruct (Ascii.eqb_spec c "/") as [->|]; [done |].
    by destruct (Ascii.eqb_spec "/" "/").
  - rewrite IH by done. done.
Qed.

Lemma dirname_plain ds name :
  Forall Reference.plain_segment ds → Reference.plain_segment name →
  PosixPath.dirname (Py.join "/" (ds ++ [name])) = Py.join "/" ds.
Proof.
  intros Hd Hn. pose proof (plain_segment_no_slash name Hn) as Hns.
  unfold PosixPath.dirname. rewrite join_snoc.
  destruct ds as [|x ds]; [by rewrite upto_last_plain |].
  rewrite upto_last_append by done.
  destruct (join_plain_head (x :: ds) Hd ltac:(done)) as (c & t & E & (Hc & _) & _).
  assert (String.eqb (Py.join "/" (x :: ds) +:+ "/") "" = false) as ->
    by (by rewrite E).
  assert (Py.all_chars (Ascii.eqb "/") (Py.join "/" (x :: ds) +:+ "/") = false) as ->.
  { rewrite E, append_cons. cbn [Py.all_chars].
    destruct (Ascii.eqb_spec "/" c); [congruence | done]. }
  simpl negb. cbv iota.
  apply rstrip_char_snoc; [by rewrite E | by apply endswith_join_plain].
Qed.

Lemma posix_join_plain base rs :
  base ≠ "" → Py.endswith base "/" = false →
  Forall Reference.plain_segment rs → rs ≠ [] →
  PosixPath.join base (Py.join "/" rs) = base +:+ "/" +:+ Py.join "/" rs.
Proof.
  intros Hb He Hr Hne. unfold PosixPath.join.
  destruct (join_plain_head rs Hr Hne) as (c & t & E & (Hc & _) & _).
  assert (Py.startswith (Py.join "/" rs) "/" = false) as ->.
  { rewrite E. unfold Py.startswith. cbn [String.prefix]. by destruct (ascii_dec "/" c). }
  rewrite He, orb_false_r.
  by destruct (String.eqb_spec base "").
Qed.

(** A reference made of plain segments, in a document whose path is made
    of plain segments, resolves to the directory of the document followed
    by the reference. *)
Lemma resolve_ref_plain (ds rs : list string) (name : string) :
  Forall Reference.plain_segment ds → Forall Reference.plain_segment rs → rs ≠ [] →
  Reference.plain_segment name →
  resolve_ref (normalize_path (Some (PosixPath.dirname (Py.join "/" (ds ++ [name])))))
              (Py.join "/" rs)
  = Py.join "/" (ds ++ rs).
Proof.
  intros Hd Hr Hne Hn. rewrite dirname_plain by done. unfold resolve_ref.
  destruct ds as [|x ds].
  - change (normalize_path (Some (Py.join "/" []))) with ".".
    rewrite posix_join_plain by done.
    cbn [normalize_path app]. apply normalize_str_tidy; [done | done |].
    by apply normpath_dot_plain.
  - assert (normalize_path (Some (Py.join "/" (x :: ds))) = Py.join "/" (x :: ds)) as ->.
    { cbn [normalize_path]. apply normalize_str_tidy; [done | done |].
      by apply normpath_plain. }
    destruct (join_plain_head (x :: ds) Hd ltac:(done)) as (c & t & E & _).
    rewrite posix_join_plain; [| by rewrite E | by apply endswith_join_plain | done | done].
    rewrite join_app by done.
    cbn [normalize_path]. apply normalize_str_tidy.
    + by apply Forall_app.
    + done.
    + apply normpath_plain; [by apply Forall_app | done].
Qed.

Lemma normpath_parent ds d rs :
  Forall Reference.plain_segment ds → Reference.plain_segment d →
  Forall Reference.plain_segment rs → rs ≠ [] →
  PosixPath.normpath (Py.join "/" (ds ++ [d]) +:+ "/" +:+ Py.join "/" (".." :: rs))
  = Py.join "/" (ds ++ rs).
Proof.
  intros Hd Hdd Hr Hne.
  assert (Forall Reference.plain_segment (ds ++ [d])) as Hdir
    by (apply Forall_app; split; [done | by constructor]).
  assert (ds ++ [d] ≠ []) as Hdne by (by destruct ds).
  destruct (join_plain_head (ds ++ [d]) Hdir Hdne) as (c & t & E & (Hc & _) & _).
  assert (Forall Reference.plain_segment (ds ++ rs)) as Hall by (by apply Forall_app).
  assert (ds ++ rs ≠ []) as Hallne by (destruct ds; [done | done]).
  destruct (join_plain_head (ds ++ rs) Hall Hallne) as (c' & t' & E' & _).
  rewrite join_app by done.
  set (p := Py.join "/" ((ds ++ [d]) ++ ".." :: rs)).
  assert (∃ t2, p = String c t2) as [t2 Ep].
  { subst p. rewrite <- join_app by done. rewrite E, append_cons. eauto. }
  assert (String.eqb p "" = false) as Hnon by (by rewrite Ep).
  assert (Py.startswith p "/" = false) as Hstart.
  { rewrite Ep. unfold Py.startswith. cbn [String.prefix]. by destruct (ascii_dec "/" c). }
  unfold PosixPath.normpath. cbv zeta. rewrite Hnon, Hstart. cbv iota.
  subst p. rewrite split_join; [| | by destruct ds].
  2: { apply Forall_app. split.
       - eapply Forall_impl; [exact Hdir |]. apply plain_segment_no_slash.
       - constructor.
         + apply each_cons. split; [done |]. apply each_cons. split; [done | apply each_nil].
         + eapply Forall_impl; [exact Hr |]. apply plain_segment_no_slash. }
  rewrite fold_left_app, (normpath_fold_plain (ds ++ [d]) [] Hdir). cbn [fold_left app].
  assert (PosixPath.normpath_step 0 (ds ++ [d]) ".." = ds) as ->.
  { unfold PosixPath.normpath_step. rewrite last_snoc.
    destruct Hdd as (_ & _ & Hdd & _).
    assert (String.eqb d ".." = false) as -> by (by apply String.eqb_neq).
    rewrite bool_decide_false by done.
    change (String.eqb ".." "" || String.eqb ".." ".") with false.
    change (negb (String.eqb ".." "..")) with false.
    cbn [orb andb Nat.eqb]. cbv iota. apply removelast_last. }
  rewrite normpath_fold_plain by done.
  cbn [replicate Py.join]. rewrite append_nil, E'. done.
Qed.

Lemma posix_join_relative base v :
  base ≠ "" → Py.endswith base "/" = false → Py.startswith v "/" = false →
  PosixPath.join base v = base +:+ "/" +:+ v.
Proof.
  intros Hb He Hv. unfold PosixPath.join. rewrite Hv, He, orb_false_r.
  by destruct (String.eqb_spec base "").
Qed.

(** A reference that starts with the parent segment resolves against the
    directory above that of the document. *)
Lemma resolve_ref_parent (ds rs : list string) (d name : string) :
  Forall Reference.plain_segment ds → Reference.plain_segment d →
  Forall Reference.plain_segment rs → rs ≠ [] → Reference.plain_segment name →
  resolve_ref (normalize_path (Some (PosixPath.dirname (Py.join "/" (ds ++ [d; name])))))
              (Py.join "/" (".." :: rs))
  = Py.join "/" (ds ++ rs).
Proof.
  intros Hd Hdd Hr Hne Hn.
  assert (Forall Reference.plain_segment (ds ++ [d])) as Hdir
    by (apply Forall_app; split; [done | by constructor]).
  assert (ds ++ [d] ≠ []) as Hdne by (by destruct ds).
  change (ds ++ [d; name]) with (ds ++ [d] ++ [name]). rewrite app_assoc.
  rewrite dirname_plain by done. unfold resolve_ref.
  assert (normalize_path (Some (Py.join "/" (ds ++ [d]))) = Py.join "/" (ds ++ [d])) as ->.
  { cbn [normalize_path]. apply normalize_str_tidy; [done | done |].
    by apply normpath_plain. }
  destruct (join_plain_head (ds ++ [d]) Hdir Hdne) as (c & t & E & _).
  rewrite posix_join_relative;
    [| by rewrite E | by apply endswith_join_plain | by destruct rs].
  cbn [normalize_path]. apply normalize_str_tidy.
  - by apply Forall_app.
  - by destruct ds, rs.
  - by apply normpath_parent.
Qed.

#[global] Instance checked_dec (v : string) : Decision (Reference.checked v).
Proof.
  refine (cast_if (decide (skipped_ref v = false))); by rewrite <- skipped_ref_spec.
Defined.

(** C6. The values the check goes through are the values of the [src=]
    and [href=] attributes of the text, in any letter case and with either
    quote, from left to right. In the findings of one document, the line
    reporting the resolved path [full] as missing occurs once for every
    one of them that, once trimmed, is looked up (it is not empty, not a
    fragment and has no scheme) and resolves to [full] against the
    directory of the document; it does not occur at all when [full] is in
    the file set handed in. A reference made of plain segments resolves to
    the directory of the document followed by the reference, and one that
    starts with the parent segment to the directory above. A reference to
    [img/cover.png] from [text/ch1.xhtml] resolves to
    [text/img/cover.png], is reported once when that file is absent and
    not at all when it is present; and a document with references of
    every kind gets the findings of those that are looked up and absent,
    one per occurrence. The file set is that of the translation: a
    changed chapter whose image the original alone holds is reported, and
    one whose image the translation alone holds is not. *)
Theorem C6_reference_check (path text : string) (is_xhtml : bool)
    (zip_names : gset string) (full : string) :
  Reference.values text (Re.attr_values text)
  ∧ (∀ vs, Reference.values text vs →
       count (find_html_issues path text is_xhtml zip_names) (msg_missing_resource full)
       = if bool_decide (full ∈ zip_names) then 0
         else length (filter
                        (λ v, Reference.checked (Py.strip v)
                              ∧ resolve_ref
                                  (normalize_path (Some (PosixPath.dirname path)))
                                  (Py.strip v) = full)
                        vs))
  ∧ (∀ v, skipped_ref v = false ↔ Reference.checked v)
  ∧ (∀ ds rs name,
       Forall Reference.plain_segment ds → Forall Reference.plain_segment rs →
       rs ≠ [] → Reference.plain_segment name →
       resolve_ref (normalize_path (Some (PosixPath.dirname (Py.join "/" (ds ++ [name])))))
                   (Py.join "/" rs)
       = Py.join "/" (ds ++ rs))
  ∧ (∀ ds rs d name,
       Forall Reference.plain_segment ds → Reference.plain_segment d →
       Forall Reference.plain_segment rs → rs ≠ [] → Reference.plain_segment name →
       resolve_ref
         (normalize_path (Some (PosixPath.dirname (Py.join "/" (ds ++ [d; name])))))
         (Py.join "/" (".." :: rs))
       = Py.join "/" (ds ++ rs))
  ∧ resolve_ref (normalize_path (Some (PosixPath.dirname "text/ch1.xhtml")))
                "img/cover.png" = "text/img/cover.png"
  ∧ find_html_issues "text/ch1.xhtml" "<img src='img/cover.png'/>" true
                     {["text/ch1.xhtml"]}
    = [msg_missing_resource "text/img/cover.png"]
  ∧ find_html_issues "text/ch1.xhtml" "<img src='img/cover.png'/>" true
                     {["text/ch1.xhtml"; "text/img/cover.png"]}
    = []
  ∧ find_html_issues "text/ch1.xhtml" Samples.links_xml false {["text/here.png"]}
    = [msg_missing_resource "index.html";
       msg_missing_resource "text/img/cover.png";
       msg_missing_resource "/abs.css";
       msg_missing_resource "text/img/cover.png";
       msg_missing_resource "text/a/c.png"]
  ∧ match compare_epub Samples.fromstring Samples.decode
            (Samples.files Samples.illustrated Samples.edited) "orig.epub" "tran.epub"
    with
    | Returns report =>
        Py.contains "OEBPS/ch1.xhtml: missing referenced resource: OEBPS/cover.png" report
    | Raises _ => false
    end = true
  ∧ match compare_epub Samples.fromstring Samples.decode
            (Samples.files (Samples.book "OEBPS/content.opf" Samples.opf_xml)
                           Samples.edited_illustrated) "orig.epub" "tran.epub"
    with
    | Returns report => Py.contains "missing referenced resource" report
    | Raises _ => true
    end = false.
Proof.
  split_and!; [| | | | | reflexivity | reflexivity | reflexivity | vm_compute; reflexivity
              | vm_compute; reflexivity | vm_compute; reflexivity].
  - apply values_attr_values.
  - intros vs ->%values_unique.
    destruct (msg_missing_resource_not_fixed full) as (H1 & H2 & H3 & H4).
    unfold find_html_issues. rewrite !count_occ_app.
    rewrite count_xmlns_issues, count_amp_issues, count_void_issues,
      count_toc_issues by done.
    unfold ref_issues. rewrite count_flat_map_check_ref.
    case_bool_decide; [lia |].
    rewrite !Nat.add_0_l, Nat.add_0_r. f_equal. apply list_filter_iff. intros v.
    rewrite andb_True, negb_True, Is_true_false, skipped_ref_spec.
    split; (intros [? E]; split; [done |]).
    + by apply Is_true_true, String.eqb_eq in E.
    + by apply Is_true_true, String.eqb_eq.
  - apply skipped_ref_spec.
  - apply resolve_ref_plain.
  - apply resolve_ref_parent.
Qed.

(** C3 as stated fails: a toc document that has the [nav] marker alone
    still gets the TOC finding. *)
Lemma C3_counterexample :
  Py.contains "nav" (Py.lower "<nav><ol></ol></nav>") = true
  ∧ Py.startswith (Py.lower (PosixPath.basename "OEBPS/toc.xhtml")) "toc" = true
  ∧ find_html_issues "OEBPS/toc.xhtml" "<nav><ol></ol></nav>" false ∅ = [msg_toc].
Proof. split_and!; reflexivity. Qed.

(** C3, amended. For a document whose base name starts with toc in any
    letter case, the validator emits the TOC finding once when the
    lower-cased text lacks [nav], or lacks both the epub:type attribute and
    the doc-toc role; it emits none when [nav] is there together with one
    of the two attributes, and none for any other document. *)
Theorem C3_toc_finding (path text : string) (is_xhtml : bool)
    (zip_names : gset string) :
  count (find_html_issues path text is_xhtml zip_names) msg_toc =
  if Py.startswith (Py.lower (PosixPath.basename path)) "toc"
     && (negb (Py.contains "nav" (Py.lower text))
         || (negb (Py.contains epub_type_toc (Py.lower text))
             && negb (Py.contains role_doc_toc (Py.lower text))))
  then 1 else 0.
Proof.
  destruct msg_toc_not_other as (H1 & H2 & H3 & H4).
  unfold find_html_issues. rewrite !count_occ_app.
  rewrite count_xmlns_issues, count_amp_issues, count_void_issues,
    count_ref_issues_other by done.
  unfold toc_issues. destruct (Py.startswith _ _); simpl; [|done].
  destruct (_ || _); [apply count_singleton_eq | done].
Qed.

Example toc_samples :
  find_html_issues "toc.xhtml" ("<nav " +:+ epub_type_toc +:+ "/>") false ∅ = []
  ∧ find_html_issues "toc.xhtml" ("<ol " +:+ role_doc_toc +:+ "/>") false ∅ = [msg_toc]
  ∧ find_html_issues "TOC.html" "<ol/>" false ∅ = [msg_toc]
  ∧ find_html_issues "ch1.xhtml" "<ol/>" false ∅ = [].
Proof. split_and!; reflexivity. Qed.

(** ** The content differ *)

Lemma bind_Returns_inv {A B} (m : result A) (k : A → result B) (b : B) :
  m ≫= k = Returns b → ∃ a, m = Returns a ∧ k a = Returns b.
Proof. destruct m as [a|e]; [eauto | done]. Qed.

(** A read that is not skipped returned the content of the member. *)
Lemma read_or_continue_Some z p b :
  read_or_continue z p = Returns (Some b) ↔ zip_read z p = Returns b.
Proof.
  unfold read_or_continue. destruct (zip_read z p) as [b'|[]]; split; congruence.
Qed.

Lemma read_or_continue_None z p :
  read_or_continue z p = Returns None → ∀ b, zip_read z p ≠ Returns b.
Proof.
  unfold read_or_continue. destruct (zip_read z p) as [b'|[]]; congruence.
Qed.

(** What one recorded pair of contents does to the two buckets. *)
Lemma record_change_buckets acc q b_o b_t p :
  (p ∈ non_html_changed (record_change acc q b_o b_t) ↔
     p ∈ non_html_changed acc
     ∨ (p = q ∧ b_o ≠ b_t ∧ has_markup_extension q = false ∧ q ≠ "mimetype"))
  ∧ (p ∈ changed_html_paths (record_change acc q b_o b_t) ↔
     p ∈ changed_html_paths acc
     ∨ (p = q ∧ b_o ≠ b_t ∧ (has_markup_extension q = true ∨ q = "mimetype"))).
Proof.
  unfold record_change.
  destruct (String.eqb_spec b_o b_t) as [->|Hne].
  { split; (split; [auto | intros [?|(_ & ? & _)]; done]). }
  destruct (has_markup_extension q) eqn:Hm; simpl.
  - split.
    + split; [auto | intros [?|(_ & _ & ? & _)]; [done | congruence]].
    + rewrite elem_of_app, list_elem_of_singleton. split.
      * intros [?| ->]; auto.
      * intros [?|(-> & _)]; auto.
  - destruct (String.eqb_spec q "mimetype") as [->|Hq]; simpl.
    + split.
      * split; [auto | intros [?|(_ & _ & _ & ?)]; [done | congruence]].
      * rewrite elem_of_app, list_elem_of_singleton. split.
        -- intros [?| ->]; auto.
        -- intros [?|(-> & _)]; auto.
    + split.
      * rewrite elem_of_app, list_elem_of_singleton. split.
        -- intros [?| ->]; auto.
        -- intros [?|(-> & _)]; auto.
      * split; [auto | intros [?|(_ & _ & [?|?])]; [done | congruence | congruence]].
Qed.

(** A round that returns either recorded the two contents it read or left
    the accumulators alone because one archive has no such member. *)
Lemma content_step_Returns zo zt acc q acc' :
  content_step zo zt acc q = Returns acc' →
  (∃ b_o b_t, zip_read zo q = Returns b_o ∧ zip_read zt q = Returns b_t
              ∧ acc' = record_change acc q b_o b_t)
  ∨ (acc' = acc ∧ ∀ b_o b_t, ¬ (zip_read zo q = Returns b_o ∧ zip_read zt q = Returns b_t)).
Proof.
  unfold content_step. intros (r_o & Ho & H)%bind_Returns_inv.
  destruct r_o as [b_o|].
  2: { injection H as <-. right. split; [done |]. intros b_o b_t [E _].
       by apply (read_or_continue_None zo q Ho b_o). }
  apply bind_Returns_inv in H as (r_t & Ht & H).
  apply read_or_continue_Some in Ho.
  destruct r_t as [b_t|]; injection H as <-.
  - apply read_or_continue_Some in Ht. left. by exists b_o, b_t.
  - right. split; [done |]. intros ? b_t [_ E].
    by apply (read_or_continue_None zt q Ht b_t).
Qed.

(** One round of the content loop, bucket by bucket. *)
Lemma content_step_buckets zo zt acc acc' q p :
  content_step zo zt acc q = Returns acc' →
  (p ∈ non_html_changed acc' ↔
     p ∈ non_html_changed acc
     ∨ (p = q ∧ content_changed zo zt q
        ∧ has_markup_extension q = false ∧ q ≠ "mimetype"))
  ∧ (p ∈ changed_html_paths acc' ↔
     p ∈ changed_html_paths acc
     ∨ (p = q ∧ content_changed zo zt q
        ∧ (has_markup_extension q = true ∨ q = "mimetype"))).
Proof.
  intros [(b_o & b_t & Ho & Ht & ->)|(-> & Hno)]%content_step_Returns.
  - destruct (record_change_buckets acc q b_o b_t p) as [R1 R2].
    assert (content_changed zo zt q ↔ b_o ≠ b_t) as Hc.
    { unfold content_changed. split.
      - intros (? & ? & ? & ? & ?). congruence.
      - intros ?. by exists b_o, b_t. }
    rewrite R1, R2, Hc. done.
  - assert (¬ content_changed zo zt q) as Hc.
    { intros (b_o & b_t & ? & ? & _). by eapply Hno. }
    split; (split; [auto | intros [?|(_ & ? & _)]; done]).
Qed.

Lemma content_fold_buckets zo zt l acc d p :
  for_each (content_step zo zt) l acc = Returns d →
  (p ∈ non_html_changed d ↔
     p ∈ non_html_changed acc
     ∨ (p ∈ l ∧ content_changed zo zt p
        ∧ has_markup_extension p = false ∧ p ≠ "mimetype"))
  ∧ (p ∈ changed_html_paths d ↔
     p ∈ changed_html_paths acc
     ∨ (p ∈ l ∧ content_changed zo zt p
        ∧ (has_markup_extension p = true ∨ p = "mimetype"))).
Proof.
  revert acc. induction l as [|q l IH]; intros acc; simpl.
  - intros [= <-].
    split; (split; [auto | intros [?|(Hp & _)]; [done | by apply elem_of_nil in Hp]]).
  - intros (acc' & Hstep & Hrest)%bind_Returns_inv.
    destruct (IH acc' Hrest) as [IH1 IH2].
    destruct (content_step_buckets zo zt acc acc' q p Hstep) as [S1 S2].
    rewrite IH1, IH2, S1, S2. split.
    + split.
      * intros [[?|(-> & ?)]|(? & ?)]; [auto | right | right];
          (split; [| done]); [by left | by right].
      * intros [?|(Hp & ?)]; [auto |].
        apply elem_of_cons in Hp as [->|Hp]; [auto | auto].
    + split.
      * intros [[?|(-> & ?)]|(? & ?)]; [auto | right | right];
          (split; [| done]); [by left | by right].
      * intros [?|(Hp & ?)]; [auto |].
        apply elem_of_cons in Hp as [->|Hp]; [auto | auto].
Qed.

(** C1 as stated fails: a mimetype entry whose bytes differ has no markup
    extension, yet it lands in the markup bucket and not in the other. *)
Lemma C1_counterexample :
  has_markup_extension "mimetype" = false
  ∧ zip_read [mkZipInfo "mimetype" 0 "application/epub+zip"] "mimetype"
    = Returns "application/epub+zip"
  ∧ zip_read [mkZipInfo "mimetype" 0 "application/epub"] "mimetype"
    = Returns "application/epub"
  ∧ ∃ d, content_diff [mkZipInfo "mimetype" 0 "application/epub+zip"]
                      [mkZipInfo "mimetype" 0 "application/epub"] ["mimetype"]
         = Returns d
         ∧ changed_html_paths d = ["mimetype"]
         ∧ non_html_changed d = [].
Proof. split_and!; [reflexivity | reflexivity | reflexivity |]. by eexists. Qed.

(** C1, amended. When the content loop comes to its end, a path is in the
    non-markup bucket exactly when it is a common path whose payloads
    differ, its lower-cased name ends in neither .html nor .xhtml, and it
    is not the mimetype entry; and a path is in the markup bucket exactly
    when it is a common path whose payloads differ and its lower-cased
    name ends in .html or .xhtml or it is the mimetype entry. So the only
    path without a markup extension that the validator is fed is a changed
    mimetype entry. *)
Theorem C1_change_classification (zo zt : ZipFile) (common_all : list string)
    (d : diff_acc) (p : string) :
  content_diff zo zt common_all = Returns d →
  (p ∈ non_html_changed d ↔
     p ∈ common_all ∧ content_changed zo zt p
     ∧ has_markup_extension p = false ∧ p ≠ "mimetype")
  ∧ (p ∈ changed_html_paths d ↔
     p ∈ common_all ∧ content_changed zo zt p
     ∧ (has_markup_extension p = true ∨ p = "mimetype")).
Proof.
  unfold content_diff. intros Hd.
  destruct (content_fold_buckets zo zt common_all (mkDiff [] [] [] ∅) d p Hd) as [H1 H2].
  simpl in H1, H2. split.
  - rewrite H1. split; [intros [Hp|?]; [by apply elem_of_nil in Hp | done] | auto].
  - rewrite H2. split; [intros [Hp|?]; [by apply elem_of_nil in Hp | done] | auto].
Qed.

(** C1 at an archive pair with a changed stylesheet, a changed chapter and
    an unchanged file, for the stylesheet. *)
Lemma C1_change_classification_witness :
  ∃ d, content_diff
         [mkZipInfo "ch1.XHTML" 8 "a"; mkZipInfo "style.css" 8 "a";
          mkZipInfo "same.txt" 8 "a"]
         [mkZipInfo "ch1.XHTML" 8 "ab"; mkZipInfo "style.css" 8 "b";
          mkZipInfo "same.txt" 8 "a"]
         ["ch1.XHTML"; "same.txt"; "style.css"] = Returns d
       ∧ ("style.css" ∈ non_html_changed d ↔
            "style.css" ∈ ["ch1.XHTML"; "same.txt"; "style.css"]
            ∧ content_changed
                [mkZipInfo "ch1.XHTML" 8 "a"; mkZipInfo "style.css" 8 "a";
                 mkZipInfo "same.txt" 8 "a"]
                [mkZipInfo "ch1.XHTML" 8 "ab"; mkZipInfo "style.css" 8 "b";
                 mkZipInfo "same.txt" 8 "a"] "style.css"
            ∧ has_markup_extension "style.css" = false ∧ "style.css" ≠ "mimetype")
       ∧ ("style.css" ∈ changed_html_paths d ↔
            "style.css" ∈ ["ch1.XHTML"; "same.txt"; "style.css"]
            ∧ content_changed
                [mkZipInfo "ch1.XHTML" 8 "a"; mkZipInfo "style.css" 8 "a";
                 mkZipInfo "same.txt" 8 "a"]
                [mkZipInfo "ch1.XHTML" 8 "ab"; mkZipInfo "style.css" 8 "b";
                 mkZipInfo "same.txt" 8 "a"] "style.css"
            ∧ (has_markup_extension "style.css" = true ∨ "style.css" = "mimetype")).
Proof.
  eexists. split; [reflexivity |].
  apply (C1_change_classification
           [mkZipInfo "ch1.XHTML" 8 "a"; mkZipInfo "style.css" 8 "a";
            mkZipInfo "same.txt" 8 "a"]
           [mkZipInfo "ch1.XHTML" 8 "ab"; mkZipInfo "style.css" 8 "b";
            mkZipInfo "same.txt" 8 "a"]
           ["ch1.XHTML"; "same.txt"; "style.css"]).
  reflexivity.
Defined.

Example content_diff_sample :
  ∃ d, content_diff
         [mkZipInfo "ch1.XHTML" 8 "a"; mkZipInfo "style.css" 8 "a";
          mkZipInfo "same.txt" 8 "a"]
         [mkZipInfo "ch1.XHTML" 8 "ab"; mkZipInfo "style.css" 8 "b";
          mkZipInfo "same.txt" 8 "a"]
         ["ch1.XHTML"; "same.txt"; "style.css"] = Returns d
       ∧ changed d
         = ["ch1.XHTML  (1 -> 2 bytes)  86f7e437fa -> da23614e02";
            "style.css  (1 -> 1 bytes)  86f7e437fa -> e9d71f5ee7"]
       ∧ non_html_changed d = ["style.css"]
       ∧ changed_html_paths d = ["ch1.XHTML"].
Proof. eexists. split; [reflexivity |]. vm_compute. done. Qed.

(** A member that is listed and cannot be read stops the loop with its
    own exception, whichever archive holds it. *)
Example content_diff_unreadable :
  content_diff [mkMember "ch1.xhtml" 8 "a" (Some (RuntimeError "encrypted"))]
               [mkZipInfo "ch1.xhtml" 8 "a"] ["ch1.xhtml"]
  = Raises (RuntimeError "encrypted")
  ∧ content_diff [mkZipInfo "ch1.xhtml" 8 "a"]
                 [mkMember "ch1.xhtml" 8 "b" (Some (BadZipFile "Bad CRC-32"))]
                 ["ch1.xhtml"]
    = Raises (BadZipFile "Bad CRC-32").
Proof. split; reflexivity. Qed.

(** ** The mimetype checks *)

Lemma append_inv_head (p a b : string) : p +:+ a = p +:+ b → a = b.
Proof.
  induction p as [|c p IH]; cbn [String.append]; [done |].
  intros [= H]. by apply IH.
Qed.

Lemma mimetype_error_lines_distinct (label : string) :
  line_content_invalid label ≠ line_not_first label
  ∧ line_content_invalid label ≠ line_not_stored label
  ∧ line_not_first label ≠ line_not_stored label.
Proof.
  unfold line_content_invalid, line_not_first, line_not_stored.
  split_and!; intros E; apply (append_inv_head "[") in E;
    apply append_inv_head in E; discriminate E.
Qed.

(** C2 as stated fails twice. In an archive without a mimetype entry that
    entry is not first either, and the round reports the missing file
    alone. And the content check is not one of exact equality: a member
    whose bytes are not those of the expected text, here with a byte
    outside ASCII in front and blanks around, passes it. *)
Lemma C2_counterexample :
  is_first (zip_namelist_files [mkZipInfo "content.opf" 8 "<package/>"]) = false
  ∧ mimetype_check "orig" [mkZipInfo "content.opf" 8 "<package/>"]
      (zip_namelist_files [mkZipInfo "content.opf" 8 "<package/>"])
    = Returns [line_missing_mimetype "orig"]
  ∧ (line_not_first "orig" ∉ [line_missing_mimetype "orig"])
  ∧ (String (ascii_of_N 233) " application/epub+zip ") ≠ mimetype_expected
  ∧ mimetype_check "orig"
      [mkZipInfo "mimetype" 0 (String (ascii_of_N 233) " application/epub+zip ")]
      (zip_namelist_files
         [mkZipInfo "mimetype" 0 (String (ascii_of_N 233) " application/epub+zip ")])
    = Returns ["[orig] mimetype content: 'application/epub+zip', first=True, compress_type=0"].
Proof.
  split_and!; [reflexivity | reflexivity | | discriminate | reflexivity].
  intros H. apply list_elem_of_singleton in H. discriminate H.
Qed.

(** C2, amended. Per archive: when the normalized listing has no mimetype
    entry the round reports that one finding and nothing else. When it has
    one and the archive holds a member of that name that can be read, the
    round reports the information line followed by the error lines of
    three checks that run independently of one another: content (decoded
    as ASCII with other bytes dropped, then trimmed) different from
    [application/epub+zip], not first in the listing, not stored. Each
    error line is present exactly when its own check fails, no line is
    repeated, and an archive with the right content in first place but a
    wrong storage mode reports the storage error alone. When the member
    cannot be read, the round reports nothing: the exception of the read
    leaves the function. *)
Theorem C2_mimetype_checks (label : string) (zf : ZipFile) (names : list string) :
  ("mimetype" ∉ names →
     mimetype_check label zf names = Returns [line_missing_mimetype label])
  ∧ (∀ info, "mimetype" ∈ names → getinfo zf "mimetype" = Some info →
     read_error info = None →
     ∃ errors,
       mimetype_check label zf names
       = Returns (line_mimetype_info label
                    (Py.strip (decode_ascii_ignore (payload info)))
                    (is_first names) (compress_type info) :: errors)
       ∧ (line_content_invalid label ∈ errors ↔
          Py.strip (decode_ascii_ignore (payload info)) ≠ mimetype_expected)
       ∧ (line_not_first label ∈ errors ↔ is_first names = false)
       ∧ (line_not_stored label ∈ errors ↔ compress_type info ≠ ZIP_STORED)
       ∧ NoDup errors
       ∧ (Py.strip (decode_ascii_ignore (payload info)) = mimetype_expected →
          is_first names = true → compress_type info ≠ ZIP_STORED →
          errors = [line_not_stored label]))
  ∧ (∀ info e, "mimetype" ∈ names → getinfo zf "mimetype" = Some info →
     read_error info = Some e →
     mimetype_check label zf names = Raises e).
Proof.
  split_and!.
  - intros Hn. unfold mimetype_check. by rewrite bool_decide_false.
  - intros info Hin Hinfo Hread.
    destruct (mimetype_error_lines_distinct label) as (D1 & D2 & D3).
    unfold mimetype_check, zip_getinfo, read_text_from_zip, zip_read.
    rewrite bool_decide_true, Hinfo, Hread by done. simpl.
    eexists. split; [reflexivity |].
    destruct (String.eqb_spec (Py.strip (decode_ascii_ignore (payload info)))
                              mimetype_expected) as [Hc|Hc];
      destruct (is_first names);
      destruct (Z.eqb_spec (compress_type info) ZIP_STORED) as [Hz|Hz];
      simpl; rewrite ?NoDup_cons, ?elem_of_cons, ?elem_of_nil;
      split_and!; try apply NoDup_nil_2; intuition congruence.
  - intros info e Hin Hinfo Hread.
    unfold mimetype_check, zip_getinfo, read_text_from_zip, zip_read.
    by rewrite bool_decide_true, Hinfo, Hread by done.
Qed.

Example mimetype_check_samples :
  mimetype_check "tran" Samples.repacked (zip_namelist_files Samples.repacked)
  = Returns ["[tran] mimetype content: 'application/epub+zip', first=False, compress_type=8";
             "[tran] ERROR: mimetype is not first";
             "[tran] ERROR: mimetype must be STORED (no compression)"]
  ∧ mimetype_check "orig" (Samples.book "OEBPS/content.opf" Samples.opf_xml)
      (zip_namelist_files (Samples.book "OEBPS/content.opf" Samples.opf_xml))
    = Returns ["[orig] mimetype content: 'application/epub+zip', first=True, compress_type=0"].
Proof. split; reflexivity. Qed.

(** ** The closing summary *)

Lemma nonempty_false {A} (l : list A) : nonempty l = false ↔ l = [].
Proof. by destruct l. Qed.

Lemma opf_clean_spec opf_o opf_t locals c :
  opf_clean opf_o opf_t locals = Returns c →
  (c = true ↔ structures_clean opf_o opf_t locals).
Proof.
  unfold opf_clean, structures_clean.
  destruct opf_o as [o|]; [| intros [= <-]; split; auto].
  destruct locals as [l|]; simpl; [| done].
  destruct (nonempty (man_missing l)) eqn:Hm; simpl.
  { intros [= <-]. split; [done |].
    intros [?|(? & ? & ? & _ & _ & [= <-] & E & _)]; [done |].
    apply nonempty_false in E. congruence. }
  destruct (nonempty (man_extra l)) eqn:He; simpl.
  { intros [= <-]. split; [done |].
    intros [?|(? & ? & ? & _ & _ & [= <-] & _ & E & _)]; [done |].
    apply nonempty_false in E. congruence. }
  destruct (Z.eqb_spec (diff_idx l) (-1)) as [Hd|Hd]; simpl.
  2: { intros [= <-]. split; [done |].
       intros [?|(? & ? & ? & _ & _ & [= <-] & _ & _ & E & _)]; [done | congruence]. }
  destruct opf_t as [t|]; [| done].
  apply nonempty_false in Hm, He.
  intros [= <-]. rewrite andb_true_iff, !Nat.eqb_eq. split.
  - intros [? ?]. right. exists o, t, l. done.
  - intros [?|(? & ? & ? & [= <-] & [= <-] & _ & _ & _ & _ & ? & ?)]; done.
Qed.

Lemma hint_condition_spec missing extra opf_o_rel opf_t_rel opf_o opf_t locals
    non_html c :
  hint_condition missing extra opf_o_rel opf_t_rel opf_o opf_t locals non_html
  = Returns c →
  (c = true ↔
   missing = [] ∧ extra = [] ∧ opf_o_rel = opf_t_rel
   ∧ structures_clean opf_o opf_t locals ∧ non_html = []).
Proof.
  unfold hint_condition.
  destruct (nonempty missing) eqn:Hm; simpl.
  { intros [= <-]. split; [done |]. intros (E & _).
    apply nonempty_false in E. congruence. }
  destruct (nonempty extra) eqn:He; simpl.
  { intros [= <-]. split; [done |]. intros (_ & E & _).
    apply nonempty_false in E. congruence. }
  case_bool_decide as Hrel; simpl.
  2: { intros [= <-]. split; [done |]. intros (_ & _ & ? & _). done. }
  destruct (opf_clean opf_o opf_t locals) as [c'|] eqn:Hc; simpl; [| done].
  apply opf_clean_spec in Hc. apply nonempty_false in Hm, He.
  intros [= <-]. rewrite andb_true_iff, negb_true_iff, nonempty_false, Hc. tauto.
Qed.

(** The condition is not evaluated to the end for every input: with an
    original package document and none on the translated side, equal
    file sets and equal rootfile paths, it reads a name that was never
    bound. *)
Lemma hint_condition_unbound (o : OPF) (rel : option string) (non_html : list string) :
  hint_condition [] [] rel rel (Some o) None None non_html
  = Raises (UnboundLocalError "man_missing").
Proof. unfold hint_condition. simpl. by rewrite bool_decide_true. Qed.

Lemma elem_of_if_singleton (b : bool) (x y : string) :
  y ∈ (if b then [x] else []) ↔ b = true ∧ y = x.
Proof.
  destruct b.
  - rewrite list_elem_of_singleton. tauto.
  - rewrite elem_of_nil. split; [done | intros [? _]; done].
Qed.

Lemma hint_not_in_summary_opf_lines o t l : line_hint ∉ summary_opf_lines o t l.
Proof.
  unfold summary_opf_lines. rewrite !elem_of_app, !elem_of_if_singleton.
  intros [(_ & E)|[(_ & E)|(_ & E)]];
    cbv [line_hint String.append] in E; discriminate E.
Qed.

(** The services are not consulted on this input: any parser and any
    codec give the report below. *)
Lemma repacked_report (ET_fromstring : string → option Element)
    (decode_utf8 : string → string) :
  report_lines ET_fromstring decode_utf8 "orig.epub" "tran.epub"
               Samples.repacked Samples.repacked
  = Returns
      ["ORIG: orig.epub"; "TRAN: tran.epub"; "== FILE COUNTS ==";
       "orig files: 2"; "tran files: 2";
       "[orig] mimetype content: 'application/epub+zip', first=False, compress_type=8";
       "[orig] ERROR: mimetype is not first";
       "[orig] ERROR: mimetype must be STORED (no compression)";
       "[tran] mimetype content: 'application/epub+zip', first=False, compress_type=8";
       "[tran] ERROR: mimetype is not first";
       "[tran] ERROR: mimetype must be STORED (no compression)";
       "== OPF PATHS =="; "orig OPF: None"; "tran OPF: None";
       "== COMMON FILE CONTENT DIFF (first 50) =="; "no content diffs";
       "== SUMMARY =="; line_hint].
Proof. vm_compute. reflexivity. Qed.

(** C4 as stated fails: two copies of an archive whose mimetype entry is
    neither first nor stored get four mimetype errors and the hint. *)
Lemma C4_counterexample :
  report_lines Samples.fromstring Samples.decode "orig.epub" "tran.epub"
               Samples.repacked Samples.repacked
  = Returns
      ["ORIG: orig.epub"; "TRAN: tran.epub"; "== FILE COUNTS ==";
       "orig files: 2"; "tran files: 2";
       "[orig] mimetype content: 'application/epub+zip', first=False, compress_type=8";
       "[orig] ERROR: mimetype is not first";
       "[orig] ERROR: mimetype must be STORED (no compression)";
       "[tran] mimetype content: 'application/epub+zip', first=False, compress_type=8";
       "[tran] ERROR: mimetype is not first";
       "[tran] ERROR: mimetype must be STORED (no compression)";
       "== OPF PATHS =="; "orig OPF: None"; "tran OPF: None";
       "== COMMON FILE CONTENT DIFF (first 50) =="; "no content diffs";
       "== SUMMARY =="; line_hint].
Proof. apply repacked_report. Qed.

(** C4, amended. When the summary is produced, it carries the hint exactly
    when no file is missing or extra, the two rootfile paths are equal, no
    changed file is in the non-markup bucket, and either the original has
    no parsed package document or both sides have one and their manifest
    sets, media types and reading orders (length and first divergence) do
    not differ. Mimetype findings and unresolved manifest references are
    not consulted. *)
Theorem C4_summary_hint (missing extra : list string)
    (opf_o_rel opf_t_rel : option string) (opf_o opf_t : option OPF)
    (locals : option opf_locals) (non_html_changed html_issues lines : list string) :
  summary missing extra opf_o_rel opf_t_rel opf_o opf_t locals
          non_html_changed html_issues = Returns lines →
  (line_hint ∈ lines ↔
   missing = [] ∧ extra = [] ∧ opf_o_rel = opf_t_rel
   ∧ structures_clean opf_o opf_t locals ∧ non_html_changed = []).
Proof.
  unfold summary.
  set (opf_part := match opf_o, opf_t with
                   | Some o, Some t => _
                   | _, _ => _
                   end).
  assert (∀ ls, opf_part = Returns ls → line_hint ∉ ls) as Hopf.
  { subst opf_part. intros ls. destruct opf_o as [o|], opf_t as [t|];
      try (intros [= <-]; apply not_elem_of_nil).
    destruct locals as [l|]; simpl; [| done].
    intros [= <-]. apply hint_not_in_summary_opf_lines. }
  destruct opf_part as [opf_lines|]; simpl; [| done].
  specialize (Hopf _ eq_refl).
  destruct (hint_condition _ _ _ _ _ _ _ _) as [emit|] eqn:Hc; simpl; [| done].
  apply hint_condition_spec in Hc. intros [= <-]. rewrite <- Hc.
  rewrite elem_of_cons, !elem_of_app, !elem_of_if_singleton.
  split; [| tauto].
  intros [E|[(_ & E)|[(_ & E)|[?|[(_ & E)|[(_ & E)|(? & _)]]]]]]; try done;
    cbv [line_hint String.append] in E; discriminate E.
Qed.

(** The summary of two identical parsed books with one markup finding. *)
Lemma C4_summary_hint_witness :
  line_hint ∈ ["== SUMMARY ==";
               "HTML/XHTML issues detected (see above).";
               line_hint]
  ↔ @nil string = [] ∧ @nil string = []
    ∧ Some "OEBPS/content.opf" = Some "OEBPS/content.opf"
    ∧ structures_clean (Some Samples.sample_opf) (Some Samples.sample_opf)
                       (Some (mkLocals [] [] (-1)))
    ∧ @nil string = [].
Proof.
  apply (C4_summary_hint [] [] (Some "OEBPS/content.opf") (Some "OEBPS/content.opf")
           (Some Samples.sample_opf) (Some Samples.sample_opf)
           (Some (mkLocals [] [] (-1))) []
           ["OEBPS/ch1.xhtml: unescaped & found"]).
  vm_compute. reflexivity.
Defined.

(** ** Exceptions that leave [compare_epub] *)

(** C7, on an input the claim covers. Both archives open, and the call
    raises: the listing test for the mimetype entry looks at normalized
    names, the lookup that follows at the stored ones. No parser or codec
    is consulted before that. *)
Theorem C7_compare_epub_raises (ET_fromstring : string → option Element)
    (decode_utf8 : string → string) :
  Samples.files Samples.dotted Samples.dotted "orig.epub" = Some Samples.dotted
  ∧ Samples.files Samples.dotted Samples.dotted "tran.epub" = Some Samples.dotted
  ∧ zip_namelist_files Samples.dotted = ["mimetype"; "ch1.xhtml"]
  ∧ compare_epub ET_fromstring decode_utf8
                 (Samples.files Samples.dotted Samples.dotted) "orig.epub" "tran.epub"
    = Raises (KeyError "mimetype").
Proof. split_and!; vm_compute; reflexivity. Qed.

(** Two more ways out, on the sample documents: a package document whose
    root element is in no namespace, and a translated archive that stores
    its package document under a backslash name. *)
Example compare_epub_bare_package :
  compare_epub Samples.fromstring Samples.decode
    (Samples.files (Samples.book "OEBPS/content.opf" Samples.bare_opf_xml)
                   (Samples.book "OEBPS/content.opf" Samples.bare_opf_xml))
    "orig.epub" "tran.epub"
  = Raises (SyntaxError "prefix 'opf' not found in prefix map").
Proof. vm_compute. reflexivity. Qed.

Example compare_epub_backslash_package :
  compare_epub Samples.fromstring Samples.decode
    (Samples.files (Samples.book "OEBPS/content.opf" Samples.opf_xml)
                   (Samples.book "OEBPS\content.opf" Samples.opf_xml))
    "orig.epub" "tran.epub"
  = Raises (UnboundLocalError "man_missing").
Proof. vm_compute. reflexivity. Qed.

(** A run that does return, for comparison. *)
Example compare_epub_identical_books :
  report_lines Samples.fromstring Samples.decode "orig.epub" "tran.epub"
    (Samples.book "OEBPS/content.opf" Samples.opf_xml)
    (Samples.book "OEBPS/content.opf" Samples.opf_xml)
  = Returns
      ["ORIG: orig.epub"; "TRAN: tran.epub"; "== FILE COUNTS ==";
       "orig files: 5"; "tran files: 5";
       "[orig] mimetype content: 'application/epub+zip', first=True, compress_type=0";
       "[tran] mimetype content: 'application/epub+zip', first=True, compress_type=0";
       "== OPF PATHS =="; "orig OPF: OEBPS/content.opf"; "tran OPF: OEBPS/content.opf";
       "SPINE length: 1 vs 1"; "FIRST SPINE DIFF INDEX: -1";
       "== COMMON FILE CONTENT DIFF (first 50) =="; "no content diffs";
       "== SUMMARY =="; line_hint].
Proof. vm_compute. reflexivity. Qed.

(** ** The archive listing *)

Lemma all_chars_map_chars (p : ascii → bool) (f : ascii → ascii) s :
  (∀ c, p (f c) = true) → Py.all_chars p (Py.map_chars f s) = true.
Proof.
  intros Hf. induction s as [|c s IH]; simpl; [done |]. by rewrite Hf, IH.
Qed.

Lemma all_chars_replace_backslash s :
  Py.all_chars not_backslash (Py.replace_char "\" "/" s) = true.
Proof.
  apply all_chars_map_chars. intros c. unfold not_backslash.
  destruct (Ascii.eqb_spec c "\"); [done |].
  by apply negb_true_iff, Ascii.eqb_neq.
Qed.

Lemma all_chars_lstrip p s :
  Py.all_chars p s = true → Py.all_chars p (Py.lstrip s) = true.
Proof.
  induction s as [|c s IH]; simpl; [done |].
  intros [? ?]%andb_true_iff. destruct (Py.isspace c); [auto |].
  simpl. by apply andb_true_iff.
Qed.

Lemma all_chars_rstrip p s :
  Py.all_chars p s = true → Py.all_chars p (Py.rstrip s) = true.
Proof.
  induction s as [|c s IH]; simpl; [done |].
  intros [Hc Hs]%andb_true_iff. specialize (IH Hs).
  destruct (Py.rstrip s); [destruct (Py.isspace c); simpl; [done | by rewrite Hc] |].
  change (p c && Py.all_chars p (String a s0) = true). by rewrite Hc.
Qed.

Lemma all_chars_drop p n s :
  Py.all_chars p s = true → Py.all_chars p (Py.drop_chars n s) = true.
Proof.
  revert s. induction n as [|n IH]; intros [|c s]; simpl; try done.
  intros [_ ?]%andb_true_iff. by apply IH.
Qed.

Lemma all_chars_normalize_str n :
  Py.all_chars not_backslash (normalize_str n) = true.
Proof.
  unfold normalize_str.
  assert (Py.all_chars not_backslash
            (Py.strip (Py.replace_char "\" "/" (PosixPath.normpath n))) = true) as H.
  { apply all_chars_rstrip, all_chars_lstrip, all_chars_replace_backslash. }
  destruct (Py.startswith _ "./"); [by apply all_chars_drop | done].
Qed.

Lemma all_chars_no_backslash s :
  Py.all_chars not_backslash s = true → Py.contains "\" s = false.
Proof.
  induction s as [|c s IH]; [done |].
  cbn [Py.all_chars Py.contains String.prefix].
  intros [Hc Hs]%andb_true_iff. rewrite (IH Hs), orb_false_r.
  unfold not_backslash in Hc. apply negb_true_iff, Ascii.eqb_neq in Hc.
  destruct (ascii_dec "\" c); [congruence | done].
Qed.

(** The two parts of the listing property that hold for every archive:
    a listed path is the normalized name of a member whose name does not
    end in a slash, and it has no backslash. *)
Lemma listing_skips_directory_entries (z : ZipFile) (p : string) :
  p ∈ zip_namelist_files z →
  ∃ n, n ∈ namelist z ∧ Py.endswith n "/" = false ∧ p = normalize_path (Some n).
Proof.
  unfold zip_namelist_files. intros (n & -> & Hn)%list_elem_of_fmap.
  apply list_elem_of_filter in Hn as [Hd Hn].
  exists n. split_and!; [done | | done].
  by destruct (Py.endswith n "/").
Qed.

Lemma listing_has_no_backslash (z : ZipFile) (p : string) :
  p ∈ zip_namelist_files z → Py.contains "\" p = false.
Proof.
  intros (n & _ & _ & ->)%listing_skips_directory_entries.
  apply all_chars_no_backslash, all_chars_normalize_str.
Qed.

(** Directory entries are told by the slash that ends their stored name: a
    name that ends in a backslash is listed, with a slash in its place. *)
Example listing_keeps_backslash_directory :
  zip_namelist_files [mkZipInfo "OEBPS\" 0 ""; mkZipInfo "META-INF/" 0 ""] = ["OEBPS/"].
Proof. reflexivity. Qed.

(** C9, on an input the claim covers. A member stored under a name with
    two backslash-separated dot segments is listed with a leading [./]:
    [normpath] leaves the backslashes alone, the replacement turns them
    into slashes, and one leading [./] is removed, not every one. *)
Theorem C9_leading_dot_slash_remains :
  PosixPath.normpath ".\.\ch1.xhtml" = ".\.\ch1.xhtml"
  ∧ normalize_path (Some ".\.\ch1.xhtml") = "./ch1.xhtml"
  ∧ zip_namelist_files [mkZipInfo ".\.\ch1.xhtml" 8 Samples.chapter_xml]
    = ["./ch1.xhtml"]
  ∧ Py.startswith "./ch1.xhtml" "./" = true.
Proof. split_and!; reflexivity. Qed.

Example normalize_path_samples :
  normalize_path (Some "./OEBPS//text/../ch1.xhtml ") = "OEBPS/ch1.xhtml"
  ∧ normalize_path (Some " OEBPS\ch1.xhtml ") = "OEBPS/ch1.xhtml"
  ∧ normalize_path (Some ".\ch1.xhtml") = "ch1.xhtml"
  ∧ normalize_path (Some "") = "."
  ∧ normalize_path None = "".
Proof. split_and!; reflexivity. Qed.

(** * Further properties *)

(** ** Ordering of the difference lists *)

Lemma ascii_compare_eq a b : Ascii.compare a b = Eq ↔ a = b.
Proof.
  split; [apply Ascii.compare_eq_iff |]. intros ->. unfold Ascii.compare. apply N.compare_refl.
Qed.

Lemma string_compare_le_trans s1 s2 s3 :
  String.compare s1 s2 ≠ Gt → String.compare s2 s3 ≠ Gt → String.compare s1 s3 ≠ Gt.
Proof.
  revert s2 s3. induction s1 as [|a s1 IH]; intros [|b s2] [|c s3]; simpl; try done.
  destruct (Ascii.compare a b) eqn:Hab; [| |done].
  - apply ascii_compare_eq in Hab as ->.
    destruct (Ascii.compare b c) eqn:Hbc; [| done | done]. apply IH.
  - intros _. destruct (Ascii.compare b c) eqn:Hbc; [| |done].
    + apply ascii_compare_eq in Hbc as <-. by rewrite Hab.
    + intros _. unfold Ascii.compare in *. 
      apply N.compare_lt_iff in Hab, Hbc.
      pose proof (N.lt_trans _ _ _ Hab Hbc) as H.
      apply N.compare_lt_iff in H. by rewrite H.
Qed.

#[global] Instance str_le_trans : Transitive str_le.
Proof.
  intros s1 s2 s3. unfold str_le, String.leb. 
  pose proof (string_compare_le_trans s1 s2 s3) as H.
  destruct (String.compare s1 s2), (String.compare s2 s3), (String.compare s1 s3);
    simpl; try done; intros _ _; exfalso; by apply H.
Qed.

#[global] Instance str_le_total : Total str_le.
Proof.
  intros a b. unfold str_le. destruct (String.leb_total a b) as [->| ->]; [by left | by right].
Qed.

#[global] Instance str_le_antisym : AntiSymm (=) str_le.
Proof.
  intros a b Ha Hb. unfold str_le in *. apply String.leb_antisym; by apply Is_true_true.
Qed.

Lemma sorted_strongly (s : gset string) : StronglySorted str_le (sorted s).
Proof. apply StronglySorted_merge_sort; apply _. Qed.

Lemma sorted_nodup (s : gset string) : NoDup (sorted s).
Proof. unfold sorted. rewrite merge_sort_Permutation. apply NoDup_elements. Qed.

Lemma sorted_nil_iff (s : gset string) : sorted s = [] ↔ s = ∅.
Proof.
  split.
  - intros H. apply set_eq. intros p. rewrite <- elem_of_sorted, H.
    rewrite elem_of_nil. split; [done |]. apply not_elem_of_empty.
  - intros ->. unfold sorted. by rewrite elements_empty.
Qed.

Lemma listing_nil_iff header cap (l : list string) : listing header cap l = [] ↔ l = [].
Proof. by destruct l. Qed.

(** X1. The lists of missing and of extra files are each in ascending
    order and free of repetitions, and no path is in both. *)
Theorem X1_ordering_of_file_set_diff (set_o set_t : gset string) :
  StronglySorted str_le (fst (file_set_diff set_o set_t))
  ∧ NoDup (fst (file_set_diff set_o set_t))
  ∧ StronglySorted str_le (snd (file_set_diff set_o set_t))
  ∧ NoDup (snd (file_set_diff set_o set_t))
  ∧ (∀ p, p ∈ fst (file_set_diff set_o set_t) → p ∉ snd (file_set_diff set_o set_t)).
Proof.
  unfold file_set_diff; simpl.
  split_and!; try apply sorted_strongly; try apply sorted_nodup.
  intros p. rewrite !elem_of_sorted, !elem_of_difference. tauto.
Qed.

(** X2. The report has no line about missing or extra files exactly
    when the two archives list the same set of paths. *)
Theorem X2_file_set_lines_empty (set_o set_t : gset string) :
  file_set_lines (fst (file_set_diff set_o set_t)) (snd (file_set_diff set_o set_t)) = []
  ↔ set_o = set_t.
Proof.
  unfold file_set_diff, file_set_lines; simpl. split.
  - intros [Hm He]%app_eq_nil. apply listing_nil_iff, sorted_nil_iff in Hm, He.
    apply set_eq. intros p.
    assert (p ∉ set_o ∖ set_t) as H1 by (rewrite Hm; apply not_elem_of_empty).
    assert (p ∉ set_t ∖ set_o) as H2 by (rewrite He; apply not_elem_of_empty).
    rewrite elem_of_difference in H1, H2.
    destruct (decide (p ∈ set_o)), (decide (p ∈ set_t)); tauto.
  - intros ->. rewrite difference_diag_L. unfold sorted. by rewrite elements_empty.
Qed.

Lemma spine_scan_sym o t r : spine_scan o t r = spine_scan t o r.
Proof.
  induction r as [|i r IH]; simpl; [done |]. rewrite IH.
  repeat case_bool_decide; congruence.
Qed.

Lemma spine_scan_cons a o t s n :
  spine_scan (a :: o) (a :: t) (seq (S s) n) = shift_index 1 (spine_scan o t (seq s n)).
Proof.
  revert s. induction n as [|n IH]; intros s; simpl; [done |].
  rewrite IH. repeat case_bool_decide; try done.
  unfold shift_index. destruct (Z.eqb_spec (Z.of_nat s) (-1)); lia.
Qed.

Lemma first_spine_diff_cons a o t :
  first_spine_diff (a :: o) (a :: t) = shift_index 1 (first_spine_diff o t).
Proof.
  unfold first_spine_diff. simpl. rewrite bool_decide_false by (intros H; by apply H).
  apply spine_scan_cons.
Qed.

Lemma spine_scan_lower o t r : (-1 ≤ spine_scan o t r)%Z.
Proof.
  induction r as [|i r IH]; simpl; [done |]. case_bool_decide; lia.
Qed.

Lemma shift_index_succ (n : nat) (d : Z) :
  (-1 ≤ d)%Z → shift_index 1 (shift_index n d) = shift_index (S n) d.
Proof.
  intros Hd. unfold shift_index.
  destruct (Z.eqb_spec d (-1)) as [->|Hne]; [done |].
  destruct (Z.eqb_spec (Z.of_nat n + d) (-1)); lia.
Qed.

(** X3. The first reading-order difference does not depend on which
    sequence is called the original; a common leading part of length [n]
    moves the index by [n] and leaves [-1] alone; a sequence never differs
    from itself. *)
Theorem X3_first_spine_diff_compose (k o t : list string) :
  first_spine_diff o t = first_spine_diff t o
  ∧ first_spine_diff (k ++ o) (k ++ t) = shift_index (length k) (first_spine_diff o t)
  ∧ first_spine_diff o o = (-1)%Z.
Proof.
  split_and!.
  - unfold first_spine_diff. rewrite Nat.min_comm. apply spine_scan_sym.
  - induction k as [|a k IH].
    + unfold shift_index. simpl.
      destruct (Z.eqb_spec (first_spine_diff o t) (-1)); lia.
    + cbn [app length]. rewrite first_spine_diff_cons, IH.
      apply shift_index_succ, spine_scan_lower.
  - unfold first_spine_diff. apply spine_scan_none. done.
Qed.

(** ** The content loop and the validator loop *)

Lemma record_change_invariant zt acc p b_o b_t :
  zip_read zt p = Returns b_t →
  diff_invariant zt acc → diff_invariant zt (record_change acc p b_o b_t).
Proof.
  intros Ht [Hlen Hblob]. unfold record_change.
  destruct (String.eqb b_o b_t); [done |].
  destruct (negb (has_markup_extension p) && negb (String.eqb p "mimetype")); split; simpl.
  - rewrite !length_app. simpl. lia.
  - done.
  - rewrite !length_app. simpl. lia.
  - intros q b. rewrite lookup_insert, elem_of_app, list_elem_of_singleton.
    case_decide as Hq.
    + subst q. rewrite Ht. split; [intros [= ->]; auto | intros [_ [= ->]]; done].
    + rewrite Hblob. split; [intros [? ?]; auto | intros [[?|?] ?]; [done | congruence]].
Qed.

Lemma content_step_invariant zo zt acc acc' p :
  content_step zo zt acc p = Returns acc' →
  diff_invariant zt acc → diff_invariant zt acc'.
Proof.
  intros [(b_o & b_t & _ & Ht & ->)|(-> & _)]%content_step_Returns Hinv; [| done].
  by apply record_change_invariant.
Qed.

Lemma content_fold_invariant zo zt l acc d :
  for_each (content_step zo zt) l acc = Returns d →
  diff_invariant zt acc → diff_invariant zt d.
Proof.
  revert acc. induction l as [|p l IH]; intros acc; simpl.
  - by intros [= <-].
  - intros (acc' & Hstep & Hrest)%bind_Returns_inv Hinv.
    eapply IH; [exact Hrest |]. by eapply content_step_invariant.
Qed.

Lemma content_diff_invariant zo zt l d :
  content_diff zo zt l = Returns d → diff_invariant zt d.
Proof.
  intros Hd. eapply content_fold_invariant; [exact Hd |]. split; [done |].
  intros p b. simpl. rewrite lookup_empty, elem_of_nil. split; [done | intros [? _]; done].
Qed.

Lemma record_change_sublists acc p b_o b_t l :
  non_html_changed acc `sublist_of` l → changed_html_paths acc `sublist_of` l →
  non_html_changed (record_change acc p b_o b_t) `sublist_of` l ++ [p]
  ∧ changed_html_paths (record_change acc p b_o b_t) `sublist_of` l ++ [p].
Proof.
  intros Hn Hh. unfold record_change.
  destruct (String.eqb b_o b_t); [split; by apply sublist_inserts_r |].
  destruct (negb (has_markup_extension p) && negb (String.eqb p "mimetype")); simpl; split;
    try (by apply sublist_inserts_r); by apply sublist_app.
Qed.

Lemma content_step_sublists zo zt acc acc' p l :
  content_step zo zt acc p = Returns acc' →
  non_html_changed acc `sublist_of` l → changed_html_paths acc `sublist_of` l →
  non_html_changed acc' `sublist_of` l ++ [p]
  ∧ changed_html_paths acc' `sublist_of` l ++ [p].
Proof.
  intros [(b_o & b_t & _ & _ & ->)|(-> & _)]%content_step_Returns Hn Hh.
  - by apply record_change_sublists.
  - split; by apply sublist_inserts_r.
Qed.

Lemma content_fold_sublists zo zt l done_ acc d :
  for_each (content_step zo zt) l acc = Returns d →
  non_html_changed acc `sublist_of` done_ → changed_html_paths acc `sublist_of` done_ →
  non_html_changed d `sublist_of` done_ ++ l
  ∧ changed_html_paths d `sublist_of` done_ ++ l.
Proof.
  revert done_ acc. induction l as [|p l IH]; intros done_ acc; simpl.
  - intros [= <-] Hn Hh. by rewrite app_nil_r.
  - intros (acc' & Hstep & Hrest)%bind_Returns_inv Hn Hh.
    destruct (content_step_sublists zo zt acc acc' p done_ Hstep Hn Hh) as [Hn' Hh'].
    specialize (IH (done_ ++ [p]) _ Hrest Hn' Hh'). by rewrite <- app_assoc in IH.
Qed.

(** X4. When the content loop comes to its end, it has printed one line
    per changed path and put that path in exactly one of the two buckets:
    the lengths add up, each bucket is a subsequence of the common paths
    in their order, and no path is in both. *)
Theorem X4_content_diff_buckets (zo zt : ZipFile) (common_all : list string)
    (d : diff_acc) :
  content_diff zo zt common_all = Returns d →
  length (changed d) = length (non_html_changed d) + length (changed_html_paths d)
  ∧ non_html_changed d `sublist_of` common_all
  ∧ changed_html_paths d `sublist_of` common_all
  ∧ (∀ p, p ∈ non_html_changed d → p ∉ changed_html_paths d).
Proof.
  intros Hd. split_and!.
  - by apply (content_diff_invariant zo zt common_all).
  - by apply (content_fold_sublists zo zt common_all [] (mkDiff [] [] [] ∅)).
  - by apply (content_fold_sublists zo zt common_all [] (mkDiff [] [] [] ∅)).
  - intros p Hn Hh.
    destruct (content_fold_buckets zo zt common_all (mkDiff [] [] [] ∅) d p Hd) as [H1 H2].
    apply H1 in Hn as [Hn|(_ & _ & Hm & Hq)]; [by apply elem_of_nil in Hn |].
    apply H2 in Hh as [Hh|(_ & _ & [?|?])]; [by apply elem_of_nil in Hh | congruence | done].
Qed.

(** X4 at the sample book and its edited copy. *)
Lemma X4_content_diff_buckets_witness :
  ∃ d, content_diff (Samples.book "OEBPS/content.opf" Samples.opf_xml) Samples.edited
         Samples.common = Returns d
       ∧ length (changed d) = length (non_html_changed d) + length (changed_html_paths d)
       ∧ non_html_changed d `sublist_of` Samples.common
       ∧ changed_html_paths d `sublist_of` Samples.common
       ∧ (∀ p, p ∈ non_html_changed d → p ∉ changed_html_paths d).
Proof.
  eexists. split; [reflexivity |].
  apply (X4_content_diff_buckets (Samples.book "OEBPS/content.opf" Samples.opf_xml)
           Samples.edited Samples.common).
  reflexivity.
Defined.

Lemma changed_nil_iff zo zt l d :
  content_diff zo zt l = Returns d →
  changed d = [] ↔ ∀ p, p ∈ l → ¬ content_changed zo zt p.
Proof.
  intros Hd.
  destruct (content_diff_invariant zo zt l d Hd) as [Hlen _].
  assert (∀ p, (p ∈ non_html_changed d ↔
                  p ∈ l ∧ content_changed zo zt p
                  ∧ has_markup_extension p = false ∧ p ≠ "mimetype")
               ∧ (p ∈ changed_html_paths d ↔
                  p ∈ l ∧ content_changed zo zt p
                  ∧ (has_markup_extension p = true ∨ p = "mimetype"))) as Hb.
  { intros p.
    destruct (content_fold_buckets zo zt l (mkDiff [] [] [] ∅) d p Hd) as [H1 H2].
    simpl in H1, H2. rewrite H1, H2, elem_of_nil. tauto. }
  split.
  - intros E p Hp Hc. rewrite E in Hlen. simpl in Hlen.
    destruct (Hb p) as [H1 H2].
    destruct (has_markup_extension p) eqn:Hm.
    + assert (p ∈ changed_html_paths d) as Hin by (apply H2; auto).
      destruct (changed_html_paths d); [by apply elem_of_nil in Hin |].
      simpl in Hlen. lia.
    + destruct (decide (p = "mimetype")) as [Hq|Hq].
      * assert (p ∈ changed_html_paths d) as Hin by (apply H2; auto).
        destruct (changed_html_paths d); [by apply elem_of_nil in Hin |].
        simpl in Hlen. lia.
      * assert (p ∈ non_html_changed d) as Hin by (apply H1; auto).
        destruct (non_html_changed d); [by apply elem_of_nil in Hin |].
        simpl in Hlen. lia.
  - intros Hno.
    assert (non_html_changed d = []) as En.
    { destruct (non_html_changed d) as [|p ?] eqn:E; [done |].
      destruct (Hb p) as [H1 _]. rewrite ?E in H1.
      destruct (proj1 H1 ltac:(left)) as (Hp & Hc & _). by apply Hno in Hc. }
    assert (changed_html_paths d = []) as Eh.
    { destruct (changed_html_paths d) as [|p ?] eqn:E; [done |].
      destruct (Hb p) as [_ H2]. rewrite ?E in H2.
      destruct (proj1 H2 ltac:(left)) as (Hp & Hc & _). by apply Hno in Hc. }
    rewrite En, Eh in Hlen. by destruct (changed d).
Qed.

(** X5. When the content loop comes to its end, no change line was
    produced exactly when no common path has differing payloads; the
    section then consists of the single line [no content diffs], as it
    does for an archive compared with itself. *)
Theorem X5_content_diff_none (zo zt : ZipFile) (common_all : list string)
    (d : diff_acc) :
  content_diff zo zt common_all = Returns d →
  (changed d = [] ↔ ∀ p, p ∈ common_all → ¬ content_changed zo zt p)
  ∧ (changed d = [] → content_lines d = ["no content diffs"])
  ∧ (zo = zt → content_lines d = ["no content diffs"]).
Proof.
  intros Hd. split_and!.
  - by apply changed_nil_iff.
  - intros E. unfold content_lines. by rewrite E.
  - intros ->. unfold content_lines.
    rewrite (proj2 (changed_nil_iff zt zt common_all d Hd)); [done |].
    intros p _ (b1 & b2 & H1 & H2 & Hne). congruence.
Qed.

(** X5 at the sample book compared with itself. *)
Lemma X5_content_diff_none_witness :
  ∃ d, content_diff (Samples.book "OEBPS/content.opf" Samples.opf_xml)
         (Samples.book "OEBPS/content.opf" Samples.opf_xml) Samples.common = Returns d
       ∧ (changed d = [] ↔
          ∀ p, p ∈ Samples.common →
               ¬ content_changed (Samples.book "OEBPS/content.opf" Samples.opf_xml)
                   (Samples.book "OEBPS/content.opf" Samples.opf_xml) p)
       ∧ (changed d = [] → content_lines d = ["no content diffs"])
       ∧ (Samples.book "OEBPS/content.opf" Samples.opf_xml
          = Samples.book "OEBPS/content.opf" Samples.opf_xml →
          content_lines d = ["no content diffs"]).
Proof.
  eexists. split; [reflexivity |].
  apply (X5_content_diff_none (Samples.book "OEBPS/content.opf" Samples.opf_xml)
           (Samples.book "OEBPS/content.opf" Samples.opf_xml) Samples.common).
  reflexivity.
Defined.

Lemma html_issues_of_returns decode_utf8 zip_names (blobs : gmap string string) paths :
  (∀ p, p ∈ paths → is_Some (blobs !! p)) →
  ∃ issues,
    html_issues_of decode_utf8 zip_names blobs paths = Returns issues
    ∧ Forall (λ line, ∃ p msg, p ∈ paths ∧ line = p +:+ ": " +:+ msg) issues.
Proof.
  induction paths as [|p paths IH]; intros Hb; simpl.
  - eexists. split; [reflexivity | constructor].
  - destruct (Hb p ltac:(left)) as [b Hp].
    destruct IH as (more & Hmore & Hall).
    { intros q Hq. apply Hb. by right. }
    unfold document_issues. rewrite Hp. simpl. rewrite Hmore. simpl.
    eexists. split; [reflexivity |]. apply Forall_app. split.
    + apply Forall_forall. intros line (msg & -> & _)%list_elem_of_fmap.
      exists p, msg. split; [left | done].
    + eapply Forall_impl; [exact Hall |]. intros line (q & msg & Hq & ->).
      exists q, msg. split; [by right | done].
Qed.

Lemma changed_blobs_lookup zo zt l d p :
  content_diff zo zt l = Returns d →
  p ∈ changed_html_paths d → is_Some (changed_blobs_t d !! p).
Proof.
  intros Hd Hp. destruct (content_diff_invariant zo zt l d Hd) as [_ Hblob].
  destruct (content_fold_buckets zo zt l (mkDiff [] [] [] ∅) d p Hd) as [_ H2].
  apply H2 in Hp as Hc. destruct Hc as [Hc|(_ & (b_o & b_t & _ & Ht & _) & _)];
    [by apply elem_of_nil in Hc |].
  exists b_t. by apply Hblob.
Qed.

(** X6. The validator loop never fails on a lookup in
    [changed_blobs_t]: for the buckets the content loop leaves when it
    comes to its end, and any sample size, it returns, and every line it
    returns is a changed markup path, a colon and a blank, and a
    finding. *)
Theorem X6_validator_loop_returns (decode_utf8 : string → string)
    (zo zt : ZipFile) (common_all : list string) (d : diff_acc)
    (zip_names : gset string) (n : nat) :
  content_diff zo zt common_all = Returns d →
  ∃ issues,
    html_issues_of decode_utf8 zip_names (changed_blobs_t d)
      (take n (changed_html_paths d))
    = Returns issues
    ∧ Forall (λ line, ∃ p msg, p ∈ changed_html_paths d ∧ line = p +:+ ": " +:+ msg)
             issues.
Proof.
  intros Hd.
  destruct (html_issues_of_returns decode_utf8 zip_names (changed_blobs_t d)
              (take n (changed_html_paths d))) as (issues & Hr & Hall).
  - intros p Hp. apply (changed_blobs_lookup zo zt common_all d p Hd).
    eapply elem_of_sublist; [exact Hp | apply sublist_take].
  - exists issues. split; [done |].
    eapply Forall_impl; [exact Hall |]. intros line (p & msg & Hp & ->).
    exists p, msg. split; [| done].
    eapply elem_of_sublist; [exact Hp | apply sublist_take].
Qed.

(** X6 at the sample book and its edited copy, for the sample size of the
    function. *)
Lemma X6_validator_loop_returns_witness :
  ∃ d, content_diff (Samples.book "OEBPS/content.opf" Samples.opf_xml) Samples.edited
         Samples.common = Returns d
       ∧ ∃ issues,
           html_issues_of Samples.decode (list_to_set Samples.common) (changed_blobs_t d)
             (take 20 (changed_html_paths d))
           = Returns issues
           ∧ Forall (λ line, ∃ p msg,
                       p ∈ changed_html_paths d ∧ line = p +:+ ": " +:+ msg) issues.
Proof.
  eexists. split; [reflexivity |].
  apply (X6_validator_loop_returns Samples.decode
           (Samples.book "OEBPS/content.opf" Samples.opf_xml) Samples.edited
           Samples.common).
  reflexivity.
Defined.

(** ** The package parser *)

Lemma manifest_step_map base acc item :
  map_in_paths acc → map_in_paths (manifest_step base acc item).
Proof.
  intros Hacc. unfold manifest_step.
  destruct (String.eqb (or_empty (ElementPath.get (attrib item) "href")) ""); [done |].
  intros p mt; simpl.
  destruct (String.eqb_spec (or_empty (ElementPath.get (attrib item) "media-type")) "")
    as [E|E].
  - intros Hp. apply Hacc in Hp as [? ?]. split; [| done]. apply elem_of_app. by left.
  - rewrite lookup_insert. case_decide.
    + intros [= <-]. subst p. split; [| done].
      apply elem_of_app. right. by apply list_elem_of_singleton.
    + intros Hp. apply Hacc in Hp as [? ?]. split; [| done]. apply elem_of_app. by left.
Qed.

Lemma manifest_fold_map base items acc :
  map_in_paths acc → map_in_paths (fold_left (manifest_step base) items acc).
Proof.
  revert acc. induction items as [|item items IH]; intros acc Hacc; simpl; [done |].
  by apply IH, manifest_step_map.
Qed.

Lemma spine_fold_nonempty (ids : gmap string string) refs spine :
  Forall (λ p, p ≠ "") spine → Forall (λ p, p ≠ "") (fold_left (spine_step ids) refs spine).
Proof.
  revert spine. induction refs as [|it refs IH]; intros spine Hs; simpl; [done |].
  apply IH. unfold spine_step.
  destruct (ids !! or_empty (ElementPath.get (attrib it) "idref")) as [[|c v]|]; simpl;
    try done.
  apply Forall_app. split; [done |]. by repeat constructor.
Qed.

(** X8. In every package [parse_opf] returns, each path with a media
    type is a manifest path and its media type is not empty, and no spine
    path is empty. *)
Theorem X8_parse_opf_result (ET_fromstring : string → option Element)
    (opf_text opf_path : string) (r : OPF) :
  parse_opf ET_fromstring opf_text opf_path = Returns r →
  (∀ p mt, manifest_map r !! p = Some mt → p ∈ manifest_paths r ∧ mt ≠ "")
  ∧ Forall (λ p, p ≠ "") (spine_paths r).
Proof.
  unfold parse_opf. destruct (ET_fromstring opf_text) as [doc|].
  - unfold parse_opf_doc.
    destruct (findall_or_bare _ "manifest" "item" doc) as [items|]; simpl; [|done].
    destruct (findall_or_bare _ "spine" "itemref" doc) as [refs|]; simpl; [|done].
    intros [= <-]; simpl. split.
    + apply (manifest_fold_map _ items (mkAcc [] ∅ ∅)).
      intros p mt. simpl. by rewrite lookup_empty.
    + by apply spine_fold_nonempty.
  - intros [= <-]; simpl. split; [| done]. intros p mt. by rewrite lookup_empty.
Qed.

(** X8 at the parsed sample package. *)
Lemma X8_parse_opf_result_witness :
  (∀ p mt, manifest_map Samples.sample_opf !! p = Some mt →
           p ∈ manifest_paths Samples.sample_opf ∧ mt ≠ "")
  ∧ Forall (λ p, p ≠ "") (spine_paths Samples.sample_opf).
Proof.
  apply (X8_parse_opf_result Samples.fromstring Samples.opf_xml "OEBPS/content.opf").
  vm_compute. reflexivity.
Defined.

(** ** The mimetype lookup *)

Lemma getinfo_None_iff (z : ZipFile) (name : string) :
  getinfo z name = None ↔ name ∉ namelist z.
Proof.
  induction z as [|e z IH]; simpl.
  - split; [intros _; apply not_elem_of_nil | done].
  - rewrite not_elem_of_cons. destruct (getinfo z name) eqn:Hg.
    + split; [done |]. intros [_ H]. by apply IH in H.
    + destruct (String.eqb_spec (filename e) name) as [E|E].
      * split; [done |]. intros [H _]. congruence.
      * split; [| done]. intros _. split; [congruence | by apply IH].
Qed.

(** X9. The mimetype check fails exactly when the listing it is given
    has the entry and either the archive has no member of that very name,
    and the failure is [KeyError] for [mimetype], or the member of that
    name cannot be read, and the failure is the exception of that read.
    The normalized listing has the entry as soon as some member that is no
    directory normalizes to it. *)
Theorem X9_mimetype_check_outcome (label : string) (zf : ZipFile) (names : list string) :
  (∀ e, mimetype_check label zf names = Raises e
        ↔ "mimetype" ∈ names
          ∧ ((e = KeyError "mimetype" ∧ "mimetype" ∉ namelist zf)
             ∨ ∃ info, getinfo zf "mimetype" = Some info ∧ read_error info = Some e))
  ∧ ("mimetype" ∈ zip_namelist_files zf
     ↔ ∃ n, n ∈ namelist zf ∧ Py.endswith n "/" = false
            ∧ normalize_path (Some n) = "mimetype").
Proof.
  split.
  - intros e. unfold mimetype_check, zip_getinfo, read_text_from_zip, zip_read.
    case_bool_decide as Hin.
    2: { split; [done | intros [? _]; done]. }
    destruct (getinfo zf "mimetype") as [info|] eqn:Hg; simpl.
    + assert ("mimetype" ∈ namelist zf) as Hlisted.
      { destruct (decide ("mimetype" ∈ namelist zf)) as [?|Hn]; [done |].
        apply getinfo_None_iff in Hn. congruence. }
      destruct (read_error info) as [x|] eqn:Hr; simpl.
      * split.
        -- intros [= <-]. split; [done |]. right. by exists info.
        -- intros [_ [[_ ?]|(? & [= <-] & ?)]]; [done | congruence].
      * split; [done |].
        intros [_ [[_ ?]|(? & [= <-] & ?)]]; [done | congruence].
    + apply getinfo_None_iff in Hg. split.
      * intros [= <-]. split; [done |]. by left.
      * intros [_ [[-> _]|(? & ? & _)]]; [done | done].
  - unfold zip_namelist_files. rewrite list_elem_of_fmap. split.
    + intros (n & E & Hn). apply list_elem_of_filter in Hn as [Hd Hn].
      exists n. split_and!; [done | by destruct (Py.endswith n "/") | done].
    + intros (n & Hn & Hd & E). exists n. split; [done |].
      apply list_elem_of_filter. split; [by rewrite Hd | done].
Qed.

(** ** Findings of the validator *)

Lemma msg_amp_not_other :
  msg_amp ≠ msg_xmlns ∧ (∀ n, msg_amp ≠ msg_unclosed n)
  ∧ (∀ full, msg_amp ≠ msg_missing_resource full) ∧ msg_amp ≠ msg_toc.
Proof.
  split_and!;
    cbv [msg_missing_resource msg_xmlns msg_amp msg_unclosed msg_toc dq String.append];
    discriminate.
Qed.

Lemma msg_xmlns_not_other :
  msg_xmlns ≠ msg_amp ∧ (∀ n, msg_xmlns ≠ msg_unclosed n)
  ∧ (∀ full, msg_xmlns ≠ msg_missing_resource full) ∧ msg_xmlns ≠ msg_toc.
Proof.
  split_and!;
    cbv [msg_missing_resource msg_xmlns msg_amp msg_unclosed msg_toc dq String.append];
    discriminate.
Qed.

Lemma msg_unclosed_not_other n :
  msg_unclosed n ≠ msg_xmlns ∧ msg_unclosed n ≠ msg_amp
  ∧ (∀ full, msg_unclosed n ≠ msg_missing_resource full) ∧ msg_unclosed n ≠ msg_toc.
Proof.
  split_and!;
    cbv [msg_missing_resource msg_xmlns msg_amp msg_unclosed msg_toc dq String.append];
    discriminate.
Qed.

Lemma bad_amp_nil_iff (text : string) :
  Re.bad_amp text = [] ↔
  ∀ pre rest, text = pre +:+ String "&" rest → Re.char_reference rest = true.
Proof.
  induction text as [|c text IH]; cbn [Re.bad_amp].
  - split; [| done]. intros _ [|? ?] rest; cbn [String.append]; discriminate.
  - destruct (Ascii.eqb_spec c "&") as [->|Hc]; simpl.
    + destruct (Re.char_reference text) eqn:Hr; simpl.
      * rewrite IH. split.
        -- intros H [|a pre] rest; cbn [String.append]; intros E.
           ++ injection E as <-. done.
           ++ injection E as _ E. eauto.
        -- intros H pre rest ->. apply (H (String "&" pre)). done.
      * split; [done |]. intros H. specialize (H "" text eq_refl). congruence.
    + rewrite IH. split.
      * intros H [|a pre] rest; cbn [String.append]; intros E.
        -- injection E as E _. done.
        -- injection E as _ E. eauto.
      * intros H pre rest ->. apply (H (String c pre)). done.
Qed.

(** X10. The ampersand finding is reported at most once for a document,
    however many ampersands it has, and it is absent exactly when every
    ampersand of the text starts a character or entity reference. *)
Theorem X10_ampersand_finding (path text : string) (is_xhtml : bool)
    (zip_names : gset string) :
  count (find_html_issues path text is_xhtml zip_names) msg_amp
  = (if bool_decide (Re.bad_amp text = []) then 0 else 1)
  ∧ (Re.bad_amp text = [] ↔
     ∀ pre rest, text = pre +:+ String "&" rest → Re.char_reference rest = true).
Proof.
  split; [| apply bad_amp_nil_iff].
  destruct msg_amp_not_other as (H1 & H2 & H3 & H4).
  unfold find_html_issues. rewrite !count_occ_app.
  rewrite count_xmlns_issues, count_void_issues, count_ref_issues_other,
    count_toc_issues by done.
  unfold amp_issues. destruct (Re.bad_amp text); [done |].
  rewrite bool_decide_false by done. rewrite count_singleton_eq. lia.
Qed.

Lemma count_if_singleton (b : bool) (x m : string) :
  count (if b then [x] else []) m = if b && bool_decide (x = m) then 1 else 0.
Proof.
  destruct b; simpl; [| done]. destruct (string_dec x m); by case_bool_decide.
Qed.

Lemma count_void_issues_kind text is_xhtml name :
  name ∈ ["img"; "br"; "hr"] →
  count (void_issues text is_xhtml) (msg_unclosed name)
  = if is_xhtml && Re.unclosed_tag name text then 1 else 0.
Proof.
  intros Hn. unfold void_issues. destruct is_xhtml; [| done].
  rewrite !count_occ_app, !count_if_singleton.
  repeat (apply elem_of_cons in Hn as [->|Hn]);
    [| | | by apply elem_of_nil in Hn];
    repeat (case_bool_decide as E; [try discriminate E | try done]);
    rewrite ?andb_true_r, ?andb_false_r; simpl; destruct (Re.unclosed_tag _ text); done.
Qed.

(** X11. The namespace finding and the three findings about unclosed
    void elements are each reported at most once, and only for a document
    validated as XHTML: the former when the lower-cased text has an [html]
    start and no [xmlns=] before its first closing bracket, the latter when
    the pattern of the element matches. *)
Theorem X11_strict_variant_findings (path text : string) (is_xhtml : bool)
    (zip_names : gset string) :
  count (find_html_issues path text is_xhtml zip_names) msg_xmlns
  = (if is_xhtml && Py.contains "<html" (Py.lower text)
        && negb (Py.contains "xmlns=" (Py.before_first ">" (Py.lower text)))
     then 1 else 0)
  ∧ Forall (λ name,
              count (find_html_issues path text is_xhtml zip_names) (msg_unclosed name)
              = if is_xhtml && Re.unclosed_tag name text then 1 else 0)
           ["img"; "br"; "hr"].
Proof.
  split.
  - destruct msg_xmlns_not_other as (H1 & H2 & H3 & H4).
    unfold find_html_issues. rewrite !count_occ_app.
    rewrite count_amp_issues, count_void_issues, count_ref_issues_other,
      count_toc_issues by done.
    unfold xmlns_issues. destruct (_ && _ && _); [| done].
    rewrite count_singleton_eq. lia.
  - apply Forall_forall. intros name Hn.
    destruct (msg_unclosed_not_other name) as (H1 & H2 & H3 & H4).
    unfold find_html_issues. rewrite !count_occ_app.
    rewrite count_xmlns_issues, count_amp_issues, count_ref_issues_other,
      count_toc_issues by done.
    rewrite count_void_issues_kind by done. lia.
Qed.

Lemma take_while_all p s : Py.all_chars p (Re.take_while p s) = true.
Proof.
  induction s as [|c s IH]; simpl; [done |]. destruct (p c) eqn:E; simpl; [| done].
  by rewrite E.
Qed.

Lemma attr_here_value s v n :
  Re.attr_here s = Some (v, n) →
  v ≠ "" ∧ Py.all_chars (λ c, negb (Re.is_quote c)) v = true ∧ 0 < n.
Proof.
  assert (∀ t v n, Re.quoted_value t = Some (v, n) →
            v ≠ "" ∧ Py.all_chars (λ c, negb (Re.is_quote c)) v = true) as Hq.
  { intros t v' n'. unfold Re.quoted_value. destruct t as [|q rest]; [done |].
    destruct (Re.is_quote q); [| done].
    pose proof (take_while_all (λ c, negb (Re.is_quote c)) rest) as Hall.
    destruct (Re.take_while _ rest) eqn:Ev; [done |].
    destruct (Re.drop_while _ rest); [done |]. intros [= <- <-]. done. }
  unfold Re.attr_here.
  destruct (String.prefix "src=" (Py.lower s)).
  - destruct (Re.quoted_value (Py.drop_chars 4 s)) as [[v' n']|] eqn:E; simpl; [| done].
    intros [= <- <-]. apply Hq in E as [? ?]. split_and!; [done | done | lia].
  - destruct (String.prefix "href=" (Py.lower s)); [| done].
    destruct (Re.quoted_value (Py.drop_chars 5 s)) as [[v' n']|] eqn:E; simpl; [| done].
    intros [= <- <-]. apply Hq in E as [? ?]. split_and!; [done | done | lia].
Qed.

(** X12. Every value the reference pattern captures is non-empty and
    holds no quote character of either kind. *)
Theorem X12_attribute_values (text : string) :
  Forall (λ v, v ≠ "" ∧ Py.all_chars (λ c, negb (Re.is_quote c)) v = true)
         (Re.attr_values text).
Proof.
  unfold Re.attr_values. generalize 0.
  induction text as [|c text IH]; intros skip; simpl; [done |].
  destruct skip as [|k]; [| apply IH].
  destruct (Re.attr_here (String c text)) as [[v n]|] eqn:E; [| apply IH].
  apply attr_here_value in E as (? & ? & ?). constructor; [done | apply IH].
Qed.

(** ** The summary *)

Lemma hint_condition_outcome missing extra rel_o rel_t opf_o opf_t locals non_html :
  locals_bound opf_o opf_t locals →
  (∃ c, hint_condition missing extra rel_o rel_t opf_o opf_t locals non_html = Returns c)
  ∨ (hint_condition missing extra rel_o rel_t opf_o opf_t locals non_html
     = Raises (UnboundLocalError "man_missing")
     ∧ missing = [] ∧ extra = [] ∧ rel_o = rel_t ∧ is_Some opf_o ∧ opf_t = None).
Proof.
  intros Hb. unfold hint_condition.
  destruct missing; simpl; [| eauto].
  destruct extra; simpl; [| eauto].
  case_bool_decide as Hrel; simpl; [| eauto].
  unfold opf_clean. destruct opf_o as [o|]; simpl; [| eauto].
  destruct locals as [l|]; simpl.
  - assert (is_Some (Some l)) as Hl by eauto.
    apply Hb in Hl as [_ [t ->]].
    destruct (_ || _ || _); simpl; eauto.
  - destruct opf_t as [t|].
    + assert (is_Some (@None opf_locals)) as [? [=]]. apply Hb. eauto.
    + right. split_and!; eauto.
Qed.

(** X13. When the names of the manifest block are bound as the function
    binds them, the summary fails in one situation only: no file-set
    difference, equal rootfile paths, a parsed original package and no
    translated one, where the closing condition reads the unbound name
    [man_missing]. Whenever it returns, its first line is the heading. *)
Theorem X13_summary_outcome (missing extra : list string)
    (opf_o_rel opf_t_rel : option string) (opf_o opf_t : option OPF)
    (locals : option opf_locals) (non_html_changed html_issues : list string) :
  locals_bound opf_o opf_t locals →
  (∀ e, summary missing extra opf_o_rel opf_t_rel opf_o opf_t locals
                non_html_changed html_issues = Raises e
        ↔ e = UnboundLocalError "man_missing"
          ∧ missing = [] ∧ extra = [] ∧ opf_o_rel = opf_t_rel
          ∧ is_Some opf_o ∧ opf_t = None)
  ∧ (∀ lines, summary missing extra opf_o_rel opf_t_rel opf_o opf_t locals
                      non_html_changed html_issues = Returns lines
              → ∃ rest, lines = "== SUMMARY ==" :: rest).
Proof.
  intros Hb.
  assert (∃ ls, match opf_o, opf_t with
                | Some o, Some t =>
                    l ← read_local "man_missing" locals; Returns (summary_opf_lines o t l)
                | _, _ => Returns []
                end = Returns ls) as [ls Hls].
  { destruct opf_o as [o|], opf_t as [t|]; eauto.
    assert (is_Some locals) as [l ->] by (apply Hb; eauto). simpl. eauto. }
  unfold summary. rewrite Hls. simpl.
  destruct (hint_condition_outcome missing extra opf_o_rel opf_t_rel opf_o opf_t
              locals non_html_changed Hb) as [[c Hc]|(Hc & Hrest)]; rewrite Hc; simpl.
  - split; [| intros lines [= <-]; eauto].
    intros e. split; [done |]. intros (_ & -> & -> & -> & [o ->] & ->).
    exfalso. unfold hint_condition, opf_clean in Hc. simpl in Hc.
    rewrite bool_decide_true in Hc by done. simpl in Hc.
    destruct locals as [l|]; [| done].
    assert (is_Some (Some l)) as Hl by eauto.
    apply Hb in Hl as [_ [? [=]]].
  - split; [| done]. intros e. split; [intros [= <-]; done | intros [-> _]; done].
Qed.

(** X13 at the situation in which the summary fails. *)
Lemma X13_summary_outcome_witness :
  (∀ e, summary [] [] (Some "OEBPS/content.opf") (Some "OEBPS/content.opf")
                (Some Samples.sample_opf) None None [] [] = Raises e
        ↔ e = UnboundLocalError "man_missing"
          ∧ @nil string = [] ∧ @nil string = []
          ∧ Some "OEBPS/content.opf" = Some "OEBPS/content.opf"
          ∧ is_Some (Some Samples.sample_opf) ∧ @None OPF = None)
  ∧ (∀ lines, summary [] [] (Some "OEBPS/content.opf") (Some "OEBPS/content.opf")
                      (Some Samples.sample_opf) None None [] [] = Returns lines
              → ∃ rest, lines = "== SUMMARY ==" :: rest).
Proof.
  apply (X13_summary_outcome [] [] (Some "OEBPS/content.opf") (Some "OEBPS/content.opf")
           (Some Samples.sample_opf) None None [] []).
  unfold locals_bound. split.
  - intros [? [=]].
  - intros [_ [? [=]]].
Defined.

(** ** Runs that return a report *)

Lemma bind_Returns {A B} (a : A) (f : A → result B) : (Returns a ≫= f) = f a.
Proof. reflexivity. Qed.

Lemma plain_names_listing z : plain_names z → zip_namelist_files z = namelist z.
Proof.
  unfold plain_names, zip_namelist_files. generalize (namelist z). intros names H.
  induction names as [|n names IH]; [done |].
  destruct (H n ltac:(left)) as [Hd Hn].
  rewrite filter_cons_True by (by rewrite Hd).
  cbn [map]. rewrite Hn. f_equal. apply IH. intros m Hm. apply H. by right.
Qed.

Lemma getinfo_elem (z : ZipFile) (name : string) (m : ZipInfo) :
  getinfo z name = Some m → m ∈ z.
Proof.
  induction z as [|e z IH]; simpl; [done |].
  destruct (getinfo z name) as [m'|].
  - intros [= ->]. right. by apply IH.
  - destruct (String.eqb (filename e) name); [| done]. intros [= ->]. by left.
Qed.

(** In an archive that reads, a member that is found gives its content. *)
Lemma zip_read_readable (z : ZipFile) (name : string) (m : ZipInfo) :
  readable z → getinfo z name = Some m → zip_read z name = Returns (payload m).
Proof.
  intros Hr Hg. unfold zip_read. rewrite Hg.
  by rewrite (Hr m (getinfo_elem z name m Hg)).
Qed.

Lemma read_or_continue_readable (z : ZipFile) (p : string) :
  readable z → ∃ r, read_or_continue z p = Returns r.
Proof.
  intros Hr. unfold read_or_continue.
  destruct (getinfo z p) as [m|] eqn:Hg.
  - rewrite (zip_read_readable z p m Hr Hg). eauto.
  - unfold zip_read. rewrite Hg. eauto.
Qed.

(** Between archives that read, the content loop comes to its end. *)
Lemma content_diff_returns (zo zt : ZipFile) (l : list string) :
  readable zo → readable zt → ∃ d, content_diff zo zt l = Returns d.
Proof.
  intros Ho Ht. unfold content_diff. generalize (mkDiff [] [] [] ∅).
  induction l as [|p l IH]; intros acc; simpl; [eauto |].
  assert (∃ acc', content_step zo zt acc p = Returns acc') as [acc' ->].
  { unfold content_step.
    destruct (read_or_continue_readable zo p Ho) as [[b_o|] ->]; simpl; [| eauto].
    destruct (read_or_continue_readable zt p Ht) as [[b_t|] ->]; simpl; eauto. }
  simpl. apply IH.
Qed.

Lemma mimetype_check_returns label z :
  plain_names z → readable z →
  ∃ lines, mimetype_check label z (zip_namelist_files z) = Returns lines.
Proof.
  intros Hp Hr. rewrite (plain_names_listing z Hp).
  unfold mimetype_check, zip_getinfo, read_text_from_zip.
  case_bool_decide as Hin; [| eauto].
  destruct (getinfo z "mimetype") as [m|] eqn:Hg; simpl.
  - rewrite (zip_read_readable z "mimetype" m Hr Hg). simpl. eauto.
  - by apply getinfo_None_iff in Hg.
Qed.

Lemma extract_opf_outcome ET dec z :
  package_root_ok ET dec z → readable z →
  ∃ c rel opf,
    extract_opf ET dec z = Returns (c, rel, opf)
    ∧ (opf = None ↔
       ¬ ("META-INF/container.xml" ∈ namelist z ∧ truthy rel = true
          ∧ or_empty rel ∈ namelist z))
    ∧ ("META-INF/container.xml" ∉ namelist z → rel = None).
Proof.
  intros Hok Hrd. unfold extract_opf, read_text_from_zip.
  case_bool_decide as Hc.
  2: { do 3 eexists. split; [reflexivity |]. split; [| done]. split; [tauto | done]. }
  destruct (getinfo z "META-INF/container.xml") as [ce|] eqn:Hce;
    [| by apply getinfo_None_iff in Hce].
  assert (zip_read z "META-INF/container.xml" = Returns (payload ce)) as Hread
    by (by apply zip_read_readable).
  rewrite Hread, !bind_Returns.
  set (rel := get_rootfile_from_container ET (dec (payload ce))).
  destruct (truthy rel) eqn:Ht; simpl.
  2: { do 3 eexists. split; [reflexivity |]. split; [| done].
       split; [intros _ (_ & ? & _); congruence | done]. }
  case_bool_decide as Hin; simpl.
  2: { do 3 eexists. split; [reflexivity |]. split; [| done].
       split; [intros _ (_ & _ & ?); done | done]. }
  destruct (getinfo z (or_empty rel)) as [e|] eqn:He;
    [| by apply getinfo_None_iff in He].
  assert (zip_read z (or_empty rel) = Returns (payload e)) as Hread'
    by (by apply zip_read_readable).
  rewrite Hread', !bind_Returns.
  assert (∃ r, parse_opf ET (dec (payload e)) (or_empty rel) = Returns r) as [r Hr].
  { unfold parse_opf. destruct (ET (dec (payload e))) as [doc|] eqn:Hdoc; [| eauto].
    assert (root_namespace doc ≠ "") as Hns.
    { destruct rel as [rel'|] eqn:Erel; [| done]. simpl in *.
      by eapply (Hok (payload ce) rel' e doc). }
    unfold parse_opf_doc. fold (root_namespace doc).
    destruct (String.eqb_spec (root_namespace doc) ""); [done |]. simpl. eauto. }
  rewrite Hr, bind_Returns. do 3 eexists. split; [reflexivity |]. split; [| done].
  split; [done |]. intros H. by destruct H.
Qed.

Lemma summary_returns_unless missing extra rel_o rel_t opf_o opf_t locals non_html issues :
  locals_bound opf_o opf_t locals →
  ¬ (missing = [] ∧ extra = [] ∧ rel_o = rel_t ∧ is_Some opf_o ∧ opf_t = None) →
  ∃ lines, summary missing extra rel_o rel_t opf_o opf_t locals non_html issues
           = Returns lines.
Proof.
  intros Hb Hno.
  assert (∃ ls, match opf_o, opf_t with
                | Some o, Some t =>
                    l ← read_local "man_missing" locals; Returns (summary_opf_lines o t l)
                | _, _ => Returns []
                end = Returns ls) as [ls Hls].
  { destruct opf_o as [o|], opf_t as [t|]; eauto.
    assert (is_Some locals) as [l ->] by (apply Hb; eauto). simpl. eauto. }
  unfold summary. rewrite Hls. simpl.
  destruct (hint_condition_outcome missing extra rel_o rel_t opf_o opf_t
              locals non_html Hb) as [[c Hc]|(Hc & Hrest)]; [| done].
  rewrite Hc. simpl. eauto.
Qed.

Lemma same_listing_same_members (zo zt : ZipFile) :
  sorted (list_to_set (namelist zo) ∖ list_to_set (namelist zt)) = [] →
  ∀ n, n ∈ namelist zo → n ∈ namelist zt.
Proof.
  intros H%sorted_nil_iff n Hn.
  assert (n ∉ (list_to_set (namelist zo) ∖ list_to_set (namelist zt) : gset string)) as Hd
    by (rewrite H; apply not_elem_of_empty).
  rewrite elem_of_difference, !elem_of_list_to_set in Hd.
  destruct (decide (n ∈ namelist zt)); tauto.
Qed.

(** X14. [compare_epub] returns a report for two archives that open,
    all of whose members can be read, whose member names are files in
    normal form, and whose package documents, where the container names
    one that parses, have a root element with a namespace. *)
Theorem X14_compare_epub_returns (ET_fromstring : string → option Element)
    (decode_utf8 : string → string) (fs : string → option ZipFile)
    (orig_path trans_path : string) (zo zt : ZipFile) :
  fs orig_path = Some zo → fs trans_path = Some zt →
  readable zo → readable zt →
  plain_names zo → plain_names zt →
  package_root_ok ET_fromstring decode_utf8 zo →
  package_root_ok ET_fromstring decode_utf8 zt →
  ∃ report, compare_epub ET_fromstring decode_utf8 fs orig_path trans_path
            = Returns report.
Proof.
  intros Ho Ht Hdo Hdt Hpo Hpt Hro Hrt.
  unfold compare_epub. rewrite Ho, Ht.
  assert (∃ lines, report_lines ET_fromstring decode_utf8 orig_path trans_path zo zt
                   = Returns lines) as [lines ->]; [| simpl; eauto].
  unfold report_lines, file_set_diff. cbv beta iota zeta.
  destruct (mimetype_check_returns "orig" zo Hpo Hdo) as [mo Hmo].
  destruct (mimetype_check_returns "tran" zt Hpt Hdt) as [mt Hmt].
  rewrite Hmo, bind_Returns, Hmt, bind_Returns.
  destruct (extract_opf_outcome _ _ _ Hro Hdo) as (c_o & rel_o & opf_o & Heo & Hoo & Hco).
  destruct (extract_opf_outcome _ _ _ Hrt Hdt) as (c_t & rel_t & opf_t & Het & Hot & Hct).
  rewrite Heo, bind_Returns. cbv beta iota. rewrite Het, bind_Returns. cbv beta iota.
  rewrite (plain_names_listing zo Hpo), (plain_names_listing zt Hpt).
  set (ml := match opf_o with
             | Some o => _
             | None => _
             end).
  assert (locals_bound opf_o opf_t (snd ml)) as Hb.
  { subst ml. unfold locals_bound. destruct opf_o as [o|], opf_t as [t|]; simpl.
    - split; eauto.
    - split; [intros [? [=]] | intros [_ [? [=]]]].
    - split; [intros [? [=]] | intros [[? [=]] _]].
    - split; [intros [? [=]] | intros [[? [=]] _]]. }
  destruct ml as [manifest_lines locals]. simpl in Hb. cbv beta iota.
  destruct (content_diff_returns zo zt
              (sorted (list_to_set (namelist zo) ∩ list_to_set (namelist zt))) Hdo Hdt)
    as [d Hd].
  rewrite Hd, bind_Returns.
  destruct (html_issues_of_returns decode_utf8 (list_to_set (namelist zt))
              (changed_blobs_t d) (take 20 (changed_html_paths d))) as (issues & Hi & _).
  { intros p Hp. eapply changed_blobs_lookup; [exact Hd |].
    eapply elem_of_sublist; [exact Hp | apply sublist_take]. }
  rewrite Hi, bind_Returns.
  destruct (summary_returns_unless
              (sorted (list_to_set (namelist zo) ∖ list_to_set (namelist zt)))
              (sorted (list_to_set (namelist zt) ∖ list_to_set (namelist zo)))
              rel_o rel_t opf_o opf_t locals (non_html_changed d) issues Hb)
    as [sl Hs].
  - intros (Hm & He & <- & [o ->] & ->).
    apply Hot; [done |].
    assert ("META-INF/container.xml" ∈ namelist zo ∧ truthy rel_o = true
            ∧ or_empty rel_o ∈ namelist zo) as (Hc & Htr & Hin).
    { destruct (decide ("META-INF/container.xml" ∈ namelist zo ∧ truthy rel_o = true
                        ∧ or_empty rel_o ∈ namelist zo)) as [?|Hn]; [done |].
      by apply Hoo in Hn. }
    split_and!; [| done |]; eapply same_listing_same_members; eauto.
  - rewrite Hs, bind_Returns. eauto.
Qed.

(** X14 at the sample book compared with itself. *)
Lemma X14_compare_epub_returns_witness :
  ∃ report,
    compare_epub Samples.fromstring Samples.decode
      (Samples.files (Samples.book "OEBPS/content.opf" Samples.opf_xml)
                     (Samples.book "OEBPS/content.opf" Samples.opf_xml))
      "orig.epub" "tran.epub" = Returns report.
Proof.
  assert (readable (Samples.book "OEBPS/content.opf" Samples.opf_xml)) as Hd.
  { intros m Hm.
    repeat (apply elem_of_cons in Hm as [->|Hm]; [reflexivity |]).
    by apply elem_of_nil in Hm. }
  assert (plain_names (Samples.book "OEBPS/content.opf" Samples.opf_xml)) as Hp.
  { intros n Hn. cbn [namelist Samples.book map filename] in Hn.
    repeat (apply elem_of_cons in Hn as [->|Hn]; [by vm_compute |]).
    by apply elem_of_nil in Hn. }
  assert (package_root_ok Samples.fromstring Samples.decode
            (Samples.book "OEBPS/content.opf" Samples.opf_xml)) as Hr.
  { intros ctext rel e doc H1 H2 H3 H4.
    vm_compute in H1. injection H1 as <-.
    vm_compute in H2. injection H2 as <-.
    vm_compute in H3. injection H3 as <-.
    vm_compute in H4. injection H4 as <-.
    by vm_compute. }
  exact (X14_compare_epub_returns Samples.fromstring Samples.decode
           (Samples.files (Samples.book "OEBPS/content.opf" Samples.opf_xml)
                          (Samples.book "OEBPS/content.opf" Samples.opf_xml))
           "orig.epub" "tran.epub"
           (Samples.book "OEBPS/content.opf" Samples.opf_xml)
           (Samples.book "OEBPS/content.opf" Samples.opf_xml)
           eq_refl eq_refl Hd Hd Hp Hp Hr Hr).
Defined.

(** ** The package block and the package lookup *)

Lemma first_spine_diff_same (o t : list string) :
  first_spine_diff o t = (-1)%Z ∧ length o = length t ↔ o = t.
Proof.
  unfold first_spine_diff. rewrite spine_scan_none. split.
  - intros [H Hl]. apply list_eq. intros i.
    destruct (decide (i < length o)%nat) as [Hi|Hi]; [apply H; lia |].
    rewrite !lookup_ge_None_2; [done | lia | lia].
  - intros ->. split; done.
Qed.

Lemma nonempty_nil_iff {A} (l : list A) : nonempty l = false ↔ l = [].
Proof. by destruct l. Qed.

Lemma filter_nil_iff {A} (P : A → Prop) `{!∀ x, Decision (P x)} (l : list A) :
  filter P l = [] ↔ ∀ x, x ∈ l → ¬ P x.
Proof.
  induction l as [|a l IH].
  - split; [intros _ x Hx; by apply elem_of_nil in Hx | done].
  - destruct (decide (P a)) as [Ha|Ha].
    + rewrite filter_cons_True by done. split; [done |].
      intros Hall. exfalso. apply (Hall a); [left | done].
    + rewrite filter_cons_False by done. rewrite IH. split.
      * intros Hall x [->|Hx]%elem_of_cons; [done | by apply Hall].
      * intros Hall x Hx. apply Hall. by right.
Qed.

Lemma parse_opf_raises ET opf_text opf_path e :
  parse_opf ET opf_text opf_path = Raises e →
  e = SyntaxError "prefix 'opf' not found in prefix map".
Proof.
  unfold parse_opf. destruct (ET opf_text) as [doc|]; [| done].
  unfold parse_opf_doc.
  destruct (String.eqb _ ""); simpl; [| done]. by intros [= <-].
Qed.

Lemma mt_diffs_zero_iff (o t : OPF) :
  mt_diffs o t = 0%nat ↔
  ∀ p, p ∈ manifest_paths o → p ∈ manifest_paths t → media_type o p = media_type t p.
Proof.
  unfold mt_diffs. rewrite length_zero_iff_nil, filter_nil_iff. split.
  - intros H p Hpo Hpt.
    specialize (H p). rewrite elem_of_elements, elem_of_intersection,
      !elem_of_list_to_set in H. specialize (H (conj Hpo Hpt)).
    destruct (String.eqb_spec (media_type o p) (media_type t p)); [done |].
    exfalso. by apply H.
  - intros H p. rewrite elem_of_elements, elem_of_intersection, !elem_of_list_to_set.
    intros [Hpo Hpt]. rewrite (H p Hpo Hpt), String.eqb_refl. simpl. tauto.
Qed.

Lemma app_if_nil_iff {A} (b : bool) (x : list A) (rest : list A) :
  x ≠ [] → (if b then x else []) ++ rest = [] ↔ b = false ∧ rest = [].
Proof.
  intros Hx. destruct b; simpl.
  - split; [intros [? ?]%app_eq_nil; done | intros [? _]; done].
  - split; [done | intros [_ ?]; done].
Qed.

(** X15. After the manifest block, the summary prints no line about the
    package documents exactly when they have the same set of manifest
    paths, the same media type for every common path, and the same spine;
    and the package part of the closing condition is true exactly then. *)
Theorem X15_package_differences (ET_fromstring : string → option Element)
    (decode_utf8 : string → string) (zt : ZipFile) (set_o set_t : gset string)
    (o t : OPF) :
  (summary_opf_lines o t (snd (manifest_block ET_fromstring decode_utf8 zt set_o set_t o t))
   = []
   ↔ (∀ p, p ∈ manifest_paths o ↔ p ∈ manifest_paths t)
     ∧ (∀ p, p ∈ manifest_paths o → p ∈ manifest_paths t →
             media_type o p = media_type t p)
     ∧ spine_paths o = spine_paths t)
  ∧ opf_clean (Some o) (Some t)
      (Some (snd (manifest_block ET_fromstring decode_utf8 zt set_o set_t o t)))
    = Returns (bool_decide
        (summary_opf_lines o t
           (snd (manifest_block ET_fromstring decode_utf8 zt set_o set_t o t)) = [])).
Proof.
  unfold manifest_block. cbn [snd].
  set (man_o := list_to_set (manifest_paths o) : gset string).
  set (man_t := list_to_set (manifest_paths t) : gset string).
  assert (summary_opf_lines o t
            (mkLocals (sorted (man_o ∖ man_t)) (sorted (man_t ∖ man_o))
               (first_spine_diff (spine_paths o) (spine_paths t))) = []
          ↔ (nonempty (sorted (man_o ∖ man_t)) = false
             ∧ nonempty (sorted (man_t ∖ man_o)) = false)
            ∧ mt_diffs o t = 0%nat
            ∧ first_spine_diff (spine_paths o) (spine_paths t) = (-1)%Z
              ∧ length (spine_paths o) = length (spine_paths t)) as Hlines.
  { unfold summary_opf_lines. cbn [man_missing man_extra diff_idx].
    rewrite app_if_nil_iff by done. rewrite app_if_nil_iff by done.
    rewrite orb_false_iff, negb_false_iff, Nat.eqb_eq.
    destruct (Z.eqb_spec (first_spine_diff (spine_paths o) (spine_paths t)) (-1));
      destruct (Nat.eqb_spec (length (spine_paths o)) (length (spine_paths t)));
      simpl; intuition congruence. }
  split.
  - rewrite Hlines, !nonempty_nil_iff, !sorted_nil_iff, mt_diffs_zero_iff,
      first_spine_diff_same.
    assert (man_o ∖ man_t = ∅ ∧ man_t ∖ man_o = ∅
            ↔ ∀ p, p ∈ manifest_paths o ↔ p ∈ manifest_paths t) as ->; [| done].
    split.
    + intros [Ho Ht] p.
      assert (p ∉ man_o ∖ man_t) as H1 by (rewrite Ho; apply not_elem_of_empty).
      assert (p ∉ man_t ∖ man_o) as H2 by (rewrite Ht; apply not_elem_of_empty).
      subst man_o man_t.
      rewrite elem_of_difference, !elem_of_list_to_set in H1, H2.
      destruct (decide (p ∈ manifest_paths o)), (decide (p ∈ manifest_paths t)); tauto.
    + intros H. split; apply elem_of_equiv_empty_L; intros p;
        subst man_o man_t; rewrite elem_of_difference, !elem_of_list_to_set;
        specialize (H p); tauto.
  - unfold opf_clean, read_local. cbn [mbind result_bind man_missing man_extra diff_idx].
    destruct (nonempty (sorted (man_o ∖ man_t))) eqn:E1; simpl.
    { rewrite bool_decide_false; [done |]. rewrite Hlines. intuition congruence. }
    destruct (nonempty (sorted (man_t ∖ man_o))) eqn:E2; simpl.
    { rewrite bool_decide_false; [done |]. rewrite Hlines. intuition congruence. }
    destruct (Z.eqb_spec (first_spine_diff (spine_paths o) (spine_paths t)) (-1))
      as [E3|E3]; simpl.
    2: { rewrite bool_decide_false; [done |]. rewrite Hlines. intuition congruence. }
    f_equal.
    destruct (Nat.eqb_spec (length (spine_paths o)) (length (spine_paths t))) as [E4|E4];
      simpl.
    2: { rewrite bool_decide_false; [done |]. rewrite Hlines. intuition congruence. }
    destruct (Nat.eqb_spec (mt_diffs o t) 0) as [E5|E5].
    + rewrite bool_decide_true; [done |]. rewrite Hlines. done.
    + rewrite bool_decide_false; [done |]. rewrite Hlines. intuition congruence.
Qed.

(** X16. [extract_opf] looks up only names it found in the name list of
    the archive: it fails with the exception of [parse_opf], or with the
    exception of a listed member that cannot be read, and in no other way;
    without a container member it returns three times [None]; and a
    package it returns was parsed from the member the container names,
    which exists, can be read and has a non-empty name. *)
Theorem X16_extract_opf_outcome (ET_fromstring : string → option Element)
    (decode_utf8 : string → string) (zf : ZipFile) :
  (∀ e, extract_opf ET_fromstring decode_utf8 zf = Raises e →
        e = SyntaxError "prefix 'opf' not found in prefix map"
        ∨ ∃ name m, getinfo zf name = Some m ∧ read_error m = Some e)
  ∧ ("META-INF/container.xml" ∉ namelist zf →
     extract_opf ET_fromstring decode_utf8 zf = Returns (None, None, None))
  ∧ (∀ c rel opf,
       extract_opf ET_fromstring decode_utf8 zf = Returns (c, rel, Some opf) →
       "META-INF/container.xml" ∈ namelist zf
       ∧ ∃ r m, rel = Some r ∧ r ≠ "" ∧ r ∈ namelist zf
                ∧ getinfo zf r = Some m ∧ read_error m = None
                ∧ parse_opf ET_fromstring (decode_utf8 (payload m)) r = Returns opf).
Proof.
  unfold extract_opf, read_text_from_zip.
  case_bool_decide as Hc.
  2: { split_and!; [intros ? [=] | done | intros ? ? ? ?; simplify_eq]. }
  destruct (getinfo zf "META-INF/container.xml") as [ce|] eqn:Hce;
    [| by apply getinfo_None_iff in Hce].
  destruct (read_error ce) as [x|] eqn:Hx.
  { assert (zip_read zf "META-INF/container.xml" = Raises x) as ->
      by (unfold zip_read; by rewrite Hce, Hx).
    simpl. split_and!; [| intros Hn; destruct (Hn Hc) | intros ? ? ? ?; simplify_eq].
    intros e [= <-]. right. by exists "META-INF/container.xml", ce. }
  assert (zip_read zf "META-INF/container.xml" = Returns (payload ce)) as ->
    by (unfold zip_read; by rewrite Hce, Hx).
  rewrite !bind_Returns.
  destruct (get_rootfile_from_container ET_fromstring (decode_utf8 (payload ce)))
    as [r|] eqn:Er.
  2: { simpl. split_and!; [intros ? [=] | intros Hn; destruct (Hn Hc)
                          | intros ? ? ? ?; simplify_eq]. }
  destruct (truthy (Some r)) eqn:Ht; simpl.
  2: { split_and!; [intros ? [=] | intros Hn; destruct (Hn Hc) | intros ? ? ? ?; simplify_eq]. }
  case_bool_decide as Hin; simpl.
  2: { split_and!; [intros ? [=] | intros Hn; destruct (Hn Hc) | intros ? ? ? ?; simplify_eq]. }
  destruct (getinfo zf r) as [m|] eqn:Hm; [| by apply getinfo_None_iff in Hm].
  destruct (read_error m) as [y|] eqn:Hy.
  { assert (zip_read zf r = Raises y) as -> by (unfold zip_read; by rewrite Hm, Hy).
    simpl. split_and!; [| intros Hn; destruct (Hn Hc) | intros ? ? ? ?; simplify_eq].
    intros e [= <-]. right. by exists r, m. }
  assert (zip_read zf r = Returns (payload m)) as ->
    by (unfold zip_read; by rewrite Hm, Hy).
  rewrite !bind_Returns.
  destruct (parse_opf ET_fromstring (decode_utf8 (payload m)) r) as [parsed|e'] eqn:Hp;
    simpl.
  - split_and!; [intros ? [=] | intros Hn; destruct (Hn Hc) |].
    intros c rel' opf [= <- <- <-].
    split; [done |]. exists r, m. split_and!; try done.
    intros ->. done.
  - split_and!; [| intros Hn; destruct (Hn Hc) | intros ? ? ? ?; simplify_eq].
    intros e [= <-]. left. by eapply parse_opf_raises.
Qed.

(** ** Detection and the entry point *)

Lemma auto_detect_fold files acc :
  fold_left auto_detect_step files acc
  = (match fst acc with
     | Some o => Some o
     | None => head (filter (λ f, negb (is_translation f)) files)
     end,
     match last (filter (λ f, is_translation f) files) with
     | Some t => Some t
     | None => snd acc
     end).
Proof.
  revert acc. induction files as [|f files IH]; intros [o t]; simpl.
  - by destruct o.
  - rewrite IH. unfold auto_detect_step. rewrite !filter_cons.
    destruct (is_translation f) eqn:E; simpl.
    + f_equal. rewrite last_cons.
      by destruct (last (filter (λ f0, is_translation f0) files)).
    + by destruct o.
Qed.

(** X17. Detection returns the first candidate whose base name lacks
    [_ua] and the last one whose base name has it; the two are never the
    same file; and each is the directory name joined to an entry ending,
    in any letter case, in [.epub]. *)
Theorem X17_auto_detect (temp : option (list string)) :
  _auto_detect_from_temp temp
  = (head (filter (λ f, negb (is_translation f)) (epub_files (default [] temp))),
     last (filter (λ f, is_translation f) (epub_files (default [] temp))))
  ∧ (∀ o t, fst (_auto_detect_from_temp temp) = Some o →
            snd (_auto_detect_from_temp temp) = Some t →
            o ≠ t ∧ is_translation o = false ∧ is_translation t = true)
  ∧ (∀ p, fst (_auto_detect_from_temp temp) = Some p
          ∨ snd (_auto_detect_from_temp temp) = Some p →
          ∃ f, f ∈ default [] temp ∧ Py.endswith (Py.lower f) ".epub" = true
               ∧ p = PosixPath.join "temp" f).
Proof.
  assert (_auto_detect_from_temp temp
          = (head (filter (λ f, negb (is_translation f)) (epub_files (default [] temp))),
             last (filter (λ f, is_translation f) (epub_files (default [] temp))))) as E.
  { unfold _auto_detect_from_temp. destruct temp as [entries|]; [| done].
    change (default [] (Some entries)) with entries. destruct (epub_files entries) as [|f files] eqn:Ef; [reflexivity |].
    rewrite auto_detect_fold. cbn [fst snd]. f_equal.
    by destruct (last (filter (λ f0, is_translation f0) (f :: files))). }
  split; [done |]. rewrite E. simpl.
  assert (∀ (P : string → Prop) `{∀ x, Decision (P x)} l p,
            head (filter P l) = Some p ∨ last (filter P l) = Some p → P p ∧ p ∈ l) as Hin.
  { intros P ? l p [H|H].
    - apply head_Some_elem_of, list_elem_of_filter in H. done.
    - apply last_Some_elem_of, list_elem_of_filter in H. done. }
  split.
  - intros o t Ho Ht.
    apply (λ H, Hin _ _ _ _ (or_introl H)) in Ho as [Ho _].
    apply (λ H, Hin _ _ _ _ (or_intror H)) in Ht as [Ht _].
    destruct (is_translation o) eqn:Eo; [done |].
    destruct (is_translation t) eqn:Et; [| done].
    split; [congruence | done].
  - intros p [H|H].
    + apply (λ H, Hin _ _ _ _ (or_introl H)) in H as [_ H].
      unfold epub_files in H. apply list_elem_of_fmap in H as (f & -> & Hf).
      apply list_elem_of_filter in Hf as [Hf ?]. exists f. split_and!; try done.
      by destruct (Py.endswith (Py.lower f) ".epub").
    + apply (λ H, Hin _ _ _ _ (or_intror H)) in H as [_ H].
      unfold epub_files in H. apply list_elem_of_fmap in H as (f & -> & Hf).
      apply list_elem_of_filter in Hf as [Hf ?]. exists f. split_and!; try done.
      by destruct (Py.endswith (Py.lower f) ".epub").
Qed.

(** X18. [main] exits with status 2 exactly when it has fewer than two
    arguments and detection lacks one of the two files, and then prints the
    two usage lines and saves nothing; with two arguments the directory is
    never consulted; what is printed and how the run ends do not depend on
    whether the report can be saved; and a saved report is the last thing
    printed by a run that completed. *)
Theorem X18_main_outcome (ET_fromstring : string → option Element)
    (decode_utf8 : string → string) (argv : list string)
    (temp : option (list string)) (fs : string → option ZipFile) (writable : bool) :
  (ended (main ET_fromstring decode_utf8 argv temp fs writable) = SystemExit 2
   ↔ (length argv < 3)%nat
     ∧ (truthy (fst (_auto_detect_from_temp temp)) = false
        ∨ truthy (snd (_auto_detect_from_temp temp)) = false))
  ∧ (ended (main ET_fromstring decode_utf8 argv temp fs writable) = SystemExit 2 →
     stdout (main ET_fromstring decode_utf8 argv temp fs writable) = usage_lines
     ∧ saved (main ET_fromstring decode_utf8 argv temp fs writable) = None)
  ∧ ((3 ≤ length argv)%nat →
     main ET_fromstring decode_utf8 argv temp fs writable
     = main ET_fromstring decode_utf8 argv None fs writable)
  ∧ stdout (main ET_fromstring decode_utf8 argv temp fs writable)
    = stdout (main ET_fromstring decode_utf8 argv temp fs (negb writable))
  ∧ ended (main ET_fromstring decode_utf8 argv temp fs writable)
    = ended (main ET_fromstring decode_utf8 argv temp fs (negb writable))
  ∧ (∀ report, saved (main ET_fromstring decode_utf8 argv temp fs writable) = Some report →
     last (stdout (main ET_fromstring decode_utf8 argv temp fs writable)) = Some report
     ∧ ended (main ET_fromstring decode_utf8 argv temp fs writable) = Completed).
Proof.
  assert (∀ w printed o t,
            ended (run_compare ET_fromstring decode_utf8 fs w printed o t) ≠ SystemExit 2) as Hne.
  { intros w printed o t. unfold run_compare. by destruct (compare_epub _ _ _ _ _). }
  assert (∀ w printed o t report,
            saved (run_compare ET_fromstring decode_utf8 fs w printed o t) = Some report →
            last (stdout (run_compare ET_fromstring decode_utf8 fs w printed o t))
              = Some report
            ∧ ended (run_compare ET_fromstring decode_utf8 fs w printed o t) = Completed)
    as Hsaved.
  { intros w printed o t report. unfold run_compare.
    destruct (compare_epub _ _ _ _ _); simpl; [| done].
    destruct w; [| done]. intros [= ->]. by rewrite last_snoc. }
  assert (∀ w printed o t,
            stdout (run_compare ET_fromstring decode_utf8 fs w printed o t)
            = stdout (run_compare ET_fromstring decode_utf8 fs (negb w) printed o t)
            ∧ ended (run_compare ET_fromstring decode_utf8 fs w printed o t)
              = ended (run_compare ET_fromstring decode_utf8 fs (negb w) printed o t))
    as Hw.
  { intros w printed o t. unfold run_compare. by destruct (compare_epub _ _ _ _ _). }
  unfold main.
  destruct (Nat.leb_spec 3 (length argv)) as [Hlen|Hlen].
  - split_and!; try done.
    + split; [intros H; by apply Hne in H | lia].
    + intros H. by apply Hne in H.
    + apply Hw.
    + apply Hw.
    + apply Hsaved.
  - destruct (_auto_detect_from_temp temp) as [orig trans]. simpl.
    destruct (truthy orig) eqn:Eo; simpl.
    + destruct (truthy trans) eqn:Et; simpl.
      * split_and!; try apply Hw; try apply Hsaved.
        -- split; [intros H; by apply Hne in H | intros [_ [?|?]]; done].
        -- intros H. by apply Hne in H.
        -- lia.
      * split_and!; try done; try lia. split; auto.
    + split_and!; try done; try lia. split; auto.
Qed.
